(** * Ludwig hyperparameter search: strategies, executors and helpers

    A shallow embedding of [ludwig/utils/hyperopt_utils.py] together with
    the properties its specification states about it.

    Conventions of the embedding.
    - Python [int] is [Z]; Python [float] is modelled by the exact
      rationals [Q] (no rounding error, no NaN, no infinities).
    - A Python call that may raise returns a [result]: [Ok v] for a normal
      return and [Raise e] for an exception that leaves the call.
    - Objects that the code mutates (strategies, the slot queue, the list of
      pending trials) are threaded explicitly as state.
    - Insertion-ordered [dict]s are association lists with unique keys; an
      assignment to an existing key keeps its position, a new key goes last. *)

From Stdlib Require Import ZArith QArith Qround Lqa Lia Bool List.
From Stdlib Require Import Strings.String Strings.Ascii DecimalString.
From Stdlib Require Import Permutation Sorted.
Import ListNotations.

Set Implicit Arguments.
#[local] Set Warnings "-register-all".
#[local] Set Warnings "-automation".


(* ------------------------------------------------------------------ *)
(** * Python outcomes *)

Module Py.

(** The exception classes that occur in the modelled code. [TrialError]
    stands for whatever the external train/evaluate collaborator raises. *)
Inductive exn : Type :=
| IndexError
| KeyError
| TypeError
| AttributeError
| ValueError
| ZeroDivisionError
| UnboundLocalError
| FileNotFoundError
| CalledProcessError
| UnicodeDecodeError
| TrialError.

Inductive result (A : Type) : Type :=
| Ok (a : A)
| Raise (e : exn).

Arguments Ok {A} a.
Arguments Raise {A} e.

Definition bind {A B} (r : result A) (k : A -> result B) : result B :=
  match r with
  | Ok a => k a
  | Raise e => Raise e
  end.

Definition is_ok {A} (r : result A) : bool :=
  match r with Ok _ => true | Raise _ => false end.

Definition exn_eqb (a b : exn) : bool :=
  match a, b with
  | IndexError, IndexError | KeyError, KeyError | TypeError, TypeError
  | AttributeError, AttributeError
  | ValueError, ValueError | ZeroDivisionError, ZeroDivisionError
  | UnboundLocalError, UnboundLocalError
  | FileNotFoundError, FileNotFoundError
  | CalledProcessError, CalledProcessError
  | UnicodeDecodeError, UnicodeDecodeError
  | TrialError, TrialError => true
  | _, _ => false
  end.

(** [int(q)] on a float: the fractional part is dropped. *)
Definition Qtrunc (q : Q) : Z :=
  if (Qnum q <? 0)%Z then Qceiling q else Qfloor q.

(** [x < y] on floats *)
Definition Qltb (x y : Q) : bool := negb (Qle_bool y x).

(** [for x in xs: body], stopping at the first exception. *)
Fixpoint mapM {A B} (f : A -> result B) (xs : list A) : result (list B) :=
  match xs with
  | [] => Ok []
  | x :: xs' =>
      bind (f x) (fun y => bind (mapM f xs') (fun ys => Ok (y :: ys)))
  end.

End Py.

Import Py.

Declare Scope py_scope.
Delimit Scope py_scope with py.
Notation "x <- c ;; k" := (Py.bind c (fun x => k))
  (at level 61, c at next level, right associativity) : py_scope.
Open Scope py_scope.

(* ------------------------------------------------------------------ *)
(** * Grid functions *)

Module GridFunctions.

Open Scope Q_scope.

(** How [numpy] turns the evenly spaced floats of [linspace] into integers
    when [dtype=int] is requested: releases before 1.20 truncate toward
    zero ([astype]), later ones round toward minus infinity. *)
Inductive int_rounding : Type := TowardZero | TowardNegInf.

Definition to_int (r : int_rounding) (q : Q) : Z :=
  match r with
  | TowardZero => Qtrunc q
  | TowardNegInf => Qfloor q
  end.

(** [y[-1] = stop] *)
Definition set_last (y : list Q) (stop : Q) : list Q :=
  removelast y ++ [stop].

(** [np.linspace(start, stop, num)] for [num >= 0] with the default
    [endpoint=True], following numpy's own steps:
    [div = num - 1], [delta = stop - start], [y = arange(0, num)],
    [y = y * (delta / div)] when [div > 0] and [y * delta] otherwise,
    [y += start], and the last element overwritten by [stop] when
    [num > 1]. *)
Definition linspace_point (start stop : Q) (num : Z) (i : nat) : Q :=
  let div := (num - 1)%Z in
  let delta := stop - start in
  let y := inject_Z (Z.of_nat i) in
  (if (0 <? div)%Z then y * (delta / inject_Z div) else y * delta)
  + start.

Definition np_linspace (start stop : Q) (num : Z) : list Q :=
  let y := map (linspace_point start stop num) (seq 0 (Z.to_nat num)) in
  if (1 <? num)%Z then set_last y stop else y.

(** The [i]-th element of [np.linspace(start, stop, num)], in closed
    form. *)
Definition linspace_at (start stop : Q) (num : Z) (i : nat) : Q :=
  if (1 <? num)%Z && (i =? Z.to_nat num - 1)%nat then stop
  else linspace_point start stop num i.

(** [np.linspace(start, stop, num=num)]; a negative [num] is rejected
    with [ValueError]. *)
Definition np_linspace_float (start stop : Q) (num : Z) : result (list Q) :=
  if (num <? 0)%Z then Raise ValueError
  else Ok (np_linspace start stop num).

(** [np.linspace(start, stop, num=num, dtype=int).tolist()] *)
Definition np_linspace_int (r : int_rounding) (start stop : Z) (num : Z)
  : result (list Z) :=
  ys <- np_linspace_float (inject_Z start) (inject_Z stop) num ;;
  Ok (map (to_int r) ys).

(** [int_grid_function(range, steps=None)] *)
Definition int_grid_function (r : int_rounding) (range : Z * Z)
    (steps : option Z) : result (list Z) :=
  let low := fst range in
  let high := snd range in
  let steps := match steps with
               | None => (high - low + 1)%Z
               | Some s => s
               end in
  np_linspace_int r low high steps.

Section FloatGrid.
(** Geometric spacing is not rational: numpy's [logspace] and
    [geomspace] are taken as given. *)
Variable np_logspace : Q -> Q -> Z -> Q -> result (list Q).
Variable np_geomspace : Q -> Q -> Z -> result (list Q).

(** [float_grid_function(range, steps=None, space='linear', base=None)] *)
Definition float_grid_function (range : Q * Q) (steps : option Z)
    (space : string) (base : option Q) : result (list Q) :=
  let low := fst range in
  let high := snd range in
  let steps := match steps with
               | None => Qtrunc (high - low + 1)
               | Some s => s
               end in
  if String.eqb space "linear" then np_linspace_float low high steps
  else if String.eqb space "log" then
    match base with
    | Some b => if Qeq_bool b 0 then np_geomspace low high steps
                else np_logspace low high steps b
    | None => np_geomspace low high steps
    end
  else Raise ValueError.
End FloatGrid.

(** [category_grid_function(values)] *)
Definition category_grid_function {V : Type} (values : list V) : list V :=
  values.




End GridFunctions.

(* ------------------------------------------------------------------ *)
(** * Python strings and lists *)

Module PyStr.

Open Scope string_scope.

Definition is_empty (s : string) : bool :=
  match s with EmptyString => true | String _ _ => false end.

(** [s.split(sep)] for a one-character separator: always at least one
    piece, empty pieces are kept. *)
Fixpoint split_on (sep : ascii) (s : string) : list string :=
  match s with
  | EmptyString => [EmptyString]
  | String c rest =>
      if Ascii.eqb c sep then EmptyString :: split_on sep rest
      else match split_on sep rest with
           | [] => [String c EmptyString]
           | w :: ws => String c w :: ws
           end
  end.

(** The characters Python's [str] methods treat as white space, among the
    ASCII ones. *)
Definition is_space (c : ascii) : bool :=
  let n := nat_of_ascii c in
  ((9 <=? n) && (n <=? 13) || (28 <=? n) && (n <=? 32))%nat.

(** [s.split()]: pieces separated by runs of white space, none empty. *)
Fixpoint split_ws_aux (s : string) : string * list string :=
  match s with
  | EmptyString => (EmptyString, [])
  | String c rest =>
      let (w, ws) := split_ws_aux rest in
      if is_space c
      then (EmptyString, if is_empty w then ws else w :: ws)
      else (String c w, ws)
  end.

Definition split_ws (s : string) : list string :=
  let (w, ws) := split_ws_aux s in
  if is_empty w then ws else w :: ws.

Fixpoint lstrip (s : string) : string :=
  match s with
  | String c rest => if is_space c then lstrip rest else s
  | EmptyString => EmptyString
  end.

Fixpoint rstrip (s : string) : string :=
  match s with
  | EmptyString => EmptyString
  | String c rest =>
      let r := rstrip rest in
      if is_empty r && is_space c then EmptyString else String c r
  end.

(** [s.strip()] *)
Definition strip (s : string) : string := rstrip (lstrip s).

Definition digit_of (c : ascii) : option Z :=
  let n := nat_of_ascii c in
  if ((48 <=? n) && (n <=? 57))%nat then Some (Z.of_nat (n - 48)) else None.

Fixpoint digits_value (acc : Z) (s : string) : option Z :=
  match s with
  | EmptyString => Some acc
  | String c rest =>
      match digit_of c with
      | Some d => digits_value (10 * acc + d) rest
      | None => None
      end
  end.

Definition unsigned_value (s : string) : option Z :=
  if is_empty s then None else digits_value 0 s.

(** [int(s)] on a string: surrounding white space is ignored, one sign is
    allowed, then decimal digits; anything else is a [ValueError].
    (Digit-grouping underscores and non-ASCII digits are not modelled.) *)
Definition py_int (s : string) : result Z :=
  let body := strip s in
  let parsed :=
    match body with
    | String "-" rest => option_map Z.opp (unsigned_value rest)
    | String "+" rest => unsigned_value rest
    | _ => unsigned_value body
    end in
  match parsed with
  | Some z => Ok z
  | None => Raise ValueError
  end.

(** [s.decode('ascii')] on the bytes [s] *)
Fixpoint all_ascii (s : string) : bool :=
  match s with
  | EmptyString => true
  | String c rest => (nat_of_ascii c <? 128)%nat && all_ascii rest
  end.

Definition decode_ascii (s : string) : result string :=
  if all_ascii s then Ok s else Raise UnicodeDecodeError.

End PyStr.

Module PyList.

(** [l[i]] with Python's negative indices. *)
Definition index {A} (l : list A) (i : Z) : result A :=
  let n := Z.of_nat (List.length l) in
  let j := if (i <? 0)%Z then (n + i)%Z else i in
  if (j <? 0)%Z then Raise IndexError
  else match nth_error l (Z.to_nat j) with
       | Some x => Ok x
       | None => Raise IndexError
       end.

(** [itertools.product] over the lists [ls]: the right-most position varies fastest;
    the product of no lists is the single empty tuple. *)
Fixpoint product {A} (ls : list (list A)) : list (list A) :=
  match ls with
  | [] => [[]]
  | l :: ls' => flat_map (fun x => map (cons x) (product ls')) l
  end.

(** The product of the lengths of the lists [ls]. *)
Definition prod_lengths {A} (ls : list (list A)) : nat :=
  fold_right Nat.mul 1%nat (map (@List.length A) ls).

Section Sorted.
Variables (A K : Type).
Variable lt : K -> K -> bool.
Variable key : A -> K.

(** Put [x] in front of the first element that is not smaller than it:
    elements with an equal key stay behind [x], which came first. *)
Fixpoint insert (x : A) (l : list A) : list A :=
  match l with
  | [] => [x]
  | y :: l' => if lt (key y) (key x) then y :: insert x l' else x :: l
  end.

(** A stable sort that compares keys with [<] only. *)
Fixpoint stable_sort (l : list A) : list A :=
  match l with
  | [] => []
  | x :: l' => insert x (stable_sort l')
  end.

(** [sorted(l, key=key, reverse=reverse)]. As in CPython, a reverse
    sort reverses the input, sorts it stably in increasing order and
    reverses the outcome, so that equal keys keep their input order. *)
Definition sorted (reverse : bool) (l : list A) : list A :=
  if reverse then rev (stable_sort (rev l)) else stable_sort l.
End Sorted.

End PyList.

(* ------------------------------------------------------------------ *)
(** * Dictionaries and configuration values *)

Module Dict.

Section Ops.
Variable V : Type.

Definition dict : Type := list (string * V).

Fixpoint get (k : string) (d : dict) : option V :=
  match d with
  | [] => None
  | (k', v) :: d' => if String.eqb k k' then Some v else get k d'
  end.

(** [k in d] *)
Definition mem (k : string) (d : dict) : bool :=
  match get k d with Some _ => true | None => false end.

(** [d[k]] *)
Definition lookup (k : string) (d : dict) : result V :=
  match get k d with Some v => Ok v | None => Raise KeyError end.

(** [d[k] = v] *)
Fixpoint set (k : string) (v : V) (d : dict) : dict :=
  match d with
  | [] => [(k, v)]
  | (k', v') :: d' =>
      if String.eqb k k' then (k, v) :: d' else (k', v') :: set k v d'
  end.

Definition keys (d : dict) : list string := map fst d.

(** [dict(pairs)]: later pairs win. *)
Definition of_pairs (pairs : list (string * V)) : dict :=
  fold_left (fun d kv => set (fst kv) (snd kv) d) pairs [].
End Ops.

Arguments get {V} k d.
Arguments mem {V} k d.
Arguments lookup {V} k d.
Arguments set {V} k v d.
Arguments keys {V} d.
Arguments of_pairs {V} pairs.

End Dict.

Module Config.

(** The values of a model definition and of sampled parameters. *)
Inductive value : Type :=
| VNone
| VBool (b : bool)
| VInt (z : Z)
| VFloat (q : Q)
| VStr (s : string)
| VList (l : list value)
| VDict (d : list (string * value)).

(** A ParameterMapping: dotted parameter name to sampled value. *)
Definition params : Type := Dict.dict value.

End Config.

(* ------------------------------------------------------------------ *)
(** * Search strategies *)

Module Strategy.

Import Config.

Inductive goal : Type := MINIMIZE | MAXIMIZE.

Definition goal_eqb (a b : goal) : bool :=
  match a, b with
  | MINIMIZE, MINIMIZE | MAXIMIZE, MAXIMIZE => true
  | _, _ => false
  end.

(** One declared parameter, by its [type] entry. [HpOther] is any type
    name that the grid-function registry does not know. *)
Inductive hp_params : Type :=
| HpInt (range : Z * Z) (steps : option Z)
| HpReal (range : Q * Q) (steps : option Z) (space : string)
         (base : option Q)
| HpCategory (values : list value)
| HpOther (type : string).

Record GridStrategy : Type := mkGrid {
  grid_goal : goal;
  grid_search_space : Dict.dict (list value);
  grid_samples : list params;
  grid_sampled_so_far : nat
}.

Record RandomStrategy : Type := mkRandom {
  random_goal : goal;
  random_num_samples : Z;
  random_samples : list params;
  random_sampled_so_far : nat
}.

Section Strategies.

(** numpy's integer conversion and geometric spacing. *)
Variable int_dtype : GridFunctions.int_rounding.
Variable np_logspace : Q -> Q -> Z -> Q -> result (list Q).
Variable np_geomspace : Q -> Q -> Z -> result (list Q).

(** The surrogate optimizer behind [PySOTStrategy]: its state, "suggest
    one point" and "observe one score". *)
Variable optimizer : Type.
Variable suggest : optimizer -> params * optimizer.
Variable observe : optimizer -> params -> Q -> optimizer.

Record PySOTStrategy : Type := mkPySOT {
  pysot_goal : goal;
  pysot_optimizer : optimizer;
  pysot_sampled_so_far : nat;
  pysot_num_samples : Z
}.

Inductive strategy : Type :=
| Grid (g : GridStrategy)
| Random (r : RandomStrategy)
| PySOT (p : PySOTStrategy).

Definition strategy_goal (s : strategy) : goal :=
  match s with
  | Grid g => grid_goal g
  | Random r => random_goal r
  | PySOT p => pysot_goal p
  end.

(** ** Grid strategy construction *)

(** Modelled from the spec: [get_from_registry] lives outside this file;
    an unknown parameter type fails fast. The registry itself maps
    [int], [real] and [category]/[cat] to the three grid functions. *)
Definition grid_function (hp : hp_params) : result (list value) :=
  match hp with
  | HpInt range steps =>
      l <- GridFunctions.int_grid_function int_dtype range steps ;;
      Ok (map VInt l)
  | HpReal range steps space base =>
      l <- GridFunctions.float_grid_function np_logspace np_geomspace
             range steps space base ;;
      Ok (map VFloat l)
  | HpCategory values => Ok (GridFunctions.category_grid_function values)
  | HpOther _ => Raise ValueError
  end.

(** An entry of the search space belongs to a declared parameter: same
    name, and the list its grid function returns. *)
Definition grid_entry (kp : string * hp_params)
    (kl : string * list value) : Prop :=
  fst kp = fst kl /\ grid_function (snd kp) = Ok (snd kl).

(** [_create_search_space]: the loop over [self.parameters.items()]. *)
Fixpoint create_search_space_loop (items : list (string * hp_params))
    (search_space : Dict.dict (list value))
  : result (Dict.dict (list value)) :=
  match items with
  | [] => Ok search_space
  | (hp_name, hp) :: rest =>
      grid <- grid_function hp ;;
      create_search_space_loop rest (Dict.set hp_name grid search_space)
  end.

Definition create_search_space (parameters : Dict.dict hp_params)
  : result (Dict.dict (list value)) :=
  create_search_space_loop parameters [].

(** [sorted(self.search_space)] *)
Definition sorted_names (search_space : Dict.dict (list value))
  : list string :=
  PyList.sorted String.ltb (fun n : string => n) false
    (Dict.keys search_space).

(** [_get_grids] *)
Definition get_grids (search_space : Dict.dict (list value))
  : result (list params) :=
  let hp_params := sorted_names search_space in
  lists <- mapM (fun hp_name => Dict.lookup hp_name search_space)
             hp_params ;;
  Ok (map (fun prod => Dict.of_pairs (combine hp_params prod))
          (PyList.product lists)).

(** [GridStrategy.__init__] *)
Definition GridStrategy_init (g : goal) (parameters : Dict.dict hp_params)
  : result GridStrategy :=
  search_space <- create_search_space parameters ;;
  samples <- get_grids search_space ;;
  Ok (mkGrid g search_space samples 0).

(** The candidate lists in the order of the sorted names. *)
Definition lists_by_name (search_space : Dict.dict (list value))
  : list (list value) :=
  map (fun n => match Dict.get n search_space with
                | Some l => l
                | None => []
                end)
      (sorted_names search_space).

(** The state of a grid strategy after [i] calls of [sample()]. *)
Definition grid_after (st : GridStrategy) (i : nat) : GridStrategy :=
  mkGrid (grid_goal st) (grid_search_space st) (grid_samples st) i.

(** A valid combination for [search_space]: one candidate value for
    each parameter name, the names in sorted order. *)
Definition valid_combination (search_space : Dict.dict (list value))
    (p : params) : Prop :=
  Dict.keys p = sorted_names search_space
  /\ forall k l, Dict.get k search_space = Some l ->
                 exists v, Dict.get k p = Some v /\ In v l.

(** Names in strictly increasing order. *)
Definition increasing_names (names : list string) : Prop :=
  StronglySorted (fun a b => String.ltb a b = true) names.

(** ** The strategy interface *)

(** [sample()]: the new state and the outcome. *)
Definition sample (s : strategy) : strategy * result params :=
  match s with
  | Grid g =>
      if (List.length (grid_samples g) <=? grid_sampled_so_far g)%nat
      then (s, Raise IndexError)
      else match nth_error (grid_samples g) (grid_sampled_so_far g) with
           | Some x =>
               (Grid (mkGrid (grid_goal g) (grid_search_space g)
                        (grid_samples g) (grid_sampled_so_far g + 1)),
                Ok x)
           | None => (s, Raise IndexError)
           end
  | Random r =>
      if (List.length (random_samples r) <=? random_sampled_so_far r)%nat
      then (s, Raise IndexError)
      else match nth_error (random_samples r) (random_sampled_so_far r)
           with
           | Some x =>
               (Random (mkRandom (random_goal r) (random_num_samples r)
                          (random_samples r)
                          (random_sampled_so_far r + 1)),
                Ok x)
           | None => (s, Raise IndexError)
           end
  | PySOT p =>
      if (pysot_num_samples p <=? Z.of_nat (pysot_sampled_so_far p))%Z
      then (s, Raise IndexError)
      else let (x, o) := suggest (pysot_optimizer p) in
           (PySOT (mkPySOT (pysot_goal p) o (pysot_sampled_so_far p + 1)
                     (pysot_num_samples p)),
            Ok x)
  end.

(** [finished()] *)
Definition finished (s : strategy) : bool :=
  match s with
  | Grid g =>
      (List.length (grid_samples g) <=? grid_sampled_so_far g)%nat
  | Random r =>
      (List.length (random_samples r) <=? random_sampled_so_far r)%nat
  | PySOT p =>
      (pysot_num_samples p <=? Z.of_nat (pysot_sampled_so_far p))%Z
  end.

(** [update(sampled_parameters, metric_score)] *)
Definition update (s : strategy) (sampled_parameters : params)
    (metric_score : Q) : strategy :=
  match s with
  | Grid _ => s
  | Random _ => s
  | PySOT p =>
      PySOT (mkPySOT (pysot_goal p)
               (observe (pysot_optimizer p) sampled_parameters
                  metric_score)
               (pysot_sampled_so_far p) (pysot_num_samples p))
  end.

(** [update_batch(parameters_metric_tuples)] *)
Definition update_batch (s : strategy)
    (parameters_metric_tuples : list (params * Q)) : strategy :=
  fold_left (fun s pm => update s (fst pm) (snd pm))
    parameters_metric_tuples s.

(** The loop of [sample_batch]: [n] iterations are left and [samples]
    holds what has been appended so far. An [IndexError] of [sample()]
    is re-raised when [samples] is empty and swallowed otherwise, in
    which case the loop goes on with the next iteration. *)
Fixpoint sample_batch_loop (n : nat) (s : strategy) (samples : list params)
  : strategy * result (list params) :=
  match n with
  | O => (s, Ok samples)
  | S n' =>
      match sample s with
      | (s', Ok x) => sample_batch_loop n' s' (samples ++ [x])
      | (s', Raise IndexError) =>
          match samples with
          | [] => (s', Raise IndexError)
          | _ :: _ => sample_batch_loop n' s' samples
          end
      | (s', Raise e) => (s', Raise e)
      end
  end.

(** [sample_batch(batch_size=1)] *)
Definition sample_batch (batch_size : Z) (s : strategy)
  : strategy * result (list params) :=
  sample_batch_loop (Z.to_nat batch_size) s [].

Definition default_batch_size : Z := 1.

(** [k] calls of [sample()] in a row that all return. *)
Fixpoint take_samples (k : nat) (s : strategy)
  : option (list params * strategy) :=
  match k with
  | O => Some ([], s)
  | S k' =>
      match sample s with
      | (s', Ok x) =>
          match take_samples k' s' with
          | Some (xs, s'') => Some (x :: xs, s'')
          | None => None
          end
      | (_, Raise _) => None
      end
  end.

(** How many more calls of [sample()] will return. *)
Definition remaining (s : strategy) : nat :=
  match s with
  | Grid g => List.length (grid_samples g) - grid_sampled_so_far g
  | Random r => List.length (random_samples r) - random_sampled_so_far r
  | PySOT p =>
      Z.to_nat (pysot_num_samples p - Z.of_nat (pysot_sampled_so_far p))
  end.

End Strategies.

End Strategy.

(* ------------------------------------------------------------------ *)
(** * Parameter substitution *)

Module Substitution.

Import Config.
Open Scope string_scope.

(** [obj[key]] for a string key *)
Definition get_item (obj : value) (key : string) : result value :=
  match obj with
  | VDict d => Dict.lookup key d
  | _ => Raise TypeError
  end.

(** [obj[key] = v] for a string key *)
Definition set_item (obj : value) (key : string) (v : value) : result value :=
  match obj with
  | VDict d => Ok (VDict (Dict.set key v d))
  | _ => Raise TypeError
  end.

(** [for sub_key, sub_value in value.items():
       model_dict[key][sub_key] = sub_value] *)
Fixpoint merge_sub (model_dict : value) (key : string)
    (items : list (string * value)) : result value :=
  match items with
  | [] => Ok model_dict
  | (sub_key, sub_value) :: rest =>
      inner <- get_item model_dict key ;;
      inner' <- set_item inner sub_key sub_value ;;
      model_dict' <- set_item model_dict key inner' ;;
      merge_sub model_dict' key rest
  end.

(** [for key, value in params.items(): ...] *)
Fixpoint set_values_loop (model_dict : value)
    (items : list (string * value)) : result value :=
  match items with
  | [] => Ok model_dict
  | (key, v) :: rest =>
      model_dict' <-
        match v with
        | VDict sub => merge_sub model_dict key sub
        | _ => set_item model_dict key v
        end ;;
      set_values_loop model_dict' rest
  end.

(** [set_values(model_dict, name, parameters_dict)]; the result is the
    content of [model_dict] after the in-place updates. A [name] that is
    not a string is never a key of [parameters_dict]; a list or a dict
    cannot even be hashed. *)
Definition set_values (model_dict : value) (name : value)
    (parameters_dict : Dict.dict value) : result value :=
  match name with
  | VStr n =>
      match Dict.get n parameters_dict with
      | None => Ok model_dict
      | Some (VDict params) => set_values_loop model_dict params
      | Some _ => Raise AttributeError
      end
  | VList _ | VDict _ => Raise TypeError
  | _ => Ok model_dict
  end.

(** The inner loop of [get_parameters_dict] over [name_list], starting
    at [curr_dict]. Walking into an entry that is not a dict fails at the
    next element: with [TypeError] on the final assignment, with
    [AttributeError] on a further [.get]. *)
Fixpoint insert_path (name_list : list string) (v : value)
    (curr_dict : Dict.dict value) : result (Dict.dict value) :=
  match name_list with
  | [] => Ok curr_dict
  | [name_elem] => Ok (Dict.set name_elem v curr_dict)
  | name_elem :: ((_ :: rest') as rest) =>
      let name_dict := match Dict.get name_elem curr_dict with
                       | Some x => x
                       | None => VDict []
                       end in
      match name_dict with
      | VDict d =>
          d' <- insert_path rest v d ;;
          Ok (Dict.set name_elem (VDict d') curr_dict)
      | _ => match rest' with
             | [] => Raise TypeError
             | _ :: _ => Raise AttributeError
             end
      end
  end.

Fixpoint get_parameters_dict_loop (items : list (string * value))
    (parameters_dict : Dict.dict value) : result (Dict.dict value) :=
  match items with
  | [] => Ok parameters_dict
  | (name, v) :: rest =>
      d <- insert_path (PyStr.split_on "." name) v parameters_dict ;;
      get_parameters_dict_loop rest d
  end.

(** [get_parameters_dict(parameters)] *)
Definition get_parameters_dict (parameters : params)
  : result (Dict.dict value) :=
  get_parameters_dict_loop parameters [].

(** [for feature in features: set_values(feature, feature["name"], ...)] *)
Definition set_feature_values (parameters_dict : Dict.dict value)
    (feature : value) : result value :=
  name <- get_item feature "name" ;;
  set_values feature name parameters_dict.

Definition set_features (parameters_dict : Dict.dict value)
    (features : value) : result value :=
  match features with
  | VList fs => fs' <- mapM (set_feature_values parameters_dict) fs ;;
                Ok (VList fs')
  | VDict [] => Ok features
  | VStr EmptyString => Ok features
  | _ => Raise TypeError
  end.

(** [set_values(model_definition[section], section, parameters_dict)] *)
Definition set_section (parameters_dict : Dict.dict value)
    (section : string) (model_definition : value) : result value :=
  sec <- get_item model_definition section ;;
  sec' <- set_values sec (VStr section) parameters_dict ;;
  set_item model_definition section sec'.

Definition set_feature_list (parameters_dict : Dict.dict value)
    (section : string) (model_definition : value) : result value :=
  features <- get_item model_definition section ;;
  features' <- set_features parameters_dict features ;;
  set_item model_definition section features'.

(** [substitute_parameters(model_definition, parameters)]: the returned
    object is [model_definition] itself after the in-place updates. *)
Definition substitute_parameters (model_definition : value)
    (parameters : params) : result value :=
  parameters_dict <- get_parameters_dict parameters ;;
  md1 <- set_feature_list parameters_dict "input_features"
           model_definition ;;
  md2 <- set_feature_list parameters_dict "output_features" md1 ;;
  md3 <- set_section parameters_dict "combiner" md2 ;;
  md4 <- set_section parameters_dict "training" md3 ;;
  set_section parameters_dict "preprocessing" md4.

(** A feature of a model definition whose name is not [section]. *)
Definition feature_not_named (section : string) (f : value) : Prop :=
  exists d n, f = VDict d /\ Dict.get "name" d = Some (VStr n)
              /\ n <> section.

(** A model definition with all five sections that
    [substitute_parameters] reads, whose training section is the dict
    [training], and none of whose features is called "training". *)
Definition complete_definition (md training : Dict.dict value) : Prop :=
  (exists fs, Dict.get "input_features" md = Some (VList fs)
              /\ Forall (feature_not_named "training") fs)
  /\ (exists fs, Dict.get "output_features" md = Some (VList fs)
                 /\ Forall (feature_not_named "training") fs)
  /\ (exists c, Dict.get "combiner" md = Some c)
  /\ Dict.get "training" md = Some (VDict training)
  /\ (exists p, Dict.get "preprocessing" md = Some p).

(** The mapping of the example: batch size 64 for the training
    section. *)
Definition batch_size_64 : params := [("training.batch_size", VInt 64)].

(** Its nested form, as [get_parameters_dict] builds it. *)
Definition pd64 : Dict.dict value :=
  [("training", VDict [("batch_size", VInt 64)])].

End Substitution.

(* ------------------------------------------------------------------ *)
(** * Free device memory *)

Module GpuMemory.

Open Scope string_scope.

Definition newline : ascii := ascii_of_nat 10.

(** [lambda x: x.decode('ascii').split('\n')[:-1]] *)
Definition output_to_list (x : string) : result (list string) :=
  s <- PyStr.decode_ascii x ;;
  Ok (removelast (PyStr.split_on newline s)).

(** [int(x.split()[0])] *)
Definition parse_line (x : string) : result Z :=
  tok <- PyList.index (PyStr.split_ws x) 0 ;;
  PyStr.py_int tok.

(** The body of the [try] block: the value assigned to
    [memory_free_values], or the exception that interrupts it.
    [check_output] is what [sp.check_output(COMMAND.split())] does:
    it returns the bytes the tool printed or raises. *)
Definition try_block (check_output : result string) : result (list Z) :=
  out <- check_output ;;
  lines <- output_to_list out ;;
  let memory_free_info := tl lines in
  mapM parse_line memory_free_info.

(** [get_available_gpu_memory()]: the exceptions whose message the
    handler printed, and how the call ends.
    The local [memory_free_values] is bound only when the [try] block
    completes; every exception is caught by the handler, which prints it
    after a fixed text; the final [return] then reads the local, which
    fails with [UnboundLocalError] when it was never bound. *)
Definition get_available_gpu_memory (check_output : result string)
  : list exn * result (list Z) :=
  let '(printed, memory_free_values) :=
    match try_block check_output with
    | Ok vals => ([], Some vals)
    | Raise e => ([e], None)
    end in
  (printed,
   match memory_free_values with
   | Some vals => Ok vals
   | None => Raise UnboundLocalError
   end).

End GpuMemory.

(* ------------------------------------------------------------------ *)
(** * Executors *)

Module Executor.

Import Config Strategy.

(** Evaluation statistics: output feature, then metric, then score. *)
Definition eval_stats : Type := Dict.dict (Dict.dict Q).

(** The [gpus] argument of [execute]: an [int] or a [str]. *)
Inductive gpus_arg : Type :=
| GpusInt (n : Z)
| GpusStr (s : string).

(** A GpuSlot, the [gpu_id_meta] dict that travels through the queue. *)
Record gpu_id_meta : Type := mkSlot {
  gpu_id : string;
  gpu_memory_limit : option Q
}.

(** An entry of [gpu_ids_meta]. *)
Record gpu_meta : Type := mkMeta {
  meta_gpu_memory_limit : option Q;
  meta_process_per_gpu : Z
}.

(** Class attributes of [ParallelExecutor]. *)
Definition default_num_workers : Z := 2.
Definition default_epsilon : Q := 1 # 100.
Definition epsilon_memory : Q := 100.
Definition TF_REQUIRED_MEMORY_PER_WORKER : Q := 100.

(** ** Device memory partition (lines 550-622 of the source) *)

(** [fraction = (num_gpus / self.num_workers) - self.epsilon] *)
Definition fraction (num_gpus num_workers : Z) (epsilon : Q) : Q :=
  (inject_Z num_gpus / inject_Z num_workers - epsilon)%Q.

(** The value of [new_gpu_memory_limit] at the end of one iteration of
    the loop over [gpu_ids]. *)
Definition new_gpu_memory_limit (frac : Q) (num_workers : Z)
    (gpu_memory_limit : option Q) (available_gpu_memory : Z) : Q :=
  let avail := inject_Z available_gpu_memory in
  let required_gpu_memory := (frac * avail)%Q in
  match gpu_memory_limit with
  | None =>
      (required_gpu_memory
       - TF_REQUIRED_MEMORY_PER_WORKER * inject_Z num_workers)%Q
  | Some given =>
      let limit1 :=
        if Qltb avail given then (avail - epsilon_memory)%Q else given in
      if Qltb required_gpu_memory limit1 then
        if Qltb ((1 # 2) * avail)%Q required_gpu_memory then
          if negb (Qeq_bool avail limit1)
          then (avail - epsilon_memory)%Q
          else limit1
        else required_gpu_memory
      else limit1
  end.

(** [int(available_gpu_memory / new_gpu_memory_limit)] *)
Definition process_per_gpu (available_gpu_memory : Z) (limit : Q)
  : result Z :=
  if Qeq_bool limit 0 then Raise ZeroDivisionError
  else Ok (Qtrunc (inject_Z available_gpu_memory / limit)%Q).

(** One iteration of the loop taken when [num_gpus < num_workers]. *)
Definition shared_gpu_meta (frac : Q) (num_workers : Z)
    (gpu_memory_limit : option Q) (available_gpu_memory_list : list Z)
    (gpu_id : string) : result gpu_meta :=
  idx <- PyStr.py_int gpu_id ;;
  available_gpu_memory <- PyList.index available_gpu_memory_list idx ;;
  let limit := new_gpu_memory_limit frac num_workers gpu_memory_limit
                 available_gpu_memory in
  ppg <- process_per_gpu available_gpu_memory limit ;;
  Ok (mkMeta (Some limit) ppg).

Fixpoint gpu_ids_meta_loop (meta_of : string -> result gpu_meta)
    (gpu_ids : list string) (gpu_ids_meta : Dict.dict gpu_meta)
  : result (Dict.dict gpu_meta) :=
  match gpu_ids with
  | [] => Ok gpu_ids_meta
  | gpu_id :: rest =>
      m <- meta_of gpu_id ;;
      gpu_ids_meta_loop meta_of rest (Dict.set gpu_id m gpu_ids_meta)
  end.

(** [gpu_ids_meta] after the [if num_gpus < self.num_workers: ... else:
    ...] statement. *)
Definition build_gpu_ids_meta (num_workers : Z) (epsilon : Q)
    (gpu_memory_limit : option Q) (available_gpu_memory_list : list Z)
    (gpu_ids : list string) : result (Dict.dict gpu_meta) :=
  let num_gpus := Z.of_nat (List.length gpu_ids) in
  if (num_gpus <? num_workers)%Z then
    let frac := fraction num_gpus num_workers epsilon in
    gpu_ids_meta_loop
      (shared_gpu_meta frac num_workers gpu_memory_limit
         available_gpu_memory_list)
      gpu_ids []
  else
    gpu_ids_meta_loop (fun _ => Ok (mkMeta gpu_memory_limit 1)) gpu_ids [].

(** The loop that fills the queue; it also rebinds [gpu_memory_limit]. *)
Fixpoint fill_queue (gpu_ids_meta : Dict.dict gpu_meta)
    (gpu_ids : list string) (queue : list gpu_id_meta)
    (gpu_memory_limit : option Q)
  : result (list gpu_id_meta * option Q) :=
  match gpu_ids with
  | [] => Ok (queue, gpu_memory_limit)
  | gpu_id :: rest =>
      m <- Dict.lookup gpu_id gpu_ids_meta ;;
      let limit := meta_gpu_memory_limit m in
      fill_queue gpu_ids_meta rest
        (queue ++ repeat (mkSlot gpu_id limit)
                    (Z.to_nat (meta_process_per_gpu m)))
        limit
  end.

(** [str(gpus)] *)
Definition str_of_int (n : Z) : string := NilZero.string_of_int (Z.to_int n).

(** [','.join(available_gpus)] *)
Definition join_comma (l : list string) : string := String.concat ","%string l.

Record gpu_setup : Type := mkSetup {
  setup_gpus : option string;
  setup_queue : option (list gpu_id_meta);
  setup_gpu_memory_limit : option Q
}.

(** Lines 523-633 of [ParallelExecutor.execute]: the device list, the
    memory partition and the queue. [available_gpus] is what
    [get_available_gpus()] returns and [check_output] what the device
    tool does when asked. *)
Definition setup_gpus_and_queue (num_workers : Z) (epsilon : Q)
    (available_gpus : list string) (check_output : result string)
    (gpus : option gpus_arg) (gpu_memory_limit : option Q)
  : result gpu_setup :=
  let gpus1 :=
    match gpus with
    | None => match available_gpus with
              | [] => None
              | _ :: _ => Some (join_comma available_gpus)
              end
    | Some (GpusInt n) => Some (str_of_int n)
    | Some (GpusStr s) => Some s
    end in
  match gpus1 with
  | None => Ok (mkSetup None None gpu_memory_limit)
  | Some g =>
      let g := PyStr.strip g in
      let gpu_ids := PyStr.split_on "," g in
      available_gpu_memory_list <-
        snd (GpuMemory.get_available_gpu_memory check_output) ;;
      gpu_ids_meta <- build_gpu_ids_meta num_workers epsilon
                        gpu_memory_limit available_gpu_memory_list
                        gpu_ids ;;
      ql <- fill_queue gpu_ids_meta gpu_ids [] gpu_memory_limit ;;
      Ok (mkSetup (Some g) (Some (fst ql)) (snd ql))
  end.

(** ** Worker pools *)

Section Pool.
Variables (W A R : Type).

(** A worker function reads and writes the shared state [W]; [None]
    means that it blocks for ever. *)
Variable worker : W -> A -> option (W * result R).

(** [pool.map(worker, items)] with the workers taking the items one
    after the other: every item is run, the call returns when all are
    done, and the first failure, if any, is raised in the caller. *)
Fixpoint run_all (w : W) (items : list A)
  : option (W * list (result R)) :=
  match items with
  | [] => Some (w, [])
  | x :: rest =>
      match worker w x with
      | None => None
      | Some (w1, o) =>
          match run_all w1 rest with
          | None => None
          | Some (w2, os) => Some (w2, o :: os)
          end
      end
  end.

Definition pool_map (w : W) (items : list A)
  : option (W * result (list R)) :=
  match run_all w items with
  | None => None
  | Some (w', outs) => Some (w', mapM (fun o => o) outs)
  end.
End Pool.

(** ** The slot queue under interleaved workers *)

Section SlotPool.
Variables (slot trial outcome : Type).

(** What the body of the [try] block yields for a trial on a slot:
    in [outcome], a result or an exception. *)
Variable try_body : slot -> trial -> outcome.

Inductive worker_state : Type :=
| Waiting (t : trial)
| Holding (s : slot) (t : trial)
| Finished (o : outcome).

Record pool_state : Type := mkPool {
  pool_queue : list slot;
  pool_workers : list worker_state
}.

(** [self.queue.get()] by one waiting call and the [finally:
    self.queue.put(gpu_id_meta)] that ends a call, in any order across
    the worker processes. *)
Inductive pool_step : pool_state -> pool_state -> Prop :=
| step_get : forall s q ws1 t ws2,
    pool_step (mkPool (s :: q) (ws1 ++ Waiting t :: ws2))
              (mkPool q (ws1 ++ Holding s t :: ws2))
| step_put : forall s q ws1 t ws2,
    pool_step (mkPool q (ws1 ++ Holding s t :: ws2))
              (mkPool (q ++ [s])
                 (ws1 ++ Finished (try_body s t) :: ws2)).

Inductive pool_steps : pool_state -> pool_state -> Prop :=
| steps_refl : forall st, pool_steps st st
| steps_then : forall st1 st2 st3,
    pool_steps st1 st2 -> pool_step st2 st3 -> pool_steps st1 st3.

Definition held_slot (w : worker_state) : list slot :=
  match w with
  | Holding s _ => [s]
  | _ => []
  end.

Definition held_slots (ws : list worker_state) : list slot :=
  flat_map held_slot ws.

Definition is_finished (w : worker_state) : bool :=
  match w with Finished _ => true | _ => false end.

Definition all_finished (st : pool_state) : bool :=
  forallb is_finished (pool_workers st).

Definition initial_pool (q : list slot) (trials : list trial)
  : pool_state :=
  mkPool q (map Waiting trials).
End SlotPool.

Arguments Waiting {slot trial outcome} t.
Arguments Holding {slot trial outcome} s t.
Arguments Finished {slot trial outcome} o.
Arguments mkPool {slot trial outcome} pool_queue pool_workers.
Arguments pool_queue {slot trial outcome} p.
Arguments pool_workers {slot trial outcome} p.
Arguments held_slot {slot trial outcome} w.
Arguments held_slots {slot trial outcome} ws.
Arguments is_finished {slot trial outcome} w.
Arguments all_finished {slot trial outcome} st.
Arguments initial_pool {slot trial outcome} q trials.

(** ** The three executors *)

Section Executors.

Variable optimizer : Type.
Variable suggest : optimizer -> params * optimizer.
Variable observe : optimizer -> params -> Q -> optimizer.

(** The training statistics are opaque. *)
Variable training_stats : Type.

(** The external train/evaluate collaborator behind
    [train_and_eval_on_split], as a function of the arguments that the
    executors vary: the model definition, [gpus] and
    [gpu_memory_limit]. *)
Variable train_and_eval_on_split :
  value -> option gpus_arg -> option Q ->
  result (training_stats * eval_stats).

Abbreviation strategy := (Strategy.strategy optimizer).

(** The fields of a [HyperoptExecutor]; the strategy is threaded
    separately because it changes. *)
Variable output_feature : string.
Variable metric : string.

Record TrialResult : Type := mkResult {
  parameters : params;
  metric_score : Q;
  res_training_stats : training_stats;
  res_eval_stats : eval_stats
}.

(** [get_metric_score(eval_stats)] *)
Definition get_metric_score (es : eval_stats) : result Q :=
  per_output <- Dict.lookup output_feature es ;;
  Dict.lookup metric per_output.

(** [sort_hyperopt_results(hyperopt_results)] *)
Definition sort_hyperopt_results (g : goal)
    (hyperopt_results : list TrialResult) : list TrialResult :=
  PyList.sorted Qltb metric_score (goal_eqb g MAXIMIZE) hyperopt_results.




(** What a run does that the properties talk about. *)
Inductive event : Type :=
| EvSampleBatch (batch_size : Z) (sampled : list params)
| EvTrain (trial : params)
| EvPoolMap (dispatched : list params)
| EvUpdateBatch (observations : list (params * Q)).

Record run : Type := mkRun {
  run_strategy : strategy;
  run_trace : list event;
  run_result : result (list TrialResult)
}.

Definition observations (rs : list TrialResult) : list (params * Q) :=
  map (fun r => (parameters r, metric_score r)) rs.

(** *** Serial *)

(** The body of [for parameters in sampled_parameters] *)
Definition serial_trial (model_definition : value)
    (gpus : option gpus_arg) (limit : option Q) (p : params)
  : result TrialResult :=
  modified_model_definition <-
    Substitution.substitute_parameters model_definition p ;;
  stats <- train_and_eval_on_split modified_model_definition gpus limit ;;
  score <- get_metric_score (snd stats) ;;
  Ok (mkResult p score (fst stats) (snd stats)).

(** The [while not self.hyperopt_strategy.finished()] loop of
    [SerialExecutor.execute]; [None] when [fuel] iterations were not
    enough. *)
Fixpoint serial_loop (fuel : nat) (model_definition : value)
    (gpus : option gpus_arg) (limit : option Q)
    (s : strategy) (hyperopt_results : list TrialResult)
    (trace : list event) : option run :=
  match fuel with
  | O => None
  | S fuel' =>
      if finished s then
        Some (mkRun s trace
                (Ok (sort_hyperopt_results (strategy_goal s)
                       hyperopt_results)))
      else
        match sample_batch suggest default_batch_size s with
        | (s1, Raise e) => Some (mkRun s1 trace (Raise e))
        | (s1, Ok sampled) =>
            let trace1 :=
              trace ++ [EvSampleBatch default_batch_size sampled] in
            match mapM (serial_trial model_definition gpus limit) sampled
            with
            | Raise e => Some (mkRun s1 trace1 (Raise e))
            | Ok rs =>
                let s2 := update_batch observe s1 (observations rs) in
                serial_loop fuel' model_definition gpus limit s2
                  (hyperopt_results ++ rs)
                  (trace1 ++ map (fun p => EvTrain p) sampled
                          ++ [EvUpdateBatch (observations rs)])
            end
        end
  end.

Definition serial_execute (fuel : nat) (model_definition : value)
    (gpus : option gpus_arg) (limit : option Q) (s : strategy)
  : option run :=
  serial_loop fuel model_definition gpus limit s [] [].

(** *** Process-pool parallel *)

(** An element of [hyperopt_parameters]. *)
Record hyperopt_dict : Type := mkTrial {
  hd_parameters : params;
  hd_model_definition : value;
  hd_gpus : option gpus_arg;
  hd_gpu_memory_limit : option Q
}.

(** [_train_and_eval_model] *)
Definition train_and_eval_model (hd : hyperopt_dict)
  : result TrialResult :=
  stats <- train_and_eval_on_split (hd_model_definition hd) (hd_gpus hd)
             (hd_gpu_memory_limit hd) ;;
  score <- get_metric_score (snd stats) ;;
  Ok (mkResult (hd_parameters hd) score (fst stats) (snd stats)).

(** The [try] block of [_train_and_eval_model_gpu] and the [return]
    that follows it. *)
Definition gpu_try_body (slot : gpu_id_meta) (hd : hyperopt_dict)
  : result TrialResult :=
  stats <- train_and_eval_on_split (hd_model_definition hd)
             (Some (GpusStr (gpu_id slot))) (gpu_memory_limit slot) ;;
  score <- get_metric_score (snd stats) ;;
  Ok (mkResult (hd_parameters hd) score (fst stats) (snd stats)).

(** [_train_and_eval_model_gpu]: [self.queue.get()] waits for ever on
    an empty queue; otherwise the slot is put back in the [finally]
    clause, whatever the [try] block did. *)
Definition train_and_eval_model_gpu (queue : list gpu_id_meta)
    (hd : hyperopt_dict)
  : option (list gpu_id_meta * result TrialResult) :=
  match queue with
  | [] => None
  | slot :: queue' => Some (queue' ++ [slot], gpu_try_body slot hd)
  end.

(** The worker function chosen by [if gpus is not None]. *)
Definition parallel_worker (queue : option (list gpu_id_meta))
    (hd : hyperopt_dict)
  : option (option (list gpu_id_meta) * result TrialResult) :=
  match queue with
  | Some q =>
      match train_and_eval_model_gpu q hd with
      | Some (q', o) => Some (Some q', o)
      | None => None
      end
  | None => Some (None, train_and_eval_model hd)
  end.

(** The [for parameters in sampled_parameters] loop that appends to
    [hyperopt_parameters]. *)
Fixpoint append_trials (model_definition : value)
    (gpus : option gpus_arg) (limit : option Q)
    (sampled : list params) (hyperopt_parameters : list hyperopt_dict)
  : result (list hyperopt_dict) :=
  match sampled with
  | [] => Ok hyperopt_parameters
  | p :: rest =>
      modified_model_definition <-
        Substitution.substitute_parameters model_definition p ;;
      append_trials model_definition gpus limit rest
        (hyperopt_parameters
         ++ [mkTrial p modified_model_definition gpus limit])
  end.

(** The [while] loop of [ParallelExecutor.execute]. The list
    [hyperopt_parameters] is created once before the loop (line 521)
    and is an argument of the loop for that reason. *)
Fixpoint parallel_loop (fuel : nat) (model_definition : value)
    (gpus : option gpus_arg) (limit : option Q)
    (queue : option (list gpu_id_meta))
    (hyperopt_parameters : list hyperopt_dict)
    (s : strategy) (hyperopt_results : list TrialResult)
    (trace : list event) : option run :=
  match fuel with
  | O => None
  | S fuel' =>
      if finished s then
        Some (mkRun s trace
                (Ok (sort_hyperopt_results (strategy_goal s)
                       hyperopt_results)))
      else
        match sample_batch suggest default_batch_size s with
        | (s1, Raise e) => Some (mkRun s1 trace (Raise e))
        | (s1, Ok sampled) =>
            let trace1 :=
              trace ++ [EvSampleBatch default_batch_size sampled] in
            match append_trials model_definition gpus limit sampled
                    hyperopt_parameters with
            | Raise e => Some (mkRun s1 trace1 (Raise e))
            | Ok hyperopt_parameters1 =>
                let trace2 :=
                  trace1 ++ [EvPoolMap
                               (map hd_parameters hyperopt_parameters1)] in
                match pool_map parallel_worker queue hyperopt_parameters1
                with
                | None => None
                | Some (_, Raise e) => Some (mkRun s1 trace2 (Raise e))
                | Some (queue1, Ok batch_results) =>
                    let s2 := update_batch observe s1
                                (observations batch_results) in
                    parallel_loop fuel' model_definition gpus limit
                      queue1 hyperopt_parameters1 s2
                      (hyperopt_results ++ batch_results)
                      (trace2
                       ++ [EvUpdateBatch (observations batch_results)])
                end
            end
        end
  end.

(** [ParallelExecutor.execute] *)
Definition parallel_execute (fuel : nat) (num_workers : Z) (epsilon : Q)
    (available_gpus : list string) (check_output : result string)
    (model_definition : value) (gpus : option gpus_arg)
    (limit : option Q) (s : strategy) : option run :=
  match setup_gpus_and_queue num_workers epsilon available_gpus
          check_output gpus limit with
  | Raise e => Some (mkRun s [] (Raise e))
  | Ok setup =>
      parallel_loop fuel model_definition
        (option_map GpusStr (setup_gpus setup))
        (setup_gpu_memory_limit setup) (setup_queue setup) [] s [] []
  end.

(** *** Distributed pool *)

(** [train_func] applied to one substituted model definition. *)
Definition fiber_worker (gpus : option gpus_arg) (limit : option Q)
    (_ : unit) (modified_model_definition : value)
  : option (unit * result (training_stats * eval_stats)) :=
  Some (tt, train_and_eval_on_split modified_model_definition gpus limit).

(** The body of [for stats, parameters in zip(stats_batch,
    sampled_parameters)] *)
Definition fiber_result (sp : (training_stats * eval_stats) * params)
  : result TrialResult :=
  score <- get_metric_score (snd (fst sp)) ;;
  Ok (mkResult (snd sp) score (fst (fst sp)) (snd (fst sp))).

(** The [while] loop of [FiberExecutor.execute]. *)
Fixpoint fiber_loop (fuel : nat) (model_definition : value)
    (gpus : option gpus_arg) (limit : option Q)
    (s : strategy) (hyperopt_results : list TrialResult)
    (trace : list event) : option run :=
  match fuel with
  | O => None
  | S fuel' =>
      if finished s then
        Some (mkRun s trace
                (Ok (sort_hyperopt_results (strategy_goal s)
                       hyperopt_results)))
      else
        match sample_batch suggest default_batch_size s with
        | (s1, Raise e) => Some (mkRun s1 trace (Raise e))
        | (s1, Ok sampled) =>
            let trace1 :=
              trace ++ [EvSampleBatch default_batch_size sampled] in
            match mapM (Substitution.substitute_parameters
                          model_definition) sampled with
            | Raise e => Some (mkRun s1 trace1 (Raise e))
            | Ok definitions =>
                let trace2 := trace1 ++ [EvPoolMap sampled] in
                match pool_map (fiber_worker gpus limit) tt definitions
                with
                | None => None
                | Some (_, Raise e) => Some (mkRun s1 trace2 (Raise e))
                | Some (_, Ok stats_batch) =>
                    match mapM fiber_result (combine stats_batch sampled)
                    with
                    | Raise e => Some (mkRun s1 trace2 (Raise e))
                    | Ok rs =>
                        let s2 := update_batch observe s1
                                    (observations rs) in
                        fiber_loop fuel' model_definition gpus limit s2
                          (hyperopt_results ++ rs)
                          (trace2 ++ [EvUpdateBatch (observations rs)])
                    end
                end
            end
        end
  end.

Definition fiber_execute (fuel : nat) (model_definition : value)
    (gpus : option gpus_arg) (limit : option Q) (s : strategy)
  : option run :=
  fiber_loop fuel model_definition gpus limit s [] [].

(** *** Reading a trace *)

Definition pool_map_calls (trace : list event) : list (list params) :=
  flat_map (fun e => match e with EvPoolMap l => [l] | _ => [] end) trace.

Definition sampled_batches (trace : list event) : list (list params) :=
  flat_map (fun e => match e with EvSampleBatch _ l => [l] | _ => [] end)
    trace.

Definition update_batches (trace : list event)
  : list (list (params * Q)) :=
  flat_map (fun e => match e with EvUpdateBatch l => [l] | _ => [] end)
    trace.

End Executors.

(** Successive [pool.map] calls each of which dispatches again everything
    the call before it dispatched ([prev]), followed by what is new. *)
Fixpoint redispatching (prev : list params) (calls : list (list params))
  : Prop :=
  match calls with
  | [] => True
  | c :: rest => (exists sampled, c = prev ++ sampled)
                 /\ redispatching c rest
  end.

End Executor.

(* ------------------------------------------------------------------ *)
(** * A small search, used to exercise the definitions *)

Module Scenario.

Import Config Strategy Executor.
Open Scope string_scope.

Definition training_section : Dict.dict value :=
  [("batch_size", VInt 32); ("epochs", VInt 10)].

Definition definition_entries : Dict.dict value :=
  [("input_features",
    VList [VDict [("name", VStr "review"); ("type", VStr "text")]]);
   ("output_features",
    VList [VDict [("name", VStr "label"); ("type", VStr "category")]]);
   ("combiner", VDict [("type", VStr "concat"); ("num_fc_layers", VInt 1)]);
   ("training", VDict training_section);
   ("preprocessing", VDict [])].

Definition model_definition : value := VDict definition_entries.

Definition p64 : params := [("training.batch_size", VInt 64)].
Definition p128 : params := [("training.batch_size", VInt 128)].

(** One categorical parameter with two candidate values. *)
Definition one_parameter : Dict.dict hp_params :=
  [("training.batch_size", HpCategory [VInt 64; VInt 128])].

(** Two parameters, declared in non-alphabetical order. *)
Definition two_parameters : Dict.dict hp_params :=
  [("training.batch_size", HpCategory [VInt 64; VInt 128]);
   ("combiner.num_fc_layers", HpInt (1, 3)%Z None)].

(** Stand-ins for the collaborators outside the file. *)
Definition suggest (o : unit) : params * unit := ([], tt).
Definition observe (o : unit) (p : params) (score : Q) : unit := tt.
Definition np_logspace (low high : Q) (num : Z) (base : Q)
  : result (list Q) := Raise ValueError.
Definition np_geomspace (low high : Q) (num : Z) : result (list Q) :=
  Raise ValueError.

Definition batch_size_of (md : value) : Z :=
  match md with
  | VDict d =>
      match Dict.get "training" d with
      | Some (VDict t) =>
          match Dict.get "batch_size" t with
          | Some (VInt z) => z
          | _ => 0
          end
      | _ => 0
      end
  | _ => 0
  end.

(** A trial whose loss is the batch size it was given. *)
Definition train (md : value) (gpus : option gpus_arg) (limit : option Q)
  : result (unit * eval_stats) :=
  Ok (tt, [("combined", [("loss", inject_Z (batch_size_of md))])]).

(** The same, except that training fails for batch size 128. *)
Definition flaky_train (md : value) (gpus : option gpus_arg)
    (limit : option Q) : result (unit * eval_stats) :=
  if (batch_size_of md =? 128)%Z then Raise TrialError
  else train md gpus limit.

(** The grid strategy built from [one_parameter]. *)
Definition grid : GridStrategy :=
  mkGrid MINIMIZE [("training.batch_size", [VInt 64; VInt 128])]
    [p64; p128] 0.

(** A random strategy with exactly two samples left. *)
Definition random_two : RandomStrategy :=
  mkRandom MINIMIZE 2 [p64; p128] 0.

Definition slots : list gpu_id_meta :=
  [mkSlot "0" (Some 5000%Q); mkSlot "1" (Some 5000%Q)].

Definition trial (p : params) (batch_size : Z) : hyperopt_dict :=
  mkTrial p
    (VDict (Dict.set "training"
              (VDict (Dict.set "batch_size" (VInt batch_size)
                        training_section))
              definition_entries))
    (Some (GpusStr "0,1")) None.

Definition trials : list hyperopt_dict :=
  [trial p64 64; trial p128 128; trial p64 64].

(** The executors on this search: no devices, enough fuel. *)
Definition serial_run : option (run unit unit) :=
  serial_execute suggest observe train "combined" "loss" 3
    model_definition None None (Grid unit grid).

Definition parallel_run : option (run unit unit) :=
  parallel_execute suggest observe train "combined" "loss" 3
    default_num_workers default_epsilon [] (Raise FileNotFoundError)
    model_definition None None (Grid unit grid).

Definition fiber_run : option (run unit unit) :=
  fiber_execute suggest observe train "combined" "loss" 3
    model_definition None None (Grid unit grid).

Definition trace_of (r : option (run unit unit)) : list event :=
  match r with
  | Some r => run_trace r
  | None => []
  end.

Definition scores_of (r : option (run unit unit)) : list Q :=
  match r with
  | Some r => match run_result r with
              | Ok rs => map (@metric_score unit) rs
              | Raise _ => []
              end
  | None => []
  end.

End Scenario.

(* ------------------------------------------------------------------ *)
(** * Notions used to state further properties *)

Module Notions.

Import Config Strategy Executor.

Section Strategies.
Variable optimizer : Type.

(** The strategies whose [update] does nothing. *)
Definition stateless (s : strategy optimizer) : bool :=
  match s with
  | Grid _ _ | Random _ _ => true
  | PySOT _ => false
  end.

(** The samples a grid or random strategy has not returned yet. *)
Definition pending_samples (s : strategy optimizer) : list params :=
  match s with
  | Grid _ g => skipn (grid_sampled_so_far g) (grid_samples g)
  | Random _ r => skipn (random_sampled_so_far r) (random_samples r)
  | PySOT _ => []
  end.
End Strategies.

(** The final strategy and the result of a run. *)
Definition outcome_of {optimizer training_stats : Type}
    (r : run optimizer training_stats)
  : strategy optimizer * result (list (TrialResult training_stats)) :=
  (run_strategy r, run_result r).

(** The configurations that a run trained one by one. *)
Definition trained_trials (trace : list event) : list params :=
  flat_map (fun e => match e with EvTrain p => [p] | _ => [] end) trace.

(** [d[n1][n2]...[nk]] in a nested dict, [None] when the path leaves the
    dicts. *)
Fixpoint lookup_path (names : list string) (d : Dict.dict value)
  : option value :=
  match names with
  | [] => None
  | [n] => Dict.get n d
  | n :: rest =>
      match Dict.get n d with
      | Some (VDict d') => lookup_path rest d'
      | _ => None
      end
  end.

(** [inner] after [inner[k] = v] for each [(k, v)] of [items] in turn. *)
Definition assign_all (items : list (string * value))
    (inner : Dict.dict value) : Dict.dict value :=
  fold_left (fun d kv => Dict.set (fst kv) (snd kv) d) items inner.

(** How often the character [c] occurs in [s]. *)
Fixpoint count_char (c : ascii) (s : string) : nat :=
  match s with
  | EmptyString => 0
  | String x rest =>
      (if Ascii.eqb x c then 1 else 0) + count_char c rest
  end.

(** What the results accumulate to when every batch is run together with
    all earlier ones: [earlier] are the results of the trials dispatched
    so far and [rs] those of the trials still to come. *)
Fixpoint cumulative {R} (earlier rs : list R) : list R :=
  match rs with
  | [] => []
  | r :: rest => (earlier ++ [r]) ++ cumulative (earlier ++ [r]) rest
  end.

(** The text made of [lines], each followed by a newline, and then
    [rest]. *)
Fixpoint unlines (lines : list string) (rest : string) : string :=
  match lines with
  | [] => rest
  | l :: ls => (l ++ String GpuMemory.newline (unlines ls rest))%string
  end.

(** The [name.split(".")] of a sampled parameter. *)
Definition name_path (kv : string * value) : list string :=
  PyStr.split_on "." (fst kv).

(** Two name lists part ways at some position that both have: neither
    is a prefix of the other. *)
Fixpoint diverge (a b : list string) : bool :=
  match a, b with
  | x :: a', y :: b' => if String.eqb x y then diverge a' b' else true
  | _, _ => false
  end.

(** The first components of the names of a parameter mapping: the
    sections and features that it addresses. *)
Definition heads (parameters : params) : list string :=
  map (fun kv => hd EmptyString (name_path kv)) parameters.

(** A feature whose name is a string that is not among [names]. *)
Definition feature_outside (names : list string) (f : value) : Prop :=
  exists d n, f = VDict d /\ Dict.get "name"%string d = Some (VStr n)
              /\ ~ In n names.

(** [md[section]] is a list of such features. *)
Definition features_outside (names : list string)
    (md : Dict.dict value) (section : string) : Prop :=
  exists fs, Dict.get section md = Some (VList fs)
             /\ Forall (feature_outside names) fs.

(** A feature with a string for a name. *)
Definition named_feature (f : value) : Prop :=
  exists d n, f = VDict d /\ Dict.get "name"%string d = Some (VStr n).

(** The feature [f] with [f[key] = v] when its name is [name], and as it
    is otherwise. *)
Definition set_in_feature (name key : string) (v : value) (f : value)
  : value :=
  match f with
  | VDict d =>
      match Dict.get "name"%string d with
      | Some (VStr n) =>
          if String.eqb n name then VDict (Dict.set key v d) else f
      | _ => f
      end
  | _ => f
  end.

(** The three sections that [substitute_parameters] updates by name. *)
Definition named_sections : list string :=
  ["combiner"; "training"; "preprocessing"]%string.


(** [params_for_join_space] in [RandomStrategy.__init__] and
    [PySOTStrategy.__init__]: the loop over the values of the copied
    parameters. The constants of [ludwig.constants] are not in this file
    and are kept abstract. *)
Section JoinSpace.
Variables TYPE CATEGORY INT REAL SPACE : string.

(** [v == s] for a string [s] *)
Definition equals_str (v : value) (s : string) : bool :=
  match v with
  | VStr t => String.eqb t s
  | _ => false
  end.

(** The body of the loop for one [param_values]. *)
Definition prepare_param_values (param_values : value) : result value :=
  t <- Substitution.get_item param_values TYPE ;;
  pv1 <- (if equals_str t CATEGORY
          then Substitution.set_item param_values TYPE (VStr "cat")
          else Ok param_values) ;;
  t1 <- Substitution.get_item pv1 TYPE ;;
  if equals_str t1 INT || equals_str t1 REAL then
    match pv1 with
    | VDict d =>
        if Dict.mem SPACE d then Ok pv1
        else Substitution.set_item pv1 SPACE (VStr "linear")
    | _ => Raise TypeError
    end
  else Ok pv1.

Fixpoint prepare_params (items : list (string * value))
  : result (Dict.dict value) :=
  match items with
  | [] => Ok []
  | (name, param_values) :: rest =>
      pv <- prepare_param_values param_values ;;
      rest' <- prepare_params rest ;;
      Ok ((name, pv) :: rest')
  end.

(** What the loop leaves behind for one parameter: a dict with a type
    that is not [CATEGORY] and, for the numeric types, a space. *)
Definition prepared (param_values : value) : Prop :=
  exists d t,
    param_values = VDict d
    /\ Dict.get TYPE d = Some t
    /\ (equals_str t CATEGORY = true -> CATEGORY = "cat"%string)
    /\ (equals_str t INT || equals_str t REAL = true
        -> Dict.mem SPACE d = true).
End JoinSpace.

End Notions.

(* ------------------------------------------------------------------ *)
(** * Further example data *)

Module Examples.

Import Config Strategy Executor Notions.
Open Scope string_scope.

(** What the device tool prints for two devices, and for one device
    that is nearly full. *)
Definition tool_output : string :=
  unlines ["memory.free [MiB]"; "11178 MiB"; "8000 MiB"] "".

Definition starved_output : string :=
  unlines ["memory.free [MiB]"; "150 MiB"] "".

(** A mapping with a misspelt section name, and one with two names. *)
Definition misspelt : params := [("trainning.batch_size", VInt 64)].

Definition two_names : params :=
  [("training.batch_size", VInt 64); ("combiner.num_fc_layers", VInt 2)].

(** A model definition whose training section holds a dict. *)
Definition optimizer_section : Dict.dict value :=
  [("batch_size", VInt 32);
   ("optimizer", VDict [("type", VStr "adam"); ("beta1", VFloat (9 # 10))])].

Definition optimizer_entries : Dict.dict value :=
  Dict.set "training" (VDict optimizer_section)
    Scenario.definition_entries.

(** Declared parameters as the random strategy receives them. *)
Definition declared : Dict.dict value :=
  [("training.learning_rate",
    VDict [("type", VStr "real"); ("low", VFloat (1 # 1000));
           ("high", VFloat (1 # 10))]);
   ("combiner.type",
    VDict [("type", VStr "category");
           ("values", VList [VStr "concat"; VStr "tabnet"])])].



End Examples.

(* ================================================================== *)
(** * Properties *)

Module GridFunctionsFacts.

Import GridFunctions.
Open Scope Q_scope.


Lemma set_last_map_seq (g : nat -> Q) (v : Q) (m : nat) :
  set_last (map g (seq 0 (S m))) v
  = map (fun i => if (i =? m)%nat then v else g i) (seq 0 (S m)).
Proof.
  unfold set_last.
  rewrite seq_S, !map_app. simpl.
  rewrite removelast_last, Nat.eqb_refl. f_equal.
  apply map_ext_in. intros i Hi. apply in_seq in Hi.
  destruct (Nat.eqb_spec i m); [lia | reflexivity].
Qed.

Lemma np_linspace_eq (start stop : Q) (num : Z) :
  np_linspace start stop num
  = map (linspace_at start stop num) (seq 0 (Z.to_nat num)).
Proof.
  unfold np_linspace, linspace_at.
  destruct (Z.ltb_spec 1 num) as [H|H]; simpl.
  - destruct (Z.to_nat num) as [|m] eqn:E; [lia|].
    rewrite set_last_map_seq. apply map_ext. intros i.
    replace (S m - 1)%nat with m by lia. reflexivity.
  - reflexivity.
Qed.

Lemma length_np_linspace (start stop : Q) (num : Z) :
  List.length (np_linspace start stop num) = Z.to_nat num.
Proof. rewrite np_linspace_eq, length_map, length_seq. reflexivity. Qed.



















End GridFunctionsFacts.

Module PyListFacts.

Import PyList.

Section SortedFacts.
Variables (A K : Type).
Variable lt : K -> K -> bool.
Variable key : A -> K.

(** [a <= b] on keys: [b] is not smaller than [a]. *)
Let le (x y : A) : Prop := lt (key y) (key x) = false.


Hypothesis lt_asym : forall a b, lt a b = true -> lt b a = false.
Hypothesis le_trans :
  forall a b c, lt b a = false -> lt c b = false -> lt c a = false.

Lemma insert_perm (x : A) (l : list A) :
  Permutation (insert lt key x l) (x :: l).
Proof.
  induction l as [|y l IH]; simpl; [reflexivity|].
  destruct (lt (key y) (key x)); [|reflexivity].
  rewrite IH. apply perm_swap.
Qed.

Lemma stable_sort_perm (l : list A) :
  Permutation (stable_sort lt key l) l.
Proof.
  induction l as [|x l IH]; simpl; [reflexivity|].
  rewrite insert_perm. constructor. exact IH.
Qed.

Lemma insert_hd_rel (y x : A) (l : list A) :
  le y x -> HdRel le y l -> HdRel le y (insert lt key x l).
Proof.
  intros Hyx Hl. destruct l as [|z l]; simpl.
  - constructor. exact Hyx.
  - inversion Hl; subst. destruct (lt (key z) (key x)); constructor; assumption.
Qed.

Lemma insert_sorted (x : A) (l : list A) :
  Sorted le l -> Sorted le (insert lt key x l).
Proof.
  induction l as [|y l IH]; intros Hs; simpl.
  - repeat constructor.
  - destruct (lt (key y) (key x)) eqn:E.
    + inversion Hs; subst. constructor; [apply IH; assumption|].
      apply insert_hd_rel; [|assumption].
      unfold le. apply lt_asym. exact E.
    + constructor; [exact Hs|]. constructor. exact E.
Qed.

Lemma stable_sort_sorted (l : list A) : Sorted le (stable_sort lt key l).
Proof.
  induction l as [|x l IH]; simpl; [constructor|].
  apply insert_sorted. exact IH.
Qed.

Lemma le_transitive : forall x y z, le x y -> le y z -> le x z.
Proof. unfold le. intros x y z Hxy Hyz. eapply le_trans; eassumption. Qed.

Lemma stable_sort_strongly_sorted (l : list A) :
  StronglySorted le (stable_sort lt key l).
Proof.
  apply Sorted_StronglySorted.
  - intros x y z. apply le_transitive.
  - apply stable_sort_sorted.
Qed.






(** [sorted] permutes its input. *)
Lemma sorted_perm (reverse : bool) (l : list A) :
  Permutation (sorted lt key reverse l) l.
Proof.
  unfold sorted. destruct reverse.
  - rewrite <- Permutation_rev, stable_sort_perm, <- Permutation_rev.
    reflexivity.
  - apply stable_sort_perm.
Qed.

(** Increasing keys without [reverse], decreasing keys with it. *)
Lemma sorted_increasing (l : list A) :
  StronglySorted le (sorted lt key false l).
Proof. apply stable_sort_strongly_sorted. Qed.






End SortedFacts.

End PyListFacts.

Module RankingFacts.

Import Config Strategy Executor.







Section Ranking.
Variable training_stats : Type.
Abbreviation TrialResult := (Executor.TrialResult training_stats).

End Ranking.

End RankingFacts.

Module DictFacts.

Section Facts.
Variable V : Type.
Abbreviation dict := (Dict.dict V).

Lemma get_set_same (k : string) (v : V) (d : dict) :
  Dict.get k (Dict.set k v d) = Some v.
Proof.
  induction d as [|[k' v'] d IH]; simpl.
  - rewrite String.eqb_refl. reflexivity.
  - destruct (String.eqb k k') eqn:E; simpl.
    + rewrite String.eqb_refl. reflexivity.
    + rewrite E. exact IH.
Qed.

Lemma get_set_other (k k' : string) (v : V) (d : dict) :
  k' <> k -> Dict.get k' (Dict.set k v d) = Dict.get k' d.
Proof.
  intros Hne. induction d as [|[k1 v1] d IH]; simpl.
  - apply String.eqb_neq in Hne. rewrite Hne. reflexivity.
  - destruct (String.eqb k k1) eqn:E; simpl.
    + apply String.eqb_eq in E. subst k1.
      apply String.eqb_neq in Hne. rewrite Hne. reflexivity.
    + destruct (String.eqb k' k1); [reflexivity | exact IH].
Qed.

(** Assigning the value a key already has changes nothing. *)
Lemma set_same (k : string) (v : V) (d : dict) :
  Dict.get k d = Some v -> Dict.set k v d = d.
Proof.
  induction d as [|[k1 v1] d IH]; simpl; [discriminate|].
  destruct (String.eqb k k1) eqn:E.
  - apply String.eqb_eq in E. subst k1. intros H. inversion H. reflexivity.
  - intros H. rewrite (IH H). reflexivity.
Qed.

Lemma set_set (k : string) (v v' : V) (d : dict) :
  Dict.set k v (Dict.set k v' d) = Dict.set k v d.
Proof.
  induction d as [|[k1 v1] d IH]; simpl.
  - rewrite String.eqb_refl. reflexivity.
  - destruct (String.eqb k k1) eqn:E; simpl.
    + rewrite String.eqb_refl. reflexivity.
    + rewrite E, IH. reflexivity.
Qed.

Lemma get_none_iff (k : string) (d : dict) :
  Dict.get k d = None <-> ~ In k (Dict.keys d).
Proof.
  induction d as [|[k1 v1] d IH]; simpl.
  - split; [intros _ []| reflexivity].
  - destruct (String.eqb k k1) eqn:E.
    + apply String.eqb_eq in E. subst. split; [discriminate|].
      intros H. exfalso. apply H. left. reflexivity.
    + apply String.eqb_neq in E. rewrite IH. split.
      * intros H [H1|H1]; [congruence | contradiction].
      * intros H H1. apply H. right. exact H1.
Qed.

(** A new key goes last. *)
Lemma set_fresh (k : string) (v : V) (d : dict) :
  ~ In k (Dict.keys d) -> Dict.set k v d = d ++ [(k, v)].
Proof.
  induction d as [|[k1 v1] d IH]; simpl; intros Hn; [reflexivity|].
  destruct (String.eqb k k1) eqn:E.
  - apply String.eqb_eq in E. subst. exfalso. apply Hn. left. reflexivity.
  - rewrite IH; [reflexivity|]. intros H. apply Hn. right. exact H.
Qed.

Lemma get_in (k : string) (v : V) (d : dict) :
  Dict.get k d = Some v -> In (k, v) d.
Proof.
  induction d as [|[k1 v1] d IH]; simpl; [discriminate|].
  destruct (String.eqb k k1) eqn:E.
  - apply String.eqb_eq in E. subst. intros H. inversion H. left. reflexivity.
  - intros H. right. apply IH. exact H.
Qed.

Lemma in_get (k : string) (v : V) (d : dict) :
  NoDup (Dict.keys d) -> In (k, v) d -> Dict.get k d = Some v.
Proof.
  induction d as [|[k1 v1] d IH]; simpl; intros Hnd Hin; [contradiction|].
  inversion Hnd; subst.
  destruct Hin as [Hin|Hin].
  - inversion Hin; subst. rewrite String.eqb_refl. reflexivity.
  - destruct (String.eqb k k1) eqn:E.
    + apply String.eqb_eq in E. subst. exfalso. apply H1.
      apply (in_map fst) in Hin. exact Hin.
    + apply IH; assumption.
Qed.

(** With unique keys, lookups do not depend on the order of entries. *)
Lemma get_perm (k : string) (d1 d2 : dict) :
  NoDup (Dict.keys d1) -> Permutation d1 d2 ->
  Dict.get k d1 = Dict.get k d2.
Proof.
  intros Hnd Hp.
  assert (Hnd2 : NoDup (Dict.keys d2)).
  { eapply Permutation_NoDup; [|exact Hnd].
    apply Permutation_map. exact Hp. }
  destruct (Dict.get k d1) as [v|] eqn:E1.
  - symmetry. apply in_get; [exact Hnd2|].
    eapply Permutation_in; [exact Hp|]. apply get_in. exact E1.
  - symmetry. apply get_none_iff. apply get_none_iff in E1.
    intros H. apply E1. eapply Permutation_in; [|exact H].
    apply Permutation_map. symmetry. exact Hp.
Qed.

Lemma of_pairs_loop (pairs : list (string * V)) :
  forall acc : dict,
    NoDup (Dict.keys acc ++ map fst pairs) ->
    fold_left (fun d kv => Dict.set (fst kv) (snd kv) d) pairs acc
    = acc ++ pairs.
Proof.
  induction pairs as [|[k v] pairs IH]; intros acc Hnd; simpl.
  - rewrite app_nil_r. reflexivity.
  - rewrite set_fresh.
    + rewrite IH.
      * rewrite <- app_assoc. reflexivity.
      * unfold Dict.keys in *. rewrite map_app. simpl.
        rewrite <- app_assoc. exact Hnd.
    + simpl in Hnd. apply NoDup_remove_2 in Hnd.
      intros H. apply Hnd. apply in_or_app. left. exact H.
Qed.

(** [dict(pairs)] is [pairs] itself when no key repeats. *)
Lemma of_pairs_nodup (pairs : list (string * V)) :
  NoDup (map fst pairs) -> Dict.of_pairs pairs = pairs.
Proof.
  intros Hnd. unfold Dict.of_pairs. rewrite of_pairs_loop; [reflexivity|].
  exact Hnd.
Qed.
End Facts.

End DictFacts.

Module StringOrder.

Lemma ascii_compare_refl (c : ascii) : Ascii.compare c c = Eq.
Proof. unfold Ascii.compare. apply N.compare_refl. Qed.

Lemma ascii_compare_lt_trans (a b c : ascii) :
  Ascii.compare a b = Lt -> Ascii.compare b c = Lt ->
  Ascii.compare a c = Lt.
Proof.
  unfold Ascii.compare. rewrite !N.compare_lt_iff. apply N.lt_trans.
Qed.

Lemma compare_lt_trans (a : string) :
  forall b c, String.compare a b = Lt -> String.compare b c = Lt ->
              String.compare a c = Lt.
Proof.
  induction a as [|x a IH]; intros [|y b] [|z c]; simpl;
    try discriminate; try reflexivity.
  destruct (Ascii.compare x y) eqn:Exy; try discriminate;
    destruct (Ascii.compare y z) eqn:Eyz; try discriminate; intros H1 H2.
  - apply Ascii.compare_eq_iff in Exy, Eyz. subst.
    rewrite ascii_compare_refl. eapply IH; eassumption.
  - apply Ascii.compare_eq_iff in Exy. subst. rewrite Eyz. reflexivity.
  - apply Ascii.compare_eq_iff in Eyz. subst. rewrite Exy. reflexivity.
  - rewrite (ascii_compare_lt_trans _ _ _ Exy Eyz). reflexivity.
Qed.

Lemma compare_refl (a : string) : String.compare a a = Eq.
Proof.
  induction a as [|x a IH]; simpl; [reflexivity|].
  rewrite ascii_compare_refl. exact IH.
Qed.

Lemma ltb_asym (a b : string) :
  String.ltb a b = true -> String.ltb b a = false.
Proof.
  unfold String.ltb. rewrite (String.compare_antisym a b).
  destruct (String.compare b a); simpl; congruence.
Qed.

(** [a <= b] and [b <= c] give [a <= c], in terms of [<]. *)
Lemma ltb_le_trans (a b c : string) :
  String.ltb b a = false -> String.ltb c b = false ->
  String.ltb c a = false.
Proof.
  unfold String.ltb. intros H1 H2.
  destruct (String.compare c a) eqn:Eca; try reflexivity. exfalso.
  destruct (String.compare b a) eqn:Eba; try discriminate;
    destruct (String.compare c b) eqn:Ecb; try discriminate.
  - apply String.compare_eq_iff in Eba, Ecb. subst.
    rewrite compare_refl in Eca. discriminate.
  - apply String.compare_eq_iff in Eba. subst. congruence.
  - apply String.compare_eq_iff in Ecb. subst. congruence.
  - (* a < b and b < c *)
    assert (Hab : String.compare a b = Lt).
    { rewrite String.compare_antisym, Eba. reflexivity. }
    assert (Hbc : String.compare b c = Lt).
    { rewrite String.compare_antisym, Ecb. reflexivity. }
    pose proof (compare_lt_trans _ _ _ Hab Hbc) as Hac.
    rewrite String.compare_antisym, Eca in Hac. discriminate.
Qed.

Lemma ltb_antisym (a b : string) :
  String.ltb b a = false -> String.ltb a b = false -> a = b.
Proof.
  unfold String.ltb. intros H1 H2.
  destruct (String.compare a b) eqn:E; try discriminate.
  - apply String.compare_eq_iff. exact E.
  - rewrite String.compare_antisym, E in H1. discriminate.
Qed.

End StringOrder.

Module ProductFacts.

Import PyList.

Section Facts.
Variable A : Type.

Lemma length_flat_map_const (B : Type) (f : A -> list B) (n : nat)
    (l : list A) :
  (forall x, List.length (f x) = n) ->
  List.length (flat_map f l) = (List.length l * n)%nat.
Proof.
  intros Hf. induction l as [|x l IH]; simpl; [reflexivity|].
  rewrite length_app, Hf, IH. reflexivity.
Qed.

Lemma length_product (ls : list (list A)) :
  List.length (product ls) = prod_lengths ls.
Proof.
  induction ls as [|l ls IH]; [reflexivity|].
  simpl product.
  erewrite length_flat_map_const by (intros x; apply length_map).
  unfold prod_lengths in *. simpl. rewrite IH. reflexivity.
Qed.

(** The tuples of the product are the ways to pick one element from
    each list. *)
Lemma in_product (ls : list (list A)) :
  forall t, In t (product ls) <-> Forall2 (fun v l => In v l) t ls.
Proof.
  induction ls as [|l ls IH]; intros t; simpl.
  - split.
    + intros [<-|[]]. constructor.
    + intros H. inversion H. left. reflexivity.
  - rewrite in_flat_map. split.
    + intros [x [Hx Ht]]. apply in_map_iff in Ht.
      destruct Ht as [t' [<- Ht']]. constructor; [exact Hx|].
      apply IH. exact Ht'.
    + intros H. inversion H as [|v l' t' ls' Hv Ht']; subst.
      exists v. split; [exact Hv|]. apply in_map. apply IH. exact Ht'.
Qed.

Lemma prod_lengths_perm (ls1 ls2 : list (list A)) :
  Permutation ls1 ls2 -> prod_lengths ls1 = prod_lengths ls2.
Proof.
  unfold prod_lengths.
  induction 1 as [|x l1 l2 Hp IH|x y l|l1 l2 l3 H1 IH1 H2 IH2]; simpl.
  - reflexivity.
  - rewrite IH. reflexivity.
  - lia.
  - congruence.
Qed.
End Facts.

Lemma map_fst_combine {A B} (l1 : list A) :
  forall l2 : list B, List.length l1 = List.length l2 ->
                      map fst (combine l1 l2) = l1.
Proof.
  induction l1 as [|x l1 IH]; intros [|y l2] H; simpl in *;
    try discriminate; [reflexivity|].
  rewrite IH by lia. reflexivity.
Qed.

Lemma combine_fst_snd {A B} (l : list (A * B)) :
  combine (map fst l) (map snd l) = l.
Proof.
  induction l as [|[a b] l IH]; simpl; [reflexivity|].
  rewrite IH. reflexivity.
Qed.

Lemma Forall2_compose {A B C} (P : A -> C -> Prop) (Q : B -> C -> Prop)
    (la : list A) :
  forall (lc : list C) (lb : list B),
    Forall2 P la lc -> Forall2 Q lb lc ->
    Forall2 (fun a b => exists c, P a c /\ Q b c) la lb.
Proof.
  induction la as [|a la IH]; intros lc lb HP HQ.
  - inversion HP; subst. inversion HQ; subst. constructor.
  - inversion HP; subst. inversion HQ; subst.
    constructor; [eexists; split; eassumption|].
    eapply IH; eassumption.
Qed.

(** From a strictly antisymmetric order, two sorted lists with the same
    elements are the same list. *)
Lemma strongly_sorted_perm_unique {A} (R : A -> A -> Prop) :
  (forall x y, R x y -> R y x -> x = y) ->
  forall l1 l2, StronglySorted R l1 -> StronglySorted R l2 ->
                Permutation l1 l2 -> l1 = l2.
Proof.
  intros Hanti. induction l1 as [|x1 l1 IH]; intros l2 H1 H2 Hp.
  - apply Permutation_nil in Hp. subst. reflexivity.
  - destruct l2 as [|x2 l2].
    { symmetry in Hp. apply Permutation_nil in Hp. discriminate. }
    inversion H1 as [|? ? Hs1 Hf1]; subst.
    inversion H2 as [|? ? Hs2 Hf2]; subst.
    assert (Hx : x1 = x2).
    { assert (In1 : In x1 (x2 :: l2))
        by (eapply Permutation_in; [exact Hp| left; reflexivity]).
      assert (In2 : In x2 (x1 :: l1))
        by (eapply Permutation_in;
            [symmetry; exact Hp| left; reflexivity]).
      destruct In1 as [->|In1]; [reflexivity|].
      destruct In2 as [->|In2]; [reflexivity|].
      rewrite Forall_forall in Hf1, Hf2.
      apply Hanti; [apply Hf1 | apply Hf2]; assumption. }
    subst x2. f_equal. apply IH; try assumption.
    eapply Permutation_cons_inv. exact Hp.
Qed.

End ProductFacts.

Module StrategyFacts.

Import Config Strategy.

Section Sampling.
Variable optimizer : Type.
Variable suggest : optimizer -> params * optimizer.
Abbreviation strategy := (Strategy.strategy optimizer).

Lemma finished_remaining (s : strategy) :
  finished s = true <-> remaining s = 0%nat.
Proof.
  destruct s as [g|r|p]; simpl.
  - rewrite Nat.leb_le. lia.
  - rewrite Nat.leb_le. lia.
  - rewrite Z.leb_le. lia.
Qed.

(** An exhausted strategy raises and stays as it is. *)
Lemma sample_finished (s : strategy) :
  finished s = true -> sample suggest s = (s, Raise IndexError).
Proof.
  destruct s as [g|r|p]; simpl; intros ->; reflexivity.
Qed.

(** A strategy that is not exhausted returns a sample and has one
    sample less to give. *)
Lemma sample_not_finished (s : strategy) :
  finished s = false ->
  exists s' x, sample suggest s = (s', Ok x)
               /\ S (remaining s') = remaining s.
Proof.
  destruct s as [g|r|p]; simpl; intros Hf; rewrite Hf.
  - apply Nat.leb_gt in Hf.
    destruct (nth_error (grid_samples g) (grid_sampled_so_far g)) eqn:E.
    + eexists _, _. split; [reflexivity|]. simpl. lia.
    + apply nth_error_None in E. lia.
  - apply Nat.leb_gt in Hf.
    destruct (nth_error (random_samples r) (random_sampled_so_far r))
      eqn:E.
    + eexists _, _. split; [reflexivity|]. simpl. lia.
    + apply nth_error_None in E. lia.
  - apply Z.leb_gt in Hf.
    destruct (suggest (pysot_optimizer p)) as [x o].
    eexists _, _. split; [reflexivity|]. simpl. lia.
Qed.

(** [sample()] raises nothing but [IndexError], exactly when the
    strategy is finished, and then leaves the strategy unchanged. *)
Lemma sample_raises (s : strategy) (e : exn) :
  snd (sample suggest s) = Raise e ->
  e = IndexError /\ finished s = true
  /\ sample suggest s = (s, Raise IndexError).
Proof.
  intros H. destruct (finished s) eqn:Hf.
  - rewrite (sample_finished s Hf) in *. simpl in H.
    inversion H. auto.
  - destruct (sample_not_finished s Hf) as [s' [x [E _]]].
    rewrite E in H. discriminate.
Qed.

(** Once the strategy is finished the loop of [sample_batch] keeps what
    it has, provided it has something. *)
Lemma sample_batch_loop_finished (n : nat) (s : strategy)
    (x : params) (acc : list params) :
  finished s = true ->
  sample_batch_loop suggest n s (x :: acc) = (s, Ok (x :: acc)).
Proof.
  intros Hf. induction n as [|n IH]; [reflexivity|].
  simpl. rewrite (sample_finished s Hf). exact IH.
Qed.

Lemma sample_batch_loop_take (k : nat) :
  forall (n : nat) (s s' : strategy) (acc xs : list params),
    take_samples suggest k s = Some (xs, s') ->
    (k <= n)%nat ->
    (k < n -> finished s' = true /\ acc ++ xs <> [])%nat ->
    sample_batch_loop suggest n s acc = (s', Ok (acc ++ xs)).
Proof.
  induction k as [|k IH]; intros n s s' acc xs Ht Hk Hlt.
  - simpl in Ht. inversion Ht; subst. rewrite app_nil_r in *.
    destruct n as [|n]; [reflexivity|].
    destruct Hlt as [Hf Hne]; [lia|].
    destruct acc as [|a acc]; [congruence|].
    apply sample_batch_loop_finished. exact Hf.
  - simpl in Ht.
    destruct (sample suggest s) as [s1 [x|e]] eqn:Es; [|discriminate].
    destruct (take_samples suggest k s1) as [[xs1 s2]|] eqn:Et;
      [|discriminate].
    inversion Ht; subst.
    destruct n as [|n]; [lia|].
    simpl. rewrite Es.
    rewrite (IH n s1 s' (acc ++ [x]) xs1 Et).
    + rewrite <- app_assoc. reflexivity.
    + lia.
    + intros Hkn. split.
      * apply Hlt. lia.
      * destruct acc; discriminate.
Qed.

Lemma take_samples_length (k : nat) :
  forall (s s' : strategy) (xs : list params),
    take_samples suggest k s = Some (xs, s') -> List.length xs = k.
Proof.
  induction k as [|k IH]; intros s s' xs Ht; simpl in Ht.
  - inversion Ht. reflexivity.
  - destruct (sample suggest s) as [s1 [x|e]]; [|discriminate].
    destruct (take_samples suggest k s1) as [[xs1 s2]|] eqn:Et;
      [|discriminate].
    inversion Ht; subst. simpl. f_equal. eapply IH. exact Et.
Qed.

(** C2. For every strategy and every [batch_size >= 1]:
    [sample_batch] raises [IndexError] (the exhaustion error) when the
    first [sample()] of the call is already exhausted; when instead
    [k >= 1] samples are produced and the next [sample()] is exhausted
    before the batch is full, it returns exactly those [k] samples
    without raising, [finished()] is then true, and calling it again
    raises. *)
Theorem sample_batch_exhaustion (s : strategy) (batch_size : Z) :
  (1 <= batch_size)%Z ->
  (forall e, snd (sample suggest s) = Raise e ->
     sample_batch suggest batch_size s = (s, Raise IndexError))
  /\ (forall (k : nat) (xs : list params) (s' : strategy) (e : exn),
        (1 <= k)%nat -> (Z.of_nat k < batch_size)%Z ->
        take_samples suggest k s = Some (xs, s') ->
        snd (sample suggest s') = Raise e ->
        sample_batch suggest batch_size s = (s', Ok xs)
        /\ List.length xs = k
        /\ finished s' = true
        /\ sample_batch suggest batch_size s' = (s', Raise IndexError)).
Proof.
  intros Hb.
  assert (Hfirst : forall (t : strategy) e,
             snd (sample suggest t) = Raise e ->
             sample_batch suggest batch_size t = (t, Raise IndexError)).
  { intros t e He. apply sample_raises in He.
    destruct He as [_ [_ He]].
    unfold sample_batch.
    destruct (Z.to_nat batch_size) as [|n] eqn:En; [lia|].
    simpl. rewrite He. reflexivity. }
  split; [exact (Hfirst s)|].
  intros k xs s' e Hk Hkb Ht He.
  pose proof (take_samples_length _ _ Ht) as Hlen.
  pose proof (sample_raises _ He) as [_ [Hf _]].
  split; [|split; [exact Hlen | split; [exact Hf|]]].
  - unfold sample_batch.
    rewrite (@sample_batch_loop_take k (Z.to_nat batch_size) s s' [] xs Ht).
    + reflexivity.
    + lia.
    + intros _. split; [exact Hf|].
      simpl. intros ->. simpl in Hlen. lia.
  - eapply Hfirst. exact He.
Qed.

End Sampling.

End StrategyFacts.

Module GridStrategyFacts.

Import Config Strategy.

Lemma skipn_nth_error {A} (l : list A) (i : nat) (x : A) :
  nth_error l i = Some x -> skipn i l = x :: skipn (S i) l.
Proof.
  revert i. induction l as [|y l IH]; intros [|i] H; simpl in *;
    try discriminate.
  - inversion H. reflexivity.
  - apply IH. exact H.
Qed.

Lemma mapM_ok_map {A B} (f : A -> result B) (g : A -> B) (l : list A) :
  (forall x, In x l -> f x = Ok (g x)) -> mapM f l = Ok (map g l).
Proof.
  induction l as [|x l IH]; intros H; simpl; [reflexivity|].
  rewrite (H x) by (left; reflexivity). simpl.
  rewrite IH by (intros y Hy; apply H; right; exact Hy). reflexivity.
Qed.

Lemma sorted_names_perm (ss : Dict.dict (list value)) :
  Permutation (sorted_names ss) (Dict.keys ss).
Proof. apply PyListFacts.sorted_perm. Qed.

Lemma sorted_names_nodup (ss : Dict.dict (list value)) :
  NoDup (Dict.keys ss) -> NoDup (sorted_names ss).
Proof.
  intros H. eapply Permutation_NoDup; [|exact H].
  symmetry. apply sorted_names_perm.
Qed.

Lemma sorted_names_sorted (ss : Dict.dict (list value)) :
  StronglySorted (fun a b => String.ltb b a = false) (sorted_names ss).
Proof.
  unfold sorted_names.
  apply (@PyListFacts.sorted_increasing string string String.ltb
           (fun n => n) StringOrder.ltb_asym StringOrder.ltb_le_trans).
Qed.

Lemma strictly_increasing (l : list string) :
  NoDup l -> StronglySorted (fun a b => String.ltb b a = false) l ->
  increasing_names l.
Proof.
  unfold increasing_names.
  induction l as [|x l IH]; intros Hnd Hs; [constructor|].
  inversion Hnd; subst. inversion Hs as [|? ? Hs' Hf]; subst.
  constructor; [apply IH; assumption|].
  rewrite Forall_forall in *. intros y Hy.
  destruct (String.ltb x y) eqn:E; [reflexivity|]. exfalso.
  assert (x = y) by (apply StringOrder.ltb_antisym; [apply Hf; exact Hy | exact E]).
  subst. contradiction.
Qed.

(** The sorted names depend on the set of names only. *)
Lemma sorted_names_unique (ss ss' : Dict.dict (list value)) :
  Permutation ss ss' -> sorted_names ss = sorted_names ss'.
Proof.
  intros Hp.
  apply (@ProductFacts.strongly_sorted_perm_unique string
           (fun a b => String.ltb b a = false)).
  - intros x y H1 H2. apply StringOrder.ltb_antisym; assumption.
  - apply sorted_names_sorted.
  - apply sorted_names_sorted.
  - rewrite !sorted_names_perm. apply Permutation_map. exact Hp.
Qed.

Lemma lookup_sorted_names (ss : Dict.dict (list value)) :
  mapM (fun hp_name => Dict.lookup hp_name ss) (sorted_names ss)
  = Ok (lists_by_name ss).
Proof.
  unfold lists_by_name. apply mapM_ok_map. intros n Hn.
  unfold Dict.lookup. destruct (Dict.get n ss) eqn:E; [reflexivity|].
  exfalso. apply DictFacts.get_none_iff in E. apply E.
  eapply Permutation_in; [apply sorted_names_perm | exact Hn].
Qed.

Lemma lists_by_name_spec (ss : Dict.dict (list value)) :
  Forall2 (fun n l => Dict.get n ss = Some l)
    (sorted_names ss) (lists_by_name ss).
Proof.
  unfold lists_by_name.
  assert (H : forall n, In n (sorted_names ss) -> In n (Dict.keys ss)).
  { intros n Hn. eapply Permutation_in; [apply sorted_names_perm|exact Hn]. }
  induction (sorted_names ss) as [|n names IH]; simpl; constructor.
  - destruct (Dict.get n ss) eqn:E; [reflexivity|]. exfalso.
    apply DictFacts.get_none_iff in E. apply E. apply H. left. reflexivity.
  - apply IH. intros m Hm. apply H. right. exact Hm.
Qed.

Lemma Forall2_length_eq {A B} (P : A -> B -> Prop) (l1 : list A)
    (l2 : list B) :
  Forall2 P l1 l2 -> List.length l1 = List.length l2.
Proof. induction 1; simpl; congruence. Qed.

(** [_get_grids] never fails and yields the cross product, each tuple
    zipped with the sorted names. *)
Lemma get_grids_eq (ss : Dict.dict (list value)) :
  NoDup (Dict.keys ss) ->
  get_grids ss
  = Ok (map (combine (sorted_names ss))
            (PyList.product (lists_by_name ss))).
Proof.
  intros Hnd. unfold get_grids. rewrite lookup_sorted_names. simpl.
  f_equal. apply map_ext_in. intros prod Hprod.
  apply DictFacts.of_pairs_nodup.
  apply ProductFacts.in_product in Hprod.
  rewrite ProductFacts.map_fst_combine.
  - apply sorted_names_nodup. exact Hnd.
  - rewrite (@Forall2_length_eq _ _ _ _ _ Hprod).
    apply (@Forall2_length_eq _ _ _ _ _ (lists_by_name_spec ss)).
Qed.

Lemma get_grids_perm (ss ss' : Dict.dict (list value)) :
  NoDup (Dict.keys ss) -> Permutation ss ss' ->
  get_grids ss = get_grids ss'.
Proof.
  intros Hnd Hp.
  assert (Hnd' : NoDup (Dict.keys ss')).
  { eapply Permutation_NoDup; [|exact Hnd]. apply Permutation_map. exact Hp. }
  rewrite !get_grids_eq by assumption.
  unfold lists_by_name. rewrite <- (@sorted_names_unique ss ss' Hp).
  do 3 f_equal. apply map_ext. intros n.
  rewrite (@DictFacts.get_perm _ n ss ss' Hnd Hp). reflexivity.
Qed.

Lemma map_lookup_keys (ss : Dict.dict (list value)) :
  NoDup (Dict.keys ss) ->
  map (fun n => match Dict.get n ss with Some l => l | None => [] end)
      (Dict.keys ss)
  = map snd ss.
Proof.
  intros Hnd. unfold Dict.keys. rewrite map_map. apply map_ext_in.
  intros [k l] Hin. simpl.
  rewrite (@DictFacts.in_get _ k l ss Hnd Hin). reflexivity.
Qed.

Lemma lists_by_name_perm (ss : Dict.dict (list value)) :
  NoDup (Dict.keys ss) -> Permutation (lists_by_name ss) (map snd ss).
Proof.
  intros Hnd. rewrite <- (@map_lookup_keys ss Hnd). unfold lists_by_name.
  apply Permutation_map. apply sorted_names_perm.
Qed.

Lemma get_combine (R : string -> value -> Prop) (names : list string) :
  forall (prod : list value) (k : string),
    Forall2 R names prod -> In k names ->
    exists v, Dict.get k (combine names prod) = Some v /\ R k v.
Proof.
  induction names as [|n names IH]; intros prod k HF Hin; [contradiction|].
  inversion HF as [|? v ? prod' Hnv HF']; subst. simpl.
  destruct (String.eqb k n) eqn:E.
  - apply String.eqb_eq in E. subst. exists v. split; [reflexivity|exact Hnv].
  - destruct Hin as [->|Hin]; [rewrite String.eqb_refl in E; discriminate|].
    apply IH; assumption.
Qed.

Lemma in_grids_iff (ss : Dict.dict (list value)) (p : params) :
  NoDup (Dict.keys ss) ->
  In p (map (combine (sorted_names ss)) (PyList.product (lists_by_name ss)))
  <-> valid_combination ss p.
Proof.
  intros Hnd. pose proof (lists_by_name_spec ss) as Hspec.
  pose proof (@sorted_names_nodup ss Hnd) as Hnames.
  unfold valid_combination. rewrite in_map_iff. split.
  - intros [prod [<- Hprod]]. apply ProductFacts.in_product in Hprod.
    assert (Hlen : List.length (sorted_names ss) = List.length prod).
    { rewrite (@Forall2_length_eq _ _ _ _ _ Hprod). apply (@Forall2_length_eq _ _ _ _ _ Hspec). }
    split.
    + unfold Dict.keys. apply ProductFacts.map_fst_combine. exact Hlen.
    + intros k l Hk.
      pose proof (@ProductFacts.Forall2_compose _ _ _ _ _ _ _ _ Hspec Hprod) as HF.
      destruct (@get_combine _ _ prod k HF) as [v [Hv [l' [Hl' Hin]]]].
      * eapply Permutation_in; [symmetry; apply sorted_names_perm|].
        apply DictFacts.get_in in Hk. apply (in_map fst) in Hk. exact Hk.
      * exists v. split; [exact Hv|]. congruence.
  - intros [Hkeys Hval]. exists (map snd p). split.
    + rewrite <- Hkeys. apply ProductFacts.combine_fst_snd.
    + apply ProductFacts.in_product.
      assert (Hndp : NoDup (Dict.keys p)) by (rewrite Hkeys; exact Hnames).
      assert (Hall : forall k v, In (k, v) p ->
                 exists l, Dict.get k ss = Some l /\ In v l).
      { intros k v Hin.
        assert (Hk : In k (Dict.keys ss)).
        { eapply Permutation_in; [apply sorted_names_perm|].
          rewrite <- Hkeys. apply (in_map fst) in Hin. exact Hin. }
        destruct (Dict.get k ss) as [l|] eqn:E.
        - exists l. split; [reflexivity|].
          destruct (Hval k l E) as [v' [Hv' Hin']].
          rewrite (@DictFacts.in_get _ k v p Hndp Hin) in Hv'.
          inversion Hv'; subst. exact Hin'.
        - apply DictFacts.get_none_iff in E. contradiction. }
      clear Hval Hndp Hnames. unfold Dict.keys in Hkeys.
      revert Hspec. rewrite <- Hkeys. generalize (lists_by_name ss).
      clear Hkeys.
      induction p as [|[k v] p IH]; intros lists HF; simpl in *.
      * inversion HF. constructor.
      * inversion HF as [|? l ? lists' Hl HF']; subst. constructor.
        -- destruct (Hall k v (or_introl eq_refl)) as [l' [Hl' Hin]].
           congruence.
        -- apply IH; [|exact HF'].
           intros k' v' Hin. apply Hall. right. exact Hin.
Qed.


Section Construction.
Variable int_dtype : GridFunctions.int_rounding.
Variable np_logspace : Q -> Q -> Z -> Q -> result (list Q).
Variable np_geomspace : Q -> Q -> Z -> result (list Q).
Variable optimizer : Type.
Variable suggest : optimizer -> params * optimizer.

Abbreviation grid_of :=
  (grid_function int_dtype np_logspace np_geomspace).
Abbreviation init :=
  (GridStrategy_init int_dtype np_logspace np_geomspace).

Abbreviation grid_entry :=
  (Strategy.grid_entry int_dtype np_logspace np_geomspace).

Lemma create_loop_spec (items : list (string * hp_params)) :
  forall acc ss,
    NoDup (Dict.keys acc ++ map fst items) ->
    (create_search_space_loop int_dtype np_logspace np_geomspace
       items acc = Ok ss
     <-> exists grids, ss = acc ++ grids
                       /\ Forall2 grid_entry items grids).
Proof.
  induction items as [|[k hp] items IH]; intros acc ss Hnd; simpl.
  - split.
    + intros H. inversion H. exists []. rewrite app_nil_r.
      split; [reflexivity|constructor].
    + intros [grids [-> HF]]. inversion HF. rewrite app_nil_r.
      reflexivity.
  - assert (Hfresh : ~ In k (Dict.keys acc)).
    { simpl in Hnd. apply NoDup_remove_2 in Hnd. intros H. apply Hnd.
      apply in_or_app. left. exact H. }
    assert (Hnd' : forall l,
               NoDup (Dict.keys (Dict.set k l acc) ++ map fst items)).
    { intros l. rewrite DictFacts.set_fresh by exact Hfresh.
      unfold Dict.keys in *. rewrite map_app. simpl.
      rewrite <- app_assoc. exact Hnd. }
    destruct (grid_of hp) as [l|e] eqn:E; simpl.
    + rewrite (IH _ ss (Hnd' l)).
      rewrite DictFacts.set_fresh by exact Hfresh. split.
      * intros [grids [-> HF]]. exists ((k, l) :: grids).
        rewrite <- app_assoc. split; [reflexivity|].
        constructor; [|exact HF]. split; [reflexivity|exact E].
      * intros [grids [-> HF]].
        inversion HF as [|? [k' l'] ? grids' [Hk Hl] HF']; subst.
        simpl in Hk, Hl. subst k'. rewrite E in Hl. inversion Hl; subst.
        exists grids'. rewrite <- app_assoc. split; [reflexivity|exact HF'].
    + split; [discriminate|].
      intros [grids [_ HF]].
      inversion HF as [|? [k' l'] ? grids' [Hk Hl] HF']; subst.
      simpl in Hl. rewrite E in Hl. discriminate.
Qed.

Lemma create_search_space_spec (parameters : Dict.dict hp_params)
    (ss : Dict.dict (list value)) :
  NoDup (Dict.keys parameters) ->
  (create_search_space int_dtype np_logspace np_geomspace parameters
   = Ok ss
   <-> Forall2 grid_entry parameters ss).
Proof.
  intros Hnd. unfold create_search_space.
  rewrite create_loop_spec by exact Hnd. simpl. split.
  - intros [grids [-> HF]]. exact HF.
  - intros HF. exists ss. split; [reflexivity|exact HF].
Qed.

Lemma grid_entry_keys (parameters : Dict.dict hp_params)
    (ss : Dict.dict (list value)) :
  Forall2 grid_entry parameters ss -> Dict.keys ss = Dict.keys parameters.
Proof.
  induction 1 as [|kp kl ps ss' [Hk _] HF IH]; [reflexivity|].
  unfold Dict.keys in *. simpl. rewrite Hk, IH. reflexivity.
Qed.

Lemma sample_grid (st : GridStrategy) (i : nat) (x : params) :
  nth_error (grid_samples st) i = Some x ->
  sample suggest (Grid optimizer (grid_after st i))
  = (Grid optimizer (grid_after st (S i)), Ok x).
Proof.
  intros Hx. simpl.
  assert (Hi : (i < List.length (grid_samples st))%nat)
    by (apply nth_error_Some; congruence).
  destruct (Nat.leb_spec (List.length (grid_samples st)) i); [lia|].
  rewrite Hx. unfold grid_after. simpl.
  rewrite Nat.add_1_r. reflexivity.
Qed.

(** Sampling a grid strategy until it is exhausted returns the
    remaining samples in order. *)
Lemma take_samples_grid (st : GridStrategy) (k : nat) :
  forall i, (i + k = List.length (grid_samples st))%nat ->
    take_samples suggest k (Grid optimizer (grid_after st i))
    = Some (skipn i (grid_samples st),
            Grid optimizer
              (grid_after st (List.length (grid_samples st)))).
Proof.
  induction k as [|k IH]; intros i Hi.
  - simpl. rewrite skipn_all2 by lia.
    replace i with (List.length (grid_samples st)) by lia. reflexivity.
  - destruct (nth_error (grid_samples st) i) as [x|] eqn:Ex.
    + cbn [take_samples]. rewrite (@sample_grid st i x Ex).
      rewrite IH by lia.
      rewrite (@skipn_nth_error _ _ i x Ex). reflexivity.
    + apply nth_error_None in Ex. lia.
Qed.

(** C5. For every set of parameters (a dict, so without repeated
    names) from which the grid strategy can be built: the candidate
    lists of the search space are those the grid functions return for
    the declared parameters; the samples are the cross product of the
    candidate lists taken in increasing order of parameter name, and are
    the same whatever the order in which the parameters were declared;
    their number is the product of the lengths of the candidate lists;
    the samples are exactly the valid combinations of candidate values;
    and [sample()] returns them one by one, after which the strategy is
    finished and the next [sample()] raises [IndexError]. *)
Theorem grid_strategy_enumerates (g : goal)
    (parameters : Dict.dict hp_params) (st : GridStrategy) :
  NoDup (Dict.keys parameters) ->
  init g parameters = Ok st ->
  Forall2 grid_entry parameters (grid_search_space st)
  /\ grid_samples st
     = map (combine (sorted_names (grid_search_space st)))
         (PyList.product (lists_by_name (grid_search_space st)))
  /\ increasing_names (sorted_names (grid_search_space st))
  /\ (forall parameters', Permutation parameters parameters' ->
        exists st', init g parameters' = Ok st'
                    /\ grid_samples st' = grid_samples st)
  /\ List.length (grid_samples st)
     = PyList.prod_lengths (map snd (grid_search_space st))
  /\ (forall p, In p (grid_samples st)
                <-> valid_combination (grid_search_space st) p)
  /\ exists s_end,
       take_samples suggest (List.length (grid_samples st))
         (Grid optimizer st)
       = Some (grid_samples st, s_end)
       /\ finished s_end = true
       /\ sample suggest s_end = (s_end, Raise IndexError).
Proof.
  intros Hnd Hinit. unfold GridStrategy_init in Hinit.
  destruct (create_search_space int_dtype np_logspace np_geomspace
              parameters) as [ss|e] eqn:Ess; [|discriminate].
  simpl in Hinit.
  pose proof (proj1 (@create_search_space_spec parameters ss Hnd) Ess) as HF.
  assert (Hss : NoDup (Dict.keys ss))
    by (rewrite (@grid_entry_keys parameters ss HF); exact Hnd).
  rewrite (@get_grids_eq ss Hss) in Hinit. simpl in Hinit.
  inversion Hinit; subst st; clear Hinit. simpl.
  split; [exact HF|]. split; [reflexivity|].
  split.
  { apply strictly_increasing;
      [apply sorted_names_nodup; exact Hss | apply sorted_names_sorted]. }
  split.
  { intros parameters' Hperm.
    destruct (Permutation_Forall2 Hperm HF) as [ss' [Hpss HF']].
    assert (Hnd' : NoDup (Dict.keys parameters')).
    { eapply Permutation_NoDup; [|exact Hnd].
      apply Permutation_map. exact Hperm. }
    unfold GridStrategy_init.
    rewrite (proj2 (@create_search_space_spec parameters' ss' Hnd') HF'). simpl.
    rewrite <- (@get_grids_perm ss ss' Hss Hpss).
    rewrite (@get_grids_eq ss Hss). simpl.
    eexists. split; reflexivity. }
  split.
  { rewrite length_map, ProductFacts.length_product.
    apply ProductFacts.prod_lengths_perm.
    apply lists_by_name_perm. exact Hss. }
  split.
  { intros p. apply in_grids_iff. exact Hss. }
  set (samples := map (combine (sorted_names ss))
                    (PyList.product (lists_by_name ss))).
  set (st := mkGrid g ss samples 0).
  exists (Grid optimizer (grid_after st (List.length samples))).
  split; [|split].
  - pose proof (@take_samples_grid st (List.length samples) 0%nat
                  eq_refl) as H.
    exact H.
  - simpl. apply Nat.leb_refl.
  - apply StrategyFacts.sample_finished. simpl. apply Nat.leb_refl.
Qed.

End Construction.

End GridStrategyFacts.

Module SlotPoolFacts.

Import Executor.

Section Interleaving.
Variables (slot trial outcome : Type).
Variable try_body : slot -> trial -> outcome.

Abbreviation state := (pool_state slot trial outcome).
Abbreviation step := (@pool_step slot trial outcome try_body).
Abbreviation steps := (@pool_steps slot trial outcome try_body).

Lemma held_slots_app (ws1 ws2 : list (worker_state slot trial outcome)) :
  @held_slots slot trial outcome (ws1 ++ ws2)
  = held_slots ws1 ++ held_slots ws2.
Proof. unfold held_slots. apply flat_map_app. Qed.

(** A step moves a slot between the queue and a worker: the slots in
    the queue together with those held stay the same. *)
Lemma step_slots (st st' : state) :
  step st st' ->
  Permutation (pool_queue st' ++ held_slots (pool_workers st'))
              (pool_queue st ++ held_slots (pool_workers st)).
Proof.
  intros H. destruct H as [s q ws1 t ws2 | s q ws1 t ws2]; simpl;
    rewrite !held_slots_app; simpl.
  - rewrite (Permutation_app_comm (held_slots ws1) (s :: held_slots ws2)).
    simpl. rewrite (Permutation_app_comm (held_slots ws2)).
    symmetry. apply Permutation_middle.
  - rewrite <- app_assoc. simpl.
    apply Permutation_app_head.
    rewrite (Permutation_app_comm (held_slots ws1) (s :: held_slots ws2)).
    simpl. constructor. apply Permutation_app_comm.
Qed.

Lemma steps_slots (st st' : state) :
  steps st st' ->
  Permutation (pool_queue st' ++ held_slots (pool_workers st'))
              (pool_queue st ++ held_slots (pool_workers st)).
Proof.
  induction 1 as [st|st1 st2 st3 H12 IH H23]; [reflexivity|].
  rewrite (step_slots H23). exact IH.
Qed.

Lemma held_slots_waiting (trials : list trial) :
  held_slots (map (@Waiting slot trial outcome) trials) = [].
Proof. induction trials as [|t ts IH]; [reflexivity | exact IH]. Qed.

Lemma held_slots_finished (ws : list (worker_state slot trial outcome)) :
  forallb (@is_finished slot trial outcome) ws = true ->
  held_slots ws = [].
Proof.
  induction ws as [|w ws IH]; [reflexivity|]. simpl.
  destruct w; simpl; try discriminate. exact IH.
Qed.

(** The number of calls does not change. *)
Lemma steps_workers (st st' : state) :
  steps st st' ->
  List.length (pool_workers st') = List.length (pool_workers st).
Proof.
  induction 1 as [st|st1 st2 st3 H12 IH H23]; [reflexivity|].
  rewrite <- IH. destruct H23; simpl; rewrite !length_app; reflexivity.
Qed.

(** Unless every call has finished, some call is waiting or holds a
    slot. *)
Lemma not_all_finished (ws : list (worker_state slot trial outcome)) :
  forallb (@is_finished slot trial outcome) ws = false ->
  (exists ws1 s t ws2, ws = ws1 ++ Holding s t :: ws2)
  \/ (held_slots ws = []
      /\ exists ws1 t ws2, ws = ws1 ++ Waiting t :: ws2).
Proof.
  induction ws as [|w ws IH]; simpl; [discriminate|].
  destruct w as [t|s t|o]; simpl.
  - intros _. destruct (forallb (@is_finished _ _ _) ws) eqn:E.
    + right. split; [apply held_slots_finished; exact E|].
      exists [], t, ws. reflexivity.
    + destruct (IH eq_refl) as [[ws1 [s [t' [ws2 ->]]]]|[Hh _]].
      * left. exists (Waiting t :: ws1), s, t', ws2.
        reflexivity.
      * right. split; [exact Hh|]. exists [], t, ws. reflexivity.
  - intros _. left. exists [], s, t, ws. reflexivity.
  - intros H. destruct (IH H) as [[ws1 [s [t' [ws2 ->]]]]|[Hh Hw]].
    + left. exists (Finished o :: ws1), s, t', ws2.
      reflexivity.
    + right. split; [exact Hh|].
      destruct Hw as [ws1 [t [ws2 ->]]].
      exists (Finished o :: ws1), t, ws2. reflexivity.
Qed.

(** From a non-empty queue with every call waiting, whatever the
    interleaving: no slot is lost or duplicated, the queue is whole
    again when all calls have finished, and until then some call can
    always move. *)
Lemma pool_invariant (queue : list slot) (trials : list trial)
    (st : state) :
  queue <> [] ->
  steps (initial_pool queue trials) st ->
  Permutation (pool_queue st ++ held_slots (pool_workers st)) queue
  /\ (all_finished st = true -> Permutation (pool_queue st) queue)
  /\ (all_finished st = false -> exists st', step st st').
Proof.
  intros Hne Hsteps.
  assert (Hinv : Permutation
                   (pool_queue st ++ held_slots (pool_workers st)) queue).
  { rewrite (steps_slots Hsteps). simpl.
    rewrite held_slots_waiting, app_nil_r. reflexivity. }
  split; [exact Hinv|]. split.
  - intros Hfin. unfold all_finished in Hfin.
    rewrite (held_slots_finished _ Hfin), app_nil_r in Hinv. exact Hinv.
  - intros Hnot. unfold all_finished in Hnot.
    destruct st as [q ws]. simpl in *.
    destruct (not_all_finished _ Hnot)
      as [[ws1 [s [t [ws2 ->]]]]|[Hh [ws1 [t [ws2 ->]]]]].
    + eexists. apply step_put.
    + rewrite Hh, app_nil_r in Hinv.
      destruct q as [|s q].
      * apply Permutation_nil in Hinv. congruence.
      * eexists. apply step_get.
Qed.
End Interleaving.

End SlotPoolFacts.

Module GpuWorkerFacts.

Import Config Executor.

Section Worker.
Variable training_stats : Type.
Variable train_and_eval_on_split :
  value -> option gpus_arg -> option Q ->
  result (training_stats * eval_stats).
Variable output_feature : string.
Variable metric : string.

Abbreviation try_body :=
  (gpu_try_body train_and_eval_on_split output_feature metric).
Abbreviation gpu_worker :=
  (train_and_eval_model_gpu train_and_eval_on_split output_feature
     metric).

(** An exception of the train/evaluate call is the outcome of the
    [try] block. *)
Lemma try_body_raises (slot : gpu_id_meta) (hd : hyperopt_dict)
    (e : exn) :
  train_and_eval_on_split (hd_model_definition hd)
    (Some (GpusStr (gpu_id slot))) (gpu_memory_limit slot) = Raise e ->
  try_body slot hd = Raise e.
Proof. unfold gpu_try_body. intros ->. reflexivity. Qed.

(** One call on a non-empty queue: the slot taken from the front is
    back, at the end, whatever the outcome. *)
Lemma gpu_worker_returns_slot (slot : gpu_id_meta)
    (rest : list gpu_id_meta) (hd : hyperopt_dict) :
  gpu_worker (slot :: rest) hd = Some (rest ++ [slot], try_body slot hd).
Proof. reflexivity. Qed.

(** [pool.map] over any list of trials, one call after the other. *)
Lemma run_all_keeps_slots (trials : list hyperopt_dict) :
  forall queue, queue <> [] ->
    exists queue' outcomes,
      run_all gpu_worker queue trials = Some (queue', outcomes)
      /\ Permutation queue' queue
      /\ List.length outcomes = List.length trials.
Proof.
  induction trials as [|hd trials IH]; intros queue Hne.
  - exists queue, []. repeat split. reflexivity.
  - destruct queue as [|slot rest]; [congruence|].
    destruct (IH (rest ++ [slot])) as [q' [outs [Hrun [Hperm Hlen]]]].
    { destruct rest; discriminate. }
    exists q', (try_body slot hd :: outs).
    split; [|split].
    + cbn [run_all]. rewrite gpu_worker_returns_slot, Hrun. reflexivity.
    + rewrite Hperm. rewrite Permutation_app_comm. reflexivity.
    + simpl. rewrite Hlen. reflexivity.
Qed.

(** C3. For every train/evaluate collaborator, every non-empty slot
    queue and every list of trials: a call of the GPU-aware worker
    function puts the slot it dequeued back into the queue on every
    exit path, also when the train/evaluate call raises; running all
    trials one after the other leaves the same slots in the queue, so
    the same number; and in every interleaving of the calls no slot is
    lost or duplicated, the queue is whole again once all calls have
    finished, and until then some call can always proceed. *)
Theorem gpu_slot_always_returned (queue : list gpu_id_meta)
    (trials : list hyperopt_dict) :
  queue <> [] ->
  (forall hd, exists slot rest,
      queue = slot :: rest
      /\ gpu_worker queue hd = Some (rest ++ [slot], try_body slot hd)
      /\ forall e,
           train_and_eval_on_split (hd_model_definition hd)
             (Some (GpusStr (gpu_id slot))) (gpu_memory_limit slot)
           = Raise e ->
           gpu_worker queue hd = Some (rest ++ [slot], Raise e))
  /\ (exists queue' outcomes,
        run_all gpu_worker queue trials = Some (queue', outcomes)
        /\ Permutation queue' queue
        /\ List.length queue' = List.length queue
        /\ List.length outcomes = List.length trials)
  /\ (forall st,
        pool_steps try_body (initial_pool queue trials) st ->
        (List.length (pool_queue st)
         + List.length (held_slots (pool_workers st))
         = List.length queue)%nat
        /\ (all_finished st = true ->
            Permutation (pool_queue st) queue
            /\ List.length (pool_queue st) = List.length queue)
        /\ (all_finished st = false ->
            exists st', pool_step try_body st st')).
Proof.
  intros Hne. split; [|split].
  - intros hd. destruct queue as [|slot rest]; [congruence|].
    exists slot, rest. split; [reflexivity|]. split; [reflexivity|].
    intros e He. rewrite gpu_worker_returns_slot.
    rewrite (try_body_raises slot hd He). reflexivity.
  - destruct (run_all_keeps_slots trials Hne)
      as [q' [outs [Hrun [Hperm Hlen]]]].
    exists q', outs. repeat split; try assumption.
    apply Permutation_length. exact Hperm.
  - intros st Hsteps.
    destruct (SlotPoolFacts.pool_invariant Hne Hsteps)
      as [Hinv [Hfin Hprog]].
    split; [|split].
    + rewrite <- length_app. apply Permutation_length. exact Hinv.
    + intros H. split; [exact (Hfin H)|].
      apply Permutation_length. exact (Hfin H).
    + exact Hprog.
Qed.
End Worker.

End GpuWorkerFacts.

Module MemoryFacts.

Import Executor.
Open Scope Q_scope.





Lemma process_per_gpu_ok (available : Z) (limit : Q) :
  ~ limit == 0 ->
  process_per_gpu available limit
  = Ok (Qtrunc (inject_Z available / limit)).
Proof.
  intros H. unfold process_per_gpu.
  destruct (Qeq_bool limit 0) eqn:E; [|reflexivity].
  apply Qeq_bool_iff in E. contradiction.
Qed.

Lemma process_per_gpu_zero (available : Z) (limit : Q) :
  limit == 0 -> process_per_gpu available limit = Raise ZeroDivisionError.
Proof.
  intros H. unfold process_per_gpu.
  apply Qeq_bool_iff in H. rewrite H. reflexivity.
Qed.

(** The share of a device that each worker may use is below one. *)
Lemma fraction_below_one (num_gpus num_workers : Z) (epsilon : Q) :
  (1 <= num_gpus < num_workers)%Z -> 0 <= epsilon ->
  fraction num_gpus num_workers epsilon < 1.
Proof.
  intros [Hg Hw] He. unfold fraction.
  assert (Hw0 : 0 < inject_Z num_workers).
  { change 0 with (inject_Z 0). rewrite <- Zlt_Qlt. lia. }
  assert (H : inject_Z num_gpus / inject_Z num_workers < 1).
  { apply Qlt_shift_div_r; [exact Hw0|]. rewrite Qmult_1_l.
    rewrite <- Zlt_Qlt. exact Hw. }
  lra.
Qed.



Section PerDevice.
Variable meta_of : string -> result gpu_meta.

(** After the loop over [gpu_ids], every listed device has the entry
    computed for it. *)
Lemma gpu_ids_meta_loop_spec (gpu_ids : list string) :
  forall acc metas,
    gpu_ids_meta_loop meta_of gpu_ids acc = Ok metas ->
    (forall gpu_id, In gpu_id gpu_ids ->
       exists m, meta_of gpu_id = Ok m
                 /\ Dict.get gpu_id metas = Some m)
    /\ (forall k, ~ In k gpu_ids -> Dict.get k metas = Dict.get k acc).
Proof.
  induction gpu_ids as [|gpu_id rest IH]; intros acc metas H; simpl in H.
  - inversion H; subst. split; [intros ? []| reflexivity].
  - destruct (meta_of gpu_id) as [m|e] eqn:E; [|discriminate].
    simpl in H. destruct (IH _ _ H) as [IH1 IH2]. split.
    + intros k [<-|Hk].
      * destruct (in_dec string_dec gpu_id rest) as [Hin|Hnin].
        -- destruct (IH1 _ Hin) as [m' [Hm' Hg]]. exists m'.
           split; [congruence|exact Hg].
        -- exists m. split; [exact E|].
           rewrite (IH2 _ Hnin). apply DictFacts.get_set_same.
      * destruct (IH1 _ Hk) as [m' [Hm' Hg]].
        exists m'. split; assumption.
    + intros k Hk. rewrite IH2 by (intros Hin; apply Hk; right; exact Hin).
      apply DictFacts.get_set_other. intros ->. apply Hk. left. reflexivity.
Qed.
End PerDevice.


Lemma index_in {A} (l : list A) (i : Z) (x : A) :
  PyList.index l i = Ok x -> In x l.
Proof.
  unfold PyList.index.
  destruct (_ <? 0)%Z; [discriminate|].
  destruct (nth_error l _) eqn:E; [|discriminate].
  intros H. inversion H; subst. eapply nth_error_In. exact E.
Qed.


End MemoryFacts.

Module SubstitutionFacts.

Import Config Substitution.
Open Scope string_scope.

Lemma keys_set_present {V} (k : string) (v v0 : V) (d : Dict.dict V) :
  Dict.get k d = Some v0 -> Dict.keys (Dict.set k v d) = Dict.keys d.
Proof.
  induction d as [|[k1 v1] d IH]; simpl; [discriminate|].
  destruct (String.eqb k k1) eqn:E.
  - apply String.eqb_eq in E. subst. reflexivity.
  - intros H. simpl. rewrite (IH H). reflexivity.
Qed.

Lemma parameters_dict_batch_size :
  get_parameters_dict batch_size_64
  = Ok pd64.
Proof. reflexivity. Qed.

(** A feature with another name is not touched. *)
Lemma set_feature_values_other (f : value) :
  feature_not_named "training" f -> set_feature_values pd64 f = Ok f.
Proof.
  intros [d [n [-> [Hname Hne]]]].
  unfold set_feature_values, get_item, Dict.lookup. rewrite Hname.
  cbn [bind]. unfold set_values, pd64. cbn [Dict.get].
  destruct (String.eqb n "training") eqn:E; [|reflexivity].
  apply String.eqb_eq in E. contradiction.
Qed.

Lemma set_features_other (fs : list value) :
  Forall (feature_not_named "training") fs ->
  set_features pd64 (VList fs) = Ok (VList fs).
Proof.
  intros HF. unfold set_features.
  assert (E : mapM (set_feature_values pd64) fs = Ok fs).
  { induction HF as [|f fs Hf HF IH]; [reflexivity|].
    cbn [mapM]. rewrite (@set_feature_values_other f Hf). cbn [bind].
    rewrite IH. reflexivity. }
  rewrite E. reflexivity.
Qed.

Lemma set_feature_list_other (section : string) (md : Dict.dict value)
    (fs : list value) :
  Dict.get section md = Some (VList fs) ->
  Forall (feature_not_named "training") fs ->
  set_feature_list pd64 section (VDict md) = Ok (VDict md).
Proof.
  intros Hget HF. unfold set_feature_list, get_item, Dict.lookup.
  rewrite Hget. cbn [bind]. rewrite (@set_features_other fs HF).
  cbn [bind].
  unfold set_item. rewrite (@DictFacts.set_same _ _ _ _ Hget). reflexivity.
Qed.

(** A section that the mapping does not mention is not touched. *)
Lemma set_section_other (section : string) (md : Dict.dict value)
    (v : value) :
  section <> "training" ->
  Dict.get section md = Some v ->
  set_section pd64 section (VDict md) = Ok (VDict md).
Proof.
  intros Hne Hget. unfold set_section, get_item, Dict.lookup.
  rewrite Hget. cbn [bind]. unfold set_values, pd64. cbn [Dict.get].
  destruct (String.eqb section "training") eqn:E.
  { apply String.eqb_eq in E. contradiction. }
  cbn [bind]. unfold set_item.
  rewrite (@DictFacts.set_same _ _ _ _ Hget). reflexivity.
Qed.

Lemma set_section_training (md tr : Dict.dict value) :
  Dict.get "training" md = Some (VDict tr) ->
  set_section pd64 "training" (VDict md)
  = Ok (VDict (Dict.set "training"
                 (VDict (Dict.set "batch_size" (VInt 64) tr)) md)).
Proof.
  intros Hget. unfold set_section, get_item, Dict.lookup.
  rewrite Hget. reflexivity.
Qed.

Lemma substitute_batch_size_eq (md tr : Dict.dict value) :
  complete_definition md tr ->
  substitute_parameters (VDict md) batch_size_64
  = Ok (VDict (Dict.set "training"
                 (VDict (Dict.set "batch_size" (VInt 64) tr)) md)).
Proof.
  intros [[ifs [Hi HFi]] [[ofs [Ho HFo]] [[c Hc] [Ht [p Hp]]]]].
  unfold substitute_parameters.
  rewrite parameters_dict_batch_size. cbn [bind].
  rewrite (@set_feature_list_other "input_features" md ifs Hi HFi).
  cbn [bind].
  rewrite (@set_feature_list_other "output_features" md ofs Ho HFo).
  cbn [bind].
  rewrite (@set_section_other "combiner" md c) by (discriminate || exact Hc).
  cbn [bind]. rewrite (@set_section_training md tr Ht). cbn [bind].
  apply (@set_section_other "preprocessing" _ p); [discriminate|].
  rewrite DictFacts.get_set_other by discriminate. exact Hp.
Qed.

(** The substituted definition is complete again. *)
Lemma complete_after (md tr : Dict.dict value) :
  complete_definition md tr ->
  complete_definition
    (Dict.set "training" (VDict (Dict.set "batch_size" (VInt 64) tr)) md)
    (Dict.set "batch_size" (VInt 64) tr).
Proof.
  intros [[ifs [Hi HFi]] [[ofs [Ho HFo]] [[c Hc] [Ht [p Hp]]]]].
  unfold complete_definition.
  split; [exists ifs; split; [|assumption];
          rewrite DictFacts.get_set_other by discriminate; assumption|].
  split; [exists ofs; split; [|assumption];
          rewrite DictFacts.get_set_other by discriminate; assumption|].
  split; [exists c;
          rewrite DictFacts.get_set_other by discriminate; assumption|].
  split; [apply DictFacts.get_set_same|].
  exists p. rewrite DictFacts.get_set_other by discriminate. exact Hp.
Qed.


(** C8. For a model definition with all its sections whose training
    section has a batch size (32 in the example) and with no feature
    called "training", substituting the mapping
    [{"training.batch_size": 64}] returns the definition with the batch
    size of the training section set to 64: the keys of the definition
    and of its training section are the same as before and in the same
    order, every other entry of both is identical, and substituting the
    same mapping into the result gives the result again. *)
Theorem substitute_batch_size (md tr : Dict.dict value) (old : value) :
  complete_definition md tr ->
  Dict.get "batch_size" tr = Some old ->
  exists md' tr',
    substitute_parameters (VDict md) batch_size_64 = Ok (VDict md')
    /\ Dict.get "training" md' = Some (VDict tr')
    /\ Dict.get "batch_size" tr' = Some (VInt 64)
    /\ Dict.keys md' = Dict.keys md
    /\ Dict.keys tr' = Dict.keys tr
    /\ (forall k, k <> "training" -> Dict.get k md' = Dict.get k md)
    /\ (forall k, k <> "batch_size" -> Dict.get k tr' = Dict.get k tr)
    /\ substitute_parameters (VDict md') batch_size_64 = Ok (VDict md').
Proof.
  intros Hc Hold.
  pose proof Hc as [_ [_ [_ [Ht _]]]].
  set (tr' := Dict.set "batch_size" (VInt 64) tr).
  set (md' := Dict.set "training" (VDict tr') md).
  exists md', tr'.
  split; [apply substitute_batch_size_eq; exact Hc|].
  split; [apply DictFacts.get_set_same|].
  split; [apply DictFacts.get_set_same|].
  split; [eapply keys_set_present; exact Ht|].
  split; [eapply keys_set_present; exact Hold|].
  split; [intros k Hk; apply DictFacts.get_set_other; exact Hk|].
  split; [intros k Hk; apply DictFacts.get_set_other; exact Hk|].
  rewrite (@substitute_batch_size_eq md' tr' (@complete_after md tr Hc)).
  do 2 f_equal. fold tr'.
  assert (E : Dict.set "batch_size" (VInt 64) tr' = tr').
  { apply DictFacts.set_same. apply DictFacts.get_set_same. }
  rewrite E. apply DictFacts.set_same. apply DictFacts.get_set_same.
Qed.

End SubstitutionFacts.

Module GpuMemoryFacts.

Import GpuMemory.



End GpuMemoryFacts.

Module ExecutorFacts.

Import Config Strategy Executor.

Lemma pool_map_calls_app (t1 t2 : list event) :
  pool_map_calls (t1 ++ t2) = pool_map_calls t1 ++ pool_map_calls t2.
Proof. unfold pool_map_calls. apply flat_map_app. Qed.

Section Loops.
Variable optimizer : Type.
Variable suggest : optimizer -> params * optimizer.
Variable observe : optimizer -> params -> Q -> optimizer.
Variable training_stats : Type.
Variable train_and_eval_on_split :
  value -> option gpus_arg -> option Q ->
  result (training_stats * eval_stats).
Variable output_feature : string.
Variable metric : string.

(** With the default batch size a batch has exactly one sample. *)
Lemma default_batch_is_single (s s' : strategy optimizer)
    (sampled : list params) :
  sample_batch suggest default_batch_size s = (s', Ok sampled) ->
  List.length sampled = 1%nat.
Proof.
  unfold sample_batch, default_batch_size. simpl.
  destruct (sample suggest s) as [s1 [x|e]].
  - intros H. inversion H. reflexivity.
  - destruct e; discriminate.
Qed.

(** The new trials go behind those already in [hyperopt_parameters]. *)
Lemma append_trials_parameters (md : value) (gpus : option gpus_arg)
    (limit : option Q) (sampled : list params) :
  forall hp hp1,
    append_trials md gpus limit sampled hp = Ok hp1 ->
    map hd_parameters hp1 = map hd_parameters hp ++ sampled.
Proof.
  induction sampled as [|p sampled IH]; intros hp hp1 H; simpl in H.
  - inversion H. rewrite app_nil_r. reflexivity.
  - destruct (Substitution.substitute_parameters md p); [|discriminate].
    simpl in H. rewrite (IH _ _ H), map_app. simpl.
    rewrite <- app_assoc. reflexivity.
Qed.

(** In every run of the parallel loop, each [pool.map] call dispatches
    again all the trials of the call before it. *)
Lemma parallel_loop_redispatches (fuel : nat) (md : value)
    (gpus : option gpus_arg) (limit : option Q) :
  forall queue hp s rs trace r,
    parallel_loop suggest observe train_and_eval_on_split output_feature
      metric fuel md gpus limit queue hp s rs trace = Some r ->
    exists calls,
      pool_map_calls (run_trace r) = pool_map_calls trace ++ calls
      /\ redispatching (map hd_parameters hp) calls.
Proof.
  induction fuel as [|fuel IH]; intros queue hp s rs trace r H;
    simpl in H; [discriminate|].
  destruct (finished s).
  { inversion H; subst. exists []. rewrite app_nil_r. split; simpl; auto. }
  destruct (sample_batch suggest default_batch_size s)
    as [s1 [sampled|e]].
  2:{ inversion H; subst. exists []. rewrite app_nil_r.
      split; simpl; auto. }
  destruct (append_trials md gpus limit sampled hp) as [hp1|e] eqn:Ea.
  2:{ inversion H; subst. exists []. simpl.
      rewrite pool_map_calls_app, !app_nil_r. split; simpl; auto. }
  pose proof (append_trials_parameters _ _ _ _ _ Ea) as Hp.
  destruct (pool_map _ queue hp1) as [[queue1 [batch|e]]|];
    [| |discriminate].
  - apply IH in H. destruct H as [calls [Hc Hr]].
    exists (map hd_parameters hp1 :: calls). split.
    + rewrite Hc, !pool_map_calls_app. simpl.
      rewrite !app_nil_r, <- app_assoc. reflexivity.
    + simpl. split; [exists sampled; exact Hp | exact Hr].
  - inversion H; subst. exists [map hd_parameters hp1]. simpl. split.
    + rewrite !pool_map_calls_app. simpl. rewrite !app_nil_r.
      reflexivity.
    + split; [exists sampled; exact Hp | exact I].
Qed.

(** Observations do not change how many samples are left. *)
Lemma remaining_update_batch (obs : list (params * Q)) :
  forall s : strategy optimizer,
    remaining (update_batch observe s obs) = remaining s.
Proof.
  unfold update_batch.
  induction obs as [|o obs IH]; intros s; simpl; [reflexivity|].
  rewrite IH. destruct s; reflexivity.
Qed.

(** While the strategy is not finished, a default batch is one new
    sample and leaves one sample less. *)
Lemma default_batch_not_finished (s : strategy optimizer) :
  finished s = false ->
  exists s' x, sample_batch suggest default_batch_size s = (s', Ok [x])
               /\ S (remaining s') = remaining s.
Proof.
  intros Hf.
  destruct (StrategyFacts.sample_not_finished suggest s Hf)
    as [s' [x [Hs Hr]]].
  exists s', x. split; [|exact Hr].
  unfold sample_batch, default_batch_size. simpl. rewrite Hs. reflexivity.
Qed.

(** A worker that never blocks lets [pool.map] return. *)
Lemma pool_map_returns {W A R} (worker : W -> A -> option (W * result R))
    (items : list A) :
  (forall w x, worker w x <> None) ->
  forall w, pool_map worker w items <> None.
Proof.
  intros Hw. unfold pool_map.
  assert (H : forall w, run_all worker w items <> None).
  { induction items as [|x items IH]; intros w; simpl; [discriminate|].
    destruct (worker w x) as [[w1 o]|] eqn:E; [|destruct (Hw w x E)].
    specialize (IH w1). destruct (run_all worker w1 items) as [[w2 os]|];
      [discriminate | destruct (IH eq_refl)]. }
  intros w. specialize (H w).
  destruct (run_all worker w items) as [[w' outs]|];
    [discriminate | destruct (H eq_refl)].
Qed.

(** The serial loop returns as soon as the fuel exceeds the number of
    samples that are left. *)
Lemma serial_loop_returns (fuel : nat) (md : value)
    (gpus : option gpus_arg) (limit : option Q) :
  forall s rs trace,
    (remaining s < fuel)%nat ->
    serial_loop suggest observe train_and_eval_on_split output_feature
      metric fuel md gpus limit s rs trace <> None.
Proof.
  induction fuel as [|fuel IH]; intros s rs trace Hlt; [lia|].
  simpl. destruct (finished s) eqn:Hf; [discriminate|].
  destruct (default_batch_not_finished s Hf) as [s1 [x [Hb Hr]]].
  rewrite Hb.
  destruct (mapM _ [x]) as [trials|e]; [|discriminate].
  apply IH. rewrite remaining_update_batch. lia.
Qed.

(** So does the fiber loop. *)
Lemma fiber_loop_returns (fuel : nat) (md : value)
    (gpus : option gpus_arg) (limit : option Q) :
  forall s rs trace,
    (remaining s < fuel)%nat ->
    fiber_loop suggest observe train_and_eval_on_split output_feature
      metric fuel md gpus limit s rs trace <> None.
Proof.
  induction fuel as [|fuel IH]; intros s rs trace Hlt; [lia|].
  simpl. destruct (finished s) eqn:Hf; [discriminate|].
  destruct (default_batch_not_finished s Hf) as [s1 [x [Hb Hr]]].
  rewrite Hb.
  destruct (mapM _ [x]) as [definitions|e]; [|discriminate].
  pose proof (@pool_map_returns unit value _
                (fiber_worker train_and_eval_on_split gpus limit)
                definitions) as Hp.
  destruct (pool_map _ tt definitions) as [[u [stats|e]]|] eqn:Ep.
  - destruct (mapM _ (combine stats [x])) as [trials|e]; [|discriminate].
    apply IH. rewrite remaining_update_batch. lia.
  - discriminate.
  - exfalso. apply (Hp ltac:(intros w y; discriminate) tt). exact Ep.
Qed.

(** And the parallel loop when no device is in play. *)
Lemma parallel_loop_returns (fuel : nat) (md : value)
    (gpus : option gpus_arg) (limit : option Q) :
  forall hp s rs trace,
    (remaining s < fuel)%nat ->
    parallel_loop suggest observe train_and_eval_on_split output_feature
      metric fuel md gpus limit None hp s rs trace <> None.
Proof.
  induction fuel as [|fuel IH]; intros hp s rs trace Hlt; [lia|].
  simpl. destruct (finished s) eqn:Hf; [discriminate|].
  destruct (default_batch_not_finished s Hf) as [s1 [x [Hb Hr]]].
  rewrite Hb.
  destruct (append_trials md gpus limit [x] hp) as [hp1|e];
    [|discriminate].
  assert (Hrun : forall items,
             run_all (parallel_worker train_and_eval_on_split
                        output_feature metric) None items
             = Some (None,
                     map (train_and_eval_model train_and_eval_on_split
                            output_feature metric) items)).
  { induction items as [|y items IHi]; [reflexivity|].
    simpl. rewrite IHi. reflexivity. }
  unfold pool_map. rewrite Hrun.
  destruct (mapM _ _) as [batch|e]; [|discriminate].
  apply IH. rewrite remaining_update_batch. lia.
Qed.

Lemma sampled_batches_app (t1 t2 : list event) :
  sampled_batches (t1 ++ t2) = sampled_batches t1 ++ sampled_batches t2.
Proof. unfold sampled_batches. apply flat_map_app. Qed.

Lemma update_batches_app (t1 t2 : list event) :
  update_batches (t1 ++ t2) = update_batches t1 ++ update_batches t2.
Proof. unfold update_batches. apply flat_map_app. Qed.

Lemma mapM_length {A B} (f : A -> result B) (l : list A) :
  forall l', mapM f l = Ok l' -> List.length l' = List.length l.
Proof.
  induction l as [|x l IH]; intros l' H; simpl in H.
  - inversion H. reflexivity.
  - destruct (f x); [|discriminate]. simpl in H.
    destruct (mapM f l); [|discriminate]. simpl in H.
    inversion H. simpl. f_equal. apply IH. reflexivity.
Qed.

(** In every run of the fiber loop, the [pool.map] calls dispatch the
    sampled batches, one batch per call and in order (a last batch may
    have been sampled without being dispatched, when the run ends
    there), and each update of the strategy carries as many
    observations as that batch has samples. *)
Lemma fiber_loop_dispatches_batches (fuel : nat) (md : value)
    (gpus : option gpus_arg) (limit : option Q) :
  forall s rs trace r,
    fiber_loop suggest observe train_and_eval_on_split output_feature
      metric fuel md gpus limit s rs trace = Some r ->
    exists calls last updates,
      pool_map_calls (run_trace r) = pool_map_calls trace ++ calls
      /\ sampled_batches (run_trace r)
         = sampled_batches trace ++ calls ++ last
      /\ (List.length last <= 1)%nat
      /\ update_batches (run_trace r) = update_batches trace ++ updates
      /\ Forall (fun obs => List.length obs = 1%nat) updates.
Proof.
  induction fuel as [|fuel IH]; intros s rs trace r H; simpl in H;
    [discriminate|].
  destruct (finished s).
  { inversion H; subst. exists [], [], []. simpl.
    rewrite !app_nil_r. repeat split; auto. }
  destruct (sample_batch suggest default_batch_size s)
    as [s1 [sampled|e]] eqn:Eb.
  2:{ inversion H; subst. exists [], [], []. simpl.
      rewrite !app_nil_r. repeat split; auto. }
  pose proof (default_batch_is_single _ Eb) as Hone.
  destruct (mapM _ sampled) as [definitions|e] eqn:Ed.
  2:{ inversion H; subst. exists [], [sampled], []. simpl.
      rewrite pool_map_calls_app, sampled_batches_app,
        update_batches_app. simpl. rewrite !app_nil_r.
      repeat split; auto. }
  pose proof (mapM_length _ _ Ed) as Hdefs.
  destruct (pool_map _ tt definitions) as [[u [stats|e]]|] eqn:Ep;
    [| |discriminate].
  - destruct (mapM _ (combine stats sampled)) as [trials|e] eqn:Et.
    + apply IH in H. destruct H as [calls [last [ups [Hc [Hs [Hl [Hu Hf]]]]]]].
      exists (sampled :: calls), last,
        (observations trials :: ups).
      rewrite Hc, Hs, Hu.
      rewrite !pool_map_calls_app, !sampled_batches_app,
        !update_batches_app. simpl. rewrite !app_nil_r.
      rewrite <- !app_assoc. simpl.
      split; [reflexivity|]. split; [reflexivity|].
      split; [exact Hl|]. split; [reflexivity|].
      constructor; [|exact Hf].
      unfold observations. rewrite length_map.
      rewrite (mapM_length _ _ Et), length_combine.
      assert (Hst : List.length stats = List.length definitions).
      { unfold pool_map in Ep.
        destruct (run_all _ tt definitions) as [[u' outs]|] eqn:Er;
          [|discriminate].
        inversion Ep as [[Hu' Hm]].
        rewrite (mapM_length _ _ Hm).
        clear - Er. revert u' outs Er.
        generalize tt as u0.
        induction definitions as [|d ds IHd]; intros u0 u' outs Er;
          simpl in Er.
        - inversion Er. reflexivity.
        - destruct (run_all _ tt ds) as [[u2 os]|] eqn:Er2;
            [|discriminate].
          inversion Er; subst. simpl. f_equal.
          destruct u0. eapply IHd. exact Er2. }
      rewrite Hst, Hdefs, Hone. reflexivity.
    + inversion H; subst. exists [sampled], [], []. simpl.
      rewrite !pool_map_calls_app, !sampled_batches_app,
        !update_batches_app. simpl. rewrite !app_nil_r.
      repeat split; auto.
  - inversion H; subst. exists [sampled], [], []. simpl.
    rewrite !pool_map_calls_app, !sampled_batches_app,
      !update_batches_app. simpl. rewrite !app_nil_r.
    repeat split; auto.
Qed.

(** In every run of the serial loop each update of the strategy
    carries the observation of a single trial. *)
Lemma serial_loop_updates_singly (fuel : nat) (md : value)
    (gpus : option gpus_arg) (limit : option Q) :
  forall s rs trace r,
    serial_loop suggest observe train_and_eval_on_split output_feature
      metric fuel md gpus limit s rs trace = Some r ->
    exists updates,
      update_batches (run_trace r) = update_batches trace ++ updates
      /\ Forall (fun obs => List.length obs = 1%nat) updates.
Proof.
  induction fuel as [|fuel IH]; intros s rs trace r H; simpl in H;
    [discriminate|].
  destruct (finished s).
  { inversion H; subst. exists []. rewrite app_nil_r. split; auto. }
  destruct (sample_batch suggest default_batch_size s)
    as [s1 [sampled|e]] eqn:Eb.
  2:{ inversion H; subst. exists []. rewrite app_nil_r. split; auto. }
  pose proof (default_batch_is_single _ Eb) as Hone.
  destruct (mapM _ sampled) as [trials|e] eqn:Et.
  - apply IH in H. destruct H as [ups [Hu Hf]].
    exists (observations trials :: ups). rewrite Hu.
    rewrite !update_batches_app. simpl.
    assert (E : update_batches (map (fun p => EvTrain p) sampled) = []).
    { clear. induction sampled; [reflexivity|exact IHsampled]. }
    rewrite E. simpl. rewrite !app_nil_r, <- app_assoc. simpl.
    split; [reflexivity|]. constructor; [|exact Hf].
    unfold observations. rewrite length_map, (mapM_length _ _ Et).
    exact Hone.
  - inversion H; subst. exists []. simpl.
    rewrite update_batches_app. simpl. rewrite !app_nil_r. split; auto.
Qed.

(** With devices declared and the device tool failing, the parallel
    executor ends at once with the error of the memory query. *)
Lemma parallel_execute_without_tool (fuel : nat) (num_workers : Z)
    (epsilon : Q) (available_gpus : list string) (e : exn)
    (md : value) (g : gpus_arg) (limit : option Q)
    (s : strategy optimizer) :
  parallel_execute suggest observe train_and_eval_on_split
    output_feature metric fuel num_workers epsilon available_gpus
    (Raise e) md (Some g) limit s
  = Some (mkRun s [] (Raise UnboundLocalError)).
Proof.
  unfold parallel_execute, setup_gpus_and_queue.
  destruct g; reflexivity.
Qed.
End Loops.

Import Scenario.

(** C1 does not hold of the parallel executor. On a grid of two
    configurations the strategy is asked for two batches, one
    configuration each, but the second [pool.map] call dispatches both
    configurations: the first one is trained twice and appears twice in
    the results. The fiber executor, on the same search, dispatches each
    sampled batch once. *)
Theorem parallel_executor_dispatches_again :
  sampled_batches (trace_of parallel_run) = [[p64]; [p128]]
  /\ pool_map_calls (trace_of parallel_run) = [[p64]; [p64; p128]]
  /\ scores_of parallel_run = [64; 64; 128]%Q
  /\ pool_map_calls (trace_of fiber_run) = [[p64]; [p128]]
  /\ scores_of fiber_run = [64; 128]%Q.
Proof. vm_compute. repeat split; reflexivity. Qed.

(** C10 does not hold of the parallel executor. Every executor samples
    batches of one configuration, and the serial and fiber executors
    update the strategy with one observation after each trial; but the
    parallel executor, whose second [pool.map] call runs two trials,
    then updates the strategy with two observations at once. *)
Theorem parallel_executor_updates_in_bulk :
  (sampled_batches (trace_of serial_run) = [[p64]; [p128]]
   /\ sampled_batches (trace_of parallel_run) = [[p64]; [p128]]
   /\ sampled_batches (trace_of fiber_run) = [[p64]; [p128]])
  /\ update_batches (trace_of serial_run)
     = [[(p64, 64%Q)]; [(p128, 128%Q)]]
  /\ update_batches (trace_of fiber_run)
     = [[(p64, 64%Q)]; [(p128, 128%Q)]]
  /\ pool_map_calls (trace_of parallel_run) = [[p64]; [p64; p128]]
  /\ update_batches (trace_of parallel_run)
     = [[(p64, 64%Q)]; [(p64, 64%Q); (p128, 128%Q)]].
Proof. vm_compute. repeat split; reflexivity. Qed.

End ExecutorFacts.

Module Witnesses.

Import Config Strategy Executor Scenario.
Open Scope string_scope.


(** A batch of three from a strategy with two samples left. *)
Lemma sample_batch_exhaustion_witness :
  (1 <= 3)%Z
  /\ exists s',
       sample_batch suggest 3 (Random unit random_two)
       = (s', Ok [p64; p128])
       /\ finished s' = true
       /\ sample_batch suggest 3 s' = (s', Raise IndexError).
Proof.
  assert (Hb : (1 <= 3)%Z) by (intro H; discriminate H).
  split; [exact Hb|].
  exists (Random unit (mkRandom MINIMIZE 2 [p64; p128] 2)).
  destruct (@StrategyFacts.sample_batch_exhaustion unit suggest
              (Random unit random_two) 3 Hb) as [_ H].
  destruct (H 2%nat [p64; p128]
              (Random unit (mkRandom MINIMIZE 2 [p64; p128] 2)) IndexError
              (le_S 1 1 (le_n 1)) eq_refl eq_refl eq_refl)
    as [H1 [_ [H3 H4]]].
  split; [exact H1|]. split; [exact H3 | exact H4].
Defined.

(** Three trials, the second of which fails, on a queue of two slots. *)
Lemma gpu_slot_always_returned_witness :
  slots <> []
  /\ exists queue' outcomes,
       run_all (train_and_eval_model_gpu flaky_train "combined" "loss")
         slots trials
       = Some (queue', outcomes)
       /\ Permutation queue' slots
       /\ List.length queue' = List.length slots
       /\ List.length outcomes = List.length trials.
Proof.
  assert (Hne : slots <> []) by (intro H; discriminate H).
  split; [exact Hne|].
  exact (proj1 (proj2 (@GpuWorkerFacts.gpu_slot_always_returned unit
                         flaky_train "combined" "loss" slots trials Hne))).
Defined.

Lemma two_parameters_nodup : NoDup (Dict.keys two_parameters).
Proof.
  constructor.
  - intros [H|[]]. discriminate H.
  - constructor; [intros []|constructor].
Defined.

(** The grid over a parameter with two candidates and one with three. *)
Lemma grid_strategy_enumerates_witness :
  NoDup (Dict.keys two_parameters)
  /\ exists st,
       GridStrategy_init GridFunctions.TowardZero np_logspace np_geomspace
         MINIMIZE two_parameters = Ok st
       /\ List.length (grid_samples st)
          = PyList.prod_lengths (map snd (grid_search_space st))
       /\ List.length (grid_samples st) = 6%nat.
Proof.
  split; [exact two_parameters_nodup|].
  destruct (GridStrategy_init GridFunctions.TowardZero np_logspace
              np_geomspace MINIMIZE two_parameters) as [st|e] eqn:E;
    [|discriminate E].
  exists st. split; [reflexivity|].
  pose proof (@GridStrategyFacts.grid_strategy_enumerates
                GridFunctions.TowardZero np_logspace np_geomspace unit
                suggest MINIMIZE two_parameters st two_parameters_nodup E)
    as [_ [_ [_ [_ [Hlen _]]]]].
  split; [exact Hlen|].
  vm_compute in E. inversion E. reflexivity.
Defined.


Lemma scenario_complete :
  Substitution.complete_definition definition_entries training_section.
Proof.
  unfold Substitution.complete_definition.
  split; [|split; [|split; [|split]]].
  - eexists. split; [reflexivity|]. constructor; [|constructor].
    eexists _, _. split; [reflexivity|]. split; [reflexivity|].
    intro H; discriminate H.
  - eexists. split; [reflexivity|]. constructor; [|constructor].
    eexists _, _. split; [reflexivity|]. split; [reflexivity|].
    intro H; discriminate H.
  - eexists. reflexivity.
  - reflexivity.
  - eexists. reflexivity.
Defined.

(** The example of the specification: batch size 32 becomes 64. *)
Lemma substitute_batch_size_witness :
  exists md' tr',
    Substitution.substitute_parameters model_definition
      Substitution.batch_size_64 = Ok (VDict md')
    /\ Dict.get "training" md' = Some (VDict tr')
    /\ Dict.get "batch_size" tr' = Some (VInt 64)
    /\ Dict.keys md' = Dict.keys definition_entries
    /\ Dict.keys tr' = Dict.keys training_section
    /\ (forall k, k <> "training" ->
                  Dict.get k md' = Dict.get k definition_entries)
    /\ (forall k, k <> "batch_size" ->
                  Dict.get k tr' = Dict.get k training_section)
    /\ Substitution.substitute_parameters (VDict md')
         Substitution.batch_size_64 = Ok (VDict md').
Proof.
  exact (@SubstitutionFacts.substitute_batch_size definition_entries
           training_section (VInt 32) scenario_complete eq_refl).
Defined.

End Witnesses.

Module GridFunctionsMore.

Import GridFunctions GridFunctionsFacts.
Open Scope Q_scope.







Section FloatGrid.
Variable np_logspace : Q -> Q -> Z -> Q -> result (list Q).
Variable np_geomspace : Q -> Q -> Z -> result (list Q).

Abbreviation float_grid :=
  (float_grid_function np_logspace np_geomspace).


End FloatGrid.



End GridFunctionsMore.
Module StrategyMore.

Import Config Strategy Notions.

Section Facts.
Variable optimizer : Type.
Variable suggest : optimizer -> params * optimizer.
Variable observe : optimizer -> params -> Q -> optimizer.
Abbreviation strategy := (Strategy.strategy optimizer).

Lemma pending_step (s : strategy) :
  stateless s = true -> finished s = false ->
  exists x s', sample suggest s = (s', Ok x)
               /\ pending_samples s = x :: pending_samples s'
               /\ stateless s' = true.
Proof.
  destruct s as [g|r|p]; simpl; intros Hs Hf; try discriminate Hs;
    rewrite Hf; apply Nat.leb_gt in Hf.
  - destruct (nth_error (grid_samples g) (grid_sampled_so_far g))
      as [x|] eqn:E; [|apply nth_error_None in E; lia].
    eexists _, _. split; [reflexivity|]. simpl.
    rewrite Nat.add_1_r. split; [|reflexivity].
    apply GridStrategyFacts.skipn_nth_error. exact E.
  - destruct (nth_error (random_samples r) (random_sampled_so_far r))
      as [x|] eqn:E; [|apply nth_error_None in E; lia].
    eexists _, _. split; [reflexivity|]. simpl.
    rewrite Nat.add_1_r. split; [|reflexivity].
    apply GridStrategyFacts.skipn_nth_error. exact E.
Qed.

Lemma pending_finished (s : strategy) :
  finished s = true -> pending_samples s = [].
Proof.
  destruct s as [g|r|p]; simpl; intros Hf; try reflexivity;
    apply Nat.leb_le in Hf; apply skipn_all2; exact Hf.
Qed.

Lemma update_batch_stateless (s : strategy) (obs : list (params * Q)) :
  stateless s = true -> update_batch observe s obs = s.
Proof.
  unfold update_batch. intros Hs.
  induction obs as [|o obs IH]; [reflexivity|].
  simpl. destruct s as [g|r|p]; try discriminate Hs; exact IH.
Qed.

Lemma sample_goal (s s' : strategy) (o : result params) :
  sample suggest s = (s', o) -> strategy_goal s' = strategy_goal s.
Proof.
  destruct s as [g|r|p]; simpl.
  - destruct (_ <=? _)%nat; [intros H; inversion H; reflexivity|].
    destruct (nth_error _ _); intros H; inversion H; reflexivity.
  - destruct (_ <=? _)%nat; [intros H; inversion H; reflexivity|].
    destruct (nth_error _ _); intros H; inversion H; reflexivity.
  - destruct (_ <=? _)%Z; [intros H; inversion H; reflexivity|].
    destruct (suggest _). intros H; inversion H; reflexivity.
Qed.

(** One default batch of a grid or random strategy that is not
    exhausted: the next unused sample. *)
Lemma default_batch_step (s : strategy) :
  stateless s = true -> finished s = false ->
  exists x s1,
    sample_batch suggest default_batch_size s = (s1, Ok [x])
    /\ pending_samples s = x :: pending_samples s1
    /\ stateless s1 = true
    /\ S (remaining s1) = remaining s
    /\ strategy_goal s1 = strategy_goal s.
Proof.
  intros Hs Hf.
  destruct (@pending_step s Hs Hf) as [x [s1 [Hx [Hp Hs1]]]].
  destruct (StrategyFacts.sample_not_finished suggest s Hf)
    as [s1' [x' [Hx' Hr]]].
  rewrite Hx in Hx'. inversion Hx'; subst s1' x'.
  exists x, s1. split.
  { unfold sample_batch, default_batch_size. simpl. rewrite Hx.
    reflexivity. }
  split; [exact Hp|]. split; [exact Hs1|]. split; [exact Hr|].
  exact (sample_goal _ Hx).
Qed.

Lemma take_samples_available (k : nat) :
  forall s : strategy,
    (k <= remaining s)%nat ->
    exists xs s',
      take_samples suggest k s = Some (xs, s')
      /\ List.length xs = k
      /\ (remaining s' = remaining s - k)%nat
      /\ (stateless s = true ->
          stateless s' = true
          /\ pending_samples s = xs ++ pending_samples s').
Proof.
  induction k as [|k IH]; intros s Hk.
  - exists [], s. simpl. repeat split; auto. lia.
  - assert (Hf : finished s = false).
    { destruct (finished s) eqn:E; [|reflexivity].
      apply StrategyFacts.finished_remaining in E. lia. }
    destruct (StrategyFacts.sample_not_finished suggest s Hf)
      as [s1 [x [Hs Hr]]].
    destruct (IH s1 ltac:(lia)) as [xs [s' [Ht [Hl [Hr' Hst]]]]].
    exists (x :: xs), s'. simpl. rewrite Hs, Ht.
    split; [reflexivity|]. split; [simpl; congruence|].
    split; [lia|].
    intros Hsl. destruct (pending_step s Hsl Hf) as [x' [s1' [Hs' [Hp Hsl']]]].
    rewrite Hs in Hs'. inversion Hs'; subst x' s1'.
    destruct (Hst Hsl') as [Hsl'' Hp'].
    split; [exact Hsl''|]. rewrite Hp, Hp'. reflexivity.
Qed.

Lemma take_samples_too_many (k : nat) :
  forall s : strategy,
    (remaining s < k)%nat -> take_samples suggest k s = None.
Proof.
  induction k as [|k IH]; intros s Hk; [lia|].
  simpl. destruct (finished s) eqn:Hf.
  - rewrite (StrategyFacts.sample_finished suggest s Hf). reflexivity.
  - destruct (StrategyFacts.sample_not_finished suggest s Hf)
      as [s1 [x [Hs Hr]]].
    rewrite Hs, IH by lia. reflexivity.
Qed.

(** X5. Every strategy returns exactly as many samples as it has left
    (the unused grid points, the unused pre-generated draws, the
    proposals up to [num_samples]): that many calls of [sample()] in a
    row return, the strategy is then finished, and one call more fails.
    For the grid and random strategies the samples returned are the
    unused ones, in their stored order. *)
Theorem strategy_yields_remaining (s : strategy) :
  exists xs s',
    take_samples suggest (remaining s) s = Some (xs, s')
    /\ List.length xs = remaining s
    /\ finished s' = true
    /\ take_samples suggest (S (remaining s)) s = None
    /\ (if stateless s then xs = pending_samples s else True).
Proof.
  destruct (@take_samples_available (remaining s) s (le_n _))
    as [xs [s' [Ht [Hl [Hr Hst]]]]].
  assert (Hf : finished s' = true).
  { apply StrategyFacts.finished_remaining. lia. }
  exists xs, s'. split; [exact Ht|]. split; [exact Hl|].
  split; [exact Hf|]. split; [apply take_samples_too_many; lia|].
  destruct (stateless s) eqn:E; [|exact I].
  destruct (Hst eq_refl) as [_ Hp].
  rewrite Hp, (@pending_finished s' Hf), app_nil_r. reflexivity.
Qed.

(** X6. When at least [batch_size] samples are left, [sample_batch]
    returns exactly the next [batch_size] samples and leaves that many
    fewer; in particular a batch size of zero or less returns the empty
    list and leaves the strategy alone, also when it is exhausted. *)
Theorem sample_batch_full (s : strategy) (batch_size : Z) :
  (Z.to_nat batch_size <= remaining s)%nat ->
  exists xs s',
    sample_batch suggest batch_size s = (s', Ok xs)
    /\ take_samples suggest (Z.to_nat batch_size) s = Some (xs, s')
    /\ List.length xs = Z.to_nat batch_size
    /\ (remaining s' = remaining s - Z.to_nat batch_size)%nat
    /\ ((batch_size <= 0)%Z -> xs = [] /\ s' = s).
Proof.
  intros Hk.
  destruct (@take_samples_available _ s Hk) as [xs [s' [Ht [Hl [Hr _]]]]].
  exists xs, s'. split; [|split; [exact Ht|split; [exact Hl|split]]].
  - unfold sample_batch.
    rewrite (@StrategyFacts.sample_batch_loop_take optimizer suggest
               (Z.to_nat batch_size) (Z.to_nat batch_size) s s' [] xs Ht);
      [reflexivity | lia | lia].
  - exact Hr.
  - intros Hb. replace (Z.to_nat batch_size) with 0%nat in Ht by lia.
    simpl in Ht. inversion Ht. auto.
Qed.

(** X7. Telling a strategy about observations never changes how many
    samples it has left, whether it is finished, or its goal. For the
    grid and random strategies [update_batch] changes nothing at all;
    for the surrogate strategy it feeds the observations to the
    optimizer one by one, in the order given. *)
Theorem update_batch_effect (s : strategy) (obs : list (params * Q)) :
  remaining (update_batch observe s obs) = remaining s
  /\ finished (update_batch observe s obs) = finished s
  /\ strategy_goal (update_batch observe s obs) = strategy_goal s
  /\ match s with
     | Grid _ _ | Random _ _ => update_batch observe s obs = s
     | PySOT p =>
         update_batch observe s obs
         = PySOT (mkPySOT (pysot_goal p)
                    (fold_left
                       (fun o pm => observe o (fst pm) (snd pm))
                       obs (pysot_optimizer p))
                    (pysot_sampled_so_far p) (pysot_num_samples p))
     end.
Proof.
  unfold update_batch.
  assert (H : match s with
              | Grid _ _ | Random _ _ =>
                  fold_left (fun s0 pm => update observe s0 (fst pm)
                                            (snd pm)) obs s = s
              | PySOT p =>
                  fold_left (fun s0 pm => update observe s0 (fst pm)
                                            (snd pm)) obs s
                  = PySOT (mkPySOT (pysot_goal p)
                             (fold_left
                                (fun o pm => observe o (fst pm) (snd pm))
                                obs (pysot_optimizer p))
                             (pysot_sampled_so_far p)
                             (pysot_num_samples p))
              end).
  { revert s. induction obs as [|o obs IH]; intros s.
    - destruct s as [g|r|p]; try reflexivity. destruct p; reflexivity.
    - destruct s as [g|r|p]; simpl.
      + exact (IH (Grid optimizer g)).
      + exact (IH (Random optimizer r)).
      + exact (IH (PySOT _)). }
  destruct s as [g|r|p]; rewrite H; repeat split; reflexivity.
Qed.

End Facts.

End StrategyMore.
Module RankingMore.

Import Config Strategy Executor.

Section Ranking.
Variable training_stats : Type.
Abbreviation TrialResult := (Executor.TrialResult training_stats).


End Ranking.

End RankingMore.
Module ExecutorMore.

Import Config Strategy Executor Notions.

Lemma cumulative_length {R} (rs : list R) :
  forall earlier : list R,
    (2 * List.length (cumulative earlier rs)
     = List.length rs * (2 * List.length earlier + List.length rs + 1))%nat.
Proof.
  induction rs as [|r rs IH]; intros earlier; [reflexivity|].
  cbn [cumulative]. rewrite !length_app.
  specialize (IH (earlier ++ [r])). rewrite length_app in IH.
  cbn [List.length] in *. nia.
Qed.

Section Loops.
Variable optimizer : Type.
Variable suggest : optimizer -> params * optimizer.
Variable observe : optimizer -> params -> Q -> optimizer.
Variable training_stats : Type.
Variable train_and_eval_on_split :
  value -> option gpus_arg -> option Q ->
  result (training_stats * eval_stats).
Variable output_feature : string.
Variable metric : string.

Abbreviation one_trial :=
  (serial_trial train_and_eval_on_split output_feature metric).

(** What the serial loop computes on a grid or random strategy. *)
Lemma serial_loop_stateless (fuel : nat) (md : value)
    (gpus : option gpus_arg) (limit : option Q) :
  forall (s : strategy optimizer) acc trace,
    stateless s = true -> (remaining s < fuel)%nat ->
    exists r,
      serial_loop suggest observe train_and_eval_on_split output_feature
        metric fuel md gpus limit s acc trace = Some r
      /\ run_result r
         = (rs <- mapM (one_trial md gpus limit) (pending_samples s) ;;
            Ok (sort_hyperopt_results (strategy_goal s) (acc ++ rs)))
      /\ (is_ok (run_result r) = true
          -> finished (run_strategy r) = true).
Proof.
  induction fuel as [|fuel IH]; intros s acc trace Hs Hlt; [lia|].
  cbn [serial_loop]. destruct (finished s) eqn:Hf.
  - eexists. split; [reflexivity|]. cbn [run_result run_strategy].
    rewrite (@StrategyMore.pending_finished _ s Hf). cbn [mapM bind].
    rewrite app_nil_r. split; [reflexivity | intros _; exact Hf].
  - destruct (@StrategyMore.default_batch_step _ suggest s Hs Hf)
      as [x [s1 [Hb [Hp [Hs1 [Hr Hg]]]]]].
    rewrite Hb, Hp. cbn [mapM].
    destruct (one_trial md gpus limit x) as [y|e]; cbn [bind].
    + rewrite (@StrategyMore.update_batch_stateless _ observe s1 _ Hs1).
      destruct (IH s1 (acc ++ [y])
                  ((trace ++ [EvSampleBatch default_batch_size [x]])
                   ++ map (fun p => EvTrain p) [x]
                   ++ [EvUpdateBatch (observations [y])])
                  Hs1 ltac:(lia))
        as [r [Hrun [Hres Hfin]]].
      exists r. split; [exact Hrun|]. split; [|exact Hfin].
      rewrite Hres, Hg.
      destruct (mapM (one_trial md gpus limit) (pending_samples s1));
        cbn [bind]; [rewrite <- app_assoc|]; reflexivity.
    + eexists. split; [reflexivity|]. cbn [run_result].
      split; [reflexivity | discriminate].
Qed.

(** X9. On a grid or random strategy the serial executor trains the
    samples that are still unused, one after the other in their stored
    order. It returns once the fuel exceeds their number. If a trial
    fails (substitution, training or the metric lookup), the run ends
    with the error of the first failing trial and no later sample is
    tried; otherwise the run ends with the strategy finished and
    returns the trial results sorted by score for the strategy's
    goal. *)
Theorem serial_execute_stateless (fuel : nat) (md : value)
    (gpus : option gpus_arg) (limit : option Q)
    (s : strategy optimizer) :
  stateless s = true -> (remaining s < fuel)%nat ->
  exists r,
    serial_execute suggest observe train_and_eval_on_split output_feature
      metric fuel md gpus limit s = Some r
    /\ run_result r
       = (rs <- mapM (one_trial md gpus limit) (pending_samples s) ;;
          Ok (sort_hyperopt_results (strategy_goal s) rs))
    /\ (is_ok (run_result r) = true -> finished (run_strategy r) = true).
Proof.
  intros Hs Hlt. unfold serial_execute.
  exact (@serial_loop_stateless fuel md gpus limit s [] [] Hs Hlt).
Qed.

Lemma fiber_loop_serial (fuel : nat) (md : value)
    (gpus : option gpus_arg) (limit : option Q) :
  forall (s : strategy optimizer) acc t1 t2,
    option_map outcome_of
      (fiber_loop suggest observe train_and_eval_on_split output_feature
         metric fuel md gpus limit s acc t1)
    = option_map outcome_of
        (serial_loop suggest observe train_and_eval_on_split
           output_feature metric fuel md gpus limit s acc t2).
Proof.
  induction fuel as [|fuel IH]; intros s acc t1 t2; [reflexivity|].
  cbn [fiber_loop serial_loop]. destruct (finished s); [reflexivity|].
  destruct (sample_batch suggest default_batch_size s)
    as [s1 [sampled|e]] eqn:Eb; [|reflexivity].
  pose proof (@ExecutorFacts.default_batch_is_single _ suggest _ _ _ Eb)
    as Hone.
  destruct sampled as [|x [|x' rest]]; try discriminate Hone.
  cbn [mapM]. unfold serial_trial.
  destruct (Substitution.substitute_parameters md x) as [md'|e];
    cbn [bind]; [|reflexivity].
  unfold pool_map. cbn [run_all]. unfold fiber_worker. cbn [mapM].
  destruct (train_and_eval_on_split md' gpus limit) as [stats|e];
    cbn [bind]; [|reflexivity].
  cbn [combine mapM]. unfold fiber_result. cbn [fst snd].
  destruct (get_metric_score output_feature metric (snd stats))
    as [score|e]; cbn [bind]; [|reflexivity].
  apply IH.
Qed.

(** X10. The fiber executor and the serial executor compute the same
    thing: for every strategy, model definition and train/evaluate
    collaborator, the two runs end with the same strategy state and the
    same outcome, the same sorted results or the same error, and with
    enough fuel both return. (The collaborator is a function of its
    arguments here; the traces differ, as one dispatches to a pool.) *)
Theorem fiber_execute_as_serial (fuel : nat) (md : value)
    (gpus : option gpus_arg) (limit : option Q)
    (s : strategy optimizer) :
  option_map outcome_of
    (fiber_execute suggest observe train_and_eval_on_split output_feature
       metric fuel md gpus limit s)
  = option_map outcome_of
      (serial_execute suggest observe train_and_eval_on_split
         output_feature metric fuel md gpus limit s)
  /\ ((remaining s < fuel)%nat ->
      exists r,
        fiber_execute suggest observe train_and_eval_on_split
          output_feature metric fuel md gpus limit s = Some r).
Proof.
  split; [apply fiber_loop_serial|].
  intros Hlt. unfold fiber_execute.
  pose proof (@ExecutorFacts.fiber_loop_returns _ suggest observe _
                train_and_eval_on_split output_feature metric fuel md
                gpus limit s [] [] Hlt) as H.
  destruct (fiber_loop _ _ _ _ _ _ _ _ _ _ _ _) as [r|];
    [exists r; reflexivity | destruct (H eq_refl)].
Qed.

Lemma trained_trials_app (t1 t2 : list event) :
  trained_trials (t1 ++ t2) = trained_trials t1 ++ trained_trials t2.
Proof. unfold trained_trials. apply flat_map_app. Qed.

Lemma trained_trials_train (l : list params) :
  trained_trials (map (fun p => EvTrain p) l) = l.
Proof.
  induction l as [|p l IH]; [reflexivity|].
  cbn [map trained_trials flat_map app] in *.
  unfold trained_trials in IH. rewrite IH. reflexivity.
Qed.

Lemma sampled_batches_train (l : list params) :
  sampled_batches (map (fun p => EvTrain p) l) = [].
Proof. induction l as [|p l IH]; [reflexivity | exact IH]. Qed.

(** In a serial run the trained configurations are the sampled ones,
    in order; [last] is a batch whose trial failed. *)
Lemma serial_loop_trains_samples (fuel : nat) (md : value)
    (gpus : option gpus_arg) (limit : option Q) :
  forall (s : strategy optimizer) acc trace r,
    serial_loop suggest observe train_and_eval_on_split output_feature
      metric fuel md gpus limit s acc trace = Some r ->
    exists new last,
      trained_trials (run_trace r) = trained_trials trace ++ new
      /\ List.concat (sampled_batches (run_trace r))
         = List.concat (sampled_batches trace) ++ new ++ last
      /\ (is_ok (run_result r) = true -> last = []).
Proof.
  induction fuel as [|fuel IH]; intros s acc trace r H;
    cbn [serial_loop] in H; [discriminate|].
  destruct (finished s).
  { inversion H; subst. exists [], []. cbn [run_trace].
    rewrite !app_nil_r. repeat split. }
  destruct (sample_batch suggest default_batch_size s)
    as [s1 [sampled|e]].
  2:{ inversion H; subst. exists [], []. cbn [run_trace].
      rewrite !app_nil_r. repeat split. }
  destruct (mapM _ sampled) as [rs|e].
  - apply IH in H. destruct H as [new [last [Ht [Hs Hl]]]].
    exists (sampled ++ new), last.
    rewrite Ht, Hs.
    rewrite !trained_trials_app, !ExecutorFacts.sampled_batches_app.
    rewrite trained_trials_train, sampled_batches_train.
    cbn [trained_trials sampled_batches flat_map app].
    rewrite !app_nil_r, !concat_app. cbn [List.concat].
    rewrite !app_nil_r, <- !app_assoc.
    split; [reflexivity|]. split; [reflexivity | exact Hl].
  - inversion H; subst. exists [], sampled. cbn [run_trace run_result].
    rewrite trained_trials_app, ExecutorFacts.sampled_batches_app.
    cbn [trained_trials sampled_batches flat_map app].
    rewrite !app_nil_r, concat_app. cbn [List.concat].
    rewrite !app_nil_r.
    split; [reflexivity|]. split; [reflexivity | discriminate].
Qed.

(** In a fiber run the dispatched batches are the sampled ones, in
    order; [last] is a batch whose substitution failed. *)
Lemma fiber_loop_dispatches_samples (fuel : nat) (md : value)
    (gpus : option gpus_arg) (limit : option Q) :
  forall (s : strategy optimizer) acc trace r,
    fiber_loop suggest observe train_and_eval_on_split output_feature
      metric fuel md gpus limit s acc trace = Some r ->
    exists calls last,
      pool_map_calls (run_trace r) = pool_map_calls trace ++ calls
      /\ sampled_batches (run_trace r)
         = sampled_batches trace ++ calls ++ last
      /\ Forall (fun c => List.length c = 1%nat) calls
      /\ (is_ok (run_result r) = true -> last = []).
Proof.
  induction fuel as [|fuel IH]; intros s acc trace r H;
    cbn [fiber_loop] in H; [discriminate|].
  destruct (finished s).
  { inversion H; subst. exists [], []. cbn [run_trace].
    rewrite !app_nil_r. repeat split. constructor. }
  destruct (sample_batch suggest default_batch_size s)
    as [s1 [sampled|e]] eqn:Eb.
  2:{ inversion H; subst. exists [], []. cbn [run_trace].
      rewrite !app_nil_r. repeat split. constructor. }
  pose proof (@ExecutorFacts.default_batch_is_single _ suggest _ _ _ Eb)
    as Hone.
  destruct (mapM _ sampled) as [definitions|e].
  2:{ inversion H; subst. exists [], [sampled].
      cbn [run_trace run_result].
      rewrite ExecutorFacts.pool_map_calls_app,
        ExecutorFacts.sampled_batches_app.
      cbn [pool_map_calls sampled_batches flat_map app].
      rewrite !app_nil_r.
      split; [reflexivity|]. split; [reflexivity|].
      split; [constructor | discriminate]. }
  assert (Hstep : forall t,
             pool_map_calls
               (((trace ++ [EvSampleBatch default_batch_size sampled])
                 ++ [EvPoolMap sampled]) ++ t)
             = pool_map_calls trace ++ [sampled] ++ pool_map_calls t
             /\ sampled_batches
                  (((trace ++ [EvSampleBatch default_batch_size sampled])
                    ++ [EvPoolMap sampled]) ++ t)
                = sampled_batches trace ++ [sampled]
                  ++ sampled_batches t).
  { intros t.
    rewrite !ExecutorFacts.pool_map_calls_app,
      !ExecutorFacts.sampled_batches_app.
    cbn [pool_map_calls sampled_batches flat_map app].
    rewrite !app_nil_r, <- !app_assoc. split; reflexivity. }
  assert (Hend : forall (s' : strategy optimizer) e,
             exists calls last,
               pool_map_calls
                 (run_trace
                    (mkRun s'
                       ((trace
                         ++ [EvSampleBatch default_batch_size sampled])
                        ++ [EvPoolMap sampled])
                       (@Raise (list (TrialResult training_stats)) e)))
               = pool_map_calls trace ++ calls
               /\ sampled_batches
                    (run_trace
                       (mkRun s'
                          ((trace
                            ++ [EvSampleBatch default_batch_size
                                  sampled])
                           ++ [EvPoolMap sampled])
                          (@Raise (list (TrialResult training_stats))
                             e)))
                  = sampled_batches trace ++ calls ++ last
               /\ Forall (fun c => List.length c = 1%nat) calls
               /\ (is_ok (run_result
                            (mkRun s'
                               ((trace
                                 ++ [EvSampleBatch default_batch_size
                                       sampled])
                                ++ [EvPoolMap sampled])
                               (@Raise
                                  (list (TrialResult training_stats))
                                  e))) = true
                   -> last = [])).
  { intros s' e. exists [sampled], []. cbn [run_trace run_result].
    destruct (Hstep []) as [H1 H2]. rewrite !app_nil_r in H1, H2.
    rewrite H1, H2. cbn [pool_map_calls sampled_batches flat_map app].
    split; [reflexivity|]. split; [reflexivity|].
    split; [repeat constructor; exact Hone | discriminate]. }
  destruct (pool_map _ tt definitions) as [[u [stats|e]]|];
    [| |discriminate].
  - destruct (mapM _ (combine stats sampled)) as [rs|e].
    + apply IH in H. destruct H as [calls [last [Hc [Hs [Hf Hl]]]]].
      exists (sampled :: calls), last.
      destruct (Hstep [EvUpdateBatch (observations rs)]) as [H1 H2].
      rewrite Hc, Hs, H1, H2.
      cbn [pool_map_calls sampled_batches flat_map app].
      rewrite <- !app_assoc. cbn [app].
      split; [reflexivity|]. split; [reflexivity|].
      split; [constructor; [exact Hone | exact Hf] | exact Hl].
    + inversion H; subst. apply Hend.
  - inversion H; subst. apply Hend.
Qed.

(** X11. The serial and the fiber executor run every sampled
    configuration once. In every serial run the configurations
    trained are the sampled ones, in the order sampled; in every fiber
    run the batches given to [pool.map] are the sampled batches, in
    order, one configuration each. A run that ends with an error may
    have sampled one last batch that it did not get to train or
    dispatch; a run that returns results has none. (The parallel
    executor is different: it dispatches earlier trials again.) *)
Theorem serial_and_fiber_run_samples_once (fuel : nat) (md : value)
    (gpus : option gpus_arg) (limit : option Q)
    (s : strategy optimizer) :
  (forall r,
      serial_execute suggest observe train_and_eval_on_split
        output_feature metric fuel md gpus limit s = Some r ->
      exists last,
        List.concat (sampled_batches (run_trace r))
        = trained_trials (run_trace r) ++ last
        /\ (is_ok (run_result r) = true -> last = []))
  /\ (forall r,
        fiber_execute suggest observe train_and_eval_on_split
          output_feature metric fuel md gpus limit s = Some r ->
        exists last,
          sampled_batches (run_trace r)
          = pool_map_calls (run_trace r) ++ last
          /\ Forall (fun c => List.length c = 1%nat)
               (pool_map_calls (run_trace r))
          /\ (is_ok (run_result r) = true -> last = [])).
Proof.
  split; intros r H.
  - destruct (@serial_loop_trains_samples fuel md gpus limit s [] [] r H)
      as [new [last [Ht [Hs Hl]]]].
    exists last. rewrite Ht, Hs. split; [reflexivity | exact Hl].
  - destruct (@fiber_loop_dispatches_samples fuel md gpus limit s [] []
                r H) as [calls [last [Hc [Hs [Hf Hl]]]]].
    exists last. rewrite Hc, Hs.
    split; [reflexivity|]. split; [exact Hf | exact Hl].
Qed.

Abbreviation pool_trial :=
  (train_and_eval_model train_and_eval_on_split output_feature metric).
Abbreviation pool_worker :=
  (parallel_worker train_and_eval_on_split output_feature metric).

Lemma run_all_no_queue (items : list hyperopt_dict) :
  run_all pool_worker None items = Some (None, map pool_trial items).
Proof.
  induction items as [|y items IH]; [reflexivity|].
  cbn [run_all parallel_worker map]. rewrite IH. reflexivity.
Qed.

Lemma mapM_outcomes {A} (earlier : list A) (o : result A) :
  mapM (fun r : result A => r) (map Ok earlier ++ [o])
  = (y <- o ;; Ok (earlier ++ [y])).
Proof.
  induction earlier as [|a earlier IH]; cbn [map app mapM bind].
  - destruct o; reflexivity.
  - rewrite IH. destruct o; reflexivity.
Qed.

(** What the parallel loop computes without devices on a grid or
    random strategy: [earlier] are the results of the trials that
    [hyperopt_parameters] already holds. *)
Lemma parallel_loop_stateless (fuel : nat) (md : value)
    (gpus : option gpus_arg) (limit : option Q) :
  forall hp earlier (s : strategy optimizer) acc trace,
    stateless s = true -> (remaining s < fuel)%nat ->
    map pool_trial hp = map Ok earlier ->
    exists r,
      parallel_loop suggest observe train_and_eval_on_split
        output_feature metric fuel md gpus limit None hp s acc trace
      = Some r
      /\ run_result r
         = (rs <- mapM (one_trial md gpus limit) (pending_samples s) ;;
            Ok (sort_hyperopt_results (strategy_goal s)
                  (acc ++ cumulative earlier rs)))
      /\ (is_ok (run_result r) = true
          -> finished (run_strategy r) = true).
Proof.
  induction fuel as [|fuel IH]; intros hp earlier s acc trace Hs Hlt Hhp;
    [lia|].
  cbn [parallel_loop]. destruct (finished s) eqn:Hf.
  - eexists. split; [reflexivity|]. cbn [run_result run_strategy].
    rewrite (@StrategyMore.pending_finished _ s Hf).
    cbn [mapM bind cumulative].
    rewrite app_nil_r. split; [reflexivity | intros _; exact Hf].
  - destruct (@StrategyMore.default_batch_step _ suggest s Hs Hf)
      as [x [s1 [Hb [Hp [Hs1 [Hr Hg]]]]]].
    rewrite Hb, Hp. cbn [mapM append_trials]. unfold serial_trial.
    destruct (Substitution.substitute_parameters md x) as [md'|e];
      cbn [bind].
    2:{ eexists. split; [reflexivity|]. cbn [run_result].
        split; [reflexivity | discriminate]. }
    unfold pool_map. rewrite run_all_no_queue, map_app, Hhp.
    cbn [map]. rewrite mapM_outcomes.
    unfold train_and_eval_model at 1.
    cbn [hd_model_definition hd_gpus hd_gpu_memory_limit hd_parameters].
    destruct (train_and_eval_on_split md' gpus limit) as [stats|e]
      eqn:Etrain; cbn [bind].
    2:{ eexists. split; [reflexivity|]. cbn [run_result].
        split; [reflexivity | discriminate]. }
    destruct (get_metric_score output_feature metric (snd stats))
      as [score|e] eqn:Escore; cbn [bind].
    2:{ eexists. split; [reflexivity|]. cbn [run_result].
        split; [reflexivity | discriminate]. }
    rewrite (@StrategyMore.update_batch_stateless _ observe s1 _ Hs1).
    set (y := mkResult x score (fst stats) (snd stats)).
    set (hp1 := hp ++ [mkTrial x md' gpus limit]).
    assert (Hhp1 : map pool_trial hp1 = map Ok (earlier ++ [y])).
    { unfold hp1. rewrite !map_app, Hhp. cbn [map]. f_equal.
      unfold train_and_eval_model.
      cbn [hd_model_definition hd_gpus hd_gpu_memory_limit
             hd_parameters].
      rewrite Etrain. cbn [bind]. rewrite Escore. reflexivity. }
    destruct (IH hp1 (earlier ++ [y]) s1 (acc ++ earlier ++ [y])
                (((trace ++ [EvSampleBatch default_batch_size [x]])
                  ++ [EvPoolMap (map hd_parameters hp1)])
                 ++ [EvUpdateBatch (observations (earlier ++ [y]))])
                Hs1 ltac:(lia) Hhp1)
      as [r [Hrun [Hres Hfin]]].
    exists r. split; [exact Hrun|]. split; [|exact Hfin].
    rewrite Hres, Hg.
    destruct (mapM _ (pending_samples s1)) as [rs|e]; cbn [bind];
      [|reflexivity].
    cbn [cumulative]. rewrite <- !app_assoc. reflexivity.
Qed.

(** X12. Without devices the parallel executor, on a grid or random
    strategy, goes through the unused samples in order and stops at the
    first failing trial with its error, as the serial executor does;
    but because every [pool.map] call runs again all the trials
    dispatched so far, its result list holds the result of the first
    trial, then those of the first two, and so on, sorted by score:
    [n (n + 1) / 2] results for [n] samples. *)
Theorem parallel_execute_accumulates (fuel : nat) (num_workers : Z)
    (epsilon : Q) (check_output : result string) (md : value)
    (limit : option Q) (s : strategy optimizer) :
  stateless s = true -> (remaining s < fuel)%nat ->
  exists r,
    parallel_execute suggest observe train_and_eval_on_split
      output_feature metric fuel num_workers epsilon [] check_output md
      None limit s
    = Some r
    /\ run_result r
       = (rs <- mapM (one_trial md None limit) (pending_samples s) ;;
          Ok (sort_hyperopt_results (strategy_goal s)
                (cumulative [] rs)))
    /\ (is_ok (run_result r) = true -> finished (run_strategy r) = true)
    /\ forall rs : list (TrialResult training_stats),
         (2 * List.length (sort_hyperopt_results (strategy_goal s)
                             (cumulative [] rs))
          = List.length rs * (List.length rs + 1))%nat.
Proof.
  intros Hs Hlt. unfold parallel_execute, setup_gpus_and_queue.
  cbn [option_map setup_gpus setup_queue setup_gpu_memory_limit].
  destruct (@parallel_loop_stateless fuel md None limit [] [] s [] []
              Hs Hlt eq_refl) as [r [Hrun [Hres Hfin]]].
  exists r. split; [exact Hrun|]. split; [exact Hres|].
  split; [exact Hfin|].
  intros rs. unfold sort_hyperopt_results.
  rewrite (Permutation_length (PyListFacts.sorted_perm _ _ _ _)).
  rewrite cumulative_length. cbn [List.length]. lia.
Qed.

Abbreviation gpu_worker :=
  (train_and_eval_model_gpu train_and_eval_on_split output_feature
     metric).

Lemma run_all_queue (items : list hyperopt_dict) :
  forall q,
    run_all pool_worker (Some q) items
    = match run_all gpu_worker q items with
      | Some (q', outs) => Some (Some q', outs)
      | None => None
      end.
Proof.
  induction items as [|y items IH]; intros q; [reflexivity|].
  cbn [run_all parallel_worker].
  destruct (gpu_worker q y) as [[q1 o]|]; [|reflexivity].
  rewrite IH. destruct (run_all gpu_worker q1 items) as [[q2 os]|];
    reflexivity.
Qed.

(** With a slot in the queue the loop returns. *)
Lemma parallel_loop_gpu_returns (fuel : nat) (md : value)
    (gpus : option gpus_arg) (limit : option Q) :
  forall q hp (s : strategy optimizer) acc trace,
    q <> [] -> (remaining s < fuel)%nat ->
    parallel_loop suggest observe train_and_eval_on_split output_feature
      metric fuel md gpus limit (Some q) hp s acc trace <> None.
Proof.
  induction fuel as [|fuel IH]; intros q hp s acc trace Hq Hlt; [lia|].
  cbn [parallel_loop]. destruct (finished s) eqn:Hf; [discriminate|].
  destruct (@ExecutorFacts.default_batch_not_finished _ suggest s Hf)
    as [s1 [x [Hb Hr]]].
  rewrite Hb.
  destruct (append_trials md gpus limit [x] hp) as [hp1|e];
    [|discriminate].
  unfold pool_map. rewrite run_all_queue.
  destruct (@GpuWorkerFacts.run_all_keeps_slots _
              train_and_eval_on_split output_feature metric hp1 q Hq)
    as [q' [outs [Hrun [Hperm _]]]].
  rewrite Hrun.
  destruct (mapM _ outs) as [batch|e]; [|discriminate].
  apply IH.
  - intros ->. apply Permutation_nil in Hperm.
    exact (Hq Hperm).
  - rewrite (@ExecutorFacts.remaining_update_batch _ observe). lia.
Qed.

(** With no slot in the queue the first dispatch never returns. *)
Lemma parallel_loop_blocks (fuel : nat) (md md' : value)
    (gpus : option gpus_arg) (limit : option Q)
    (hp : list hyperopt_dict) (s s1 : strategy optimizer) (x : params)
    acc trace :
  finished s = false ->
  sample suggest s = (s1, Ok x) ->
  Substitution.substitute_parameters md x = Ok md' ->
  parallel_loop suggest observe train_and_eval_on_split output_feature
    metric fuel md gpus limit (Some []) hp s acc trace = None.
Proof.
  intros Hf Hx Hsub. destruct fuel as [|fuel]; [reflexivity|].
  cbn [parallel_loop]. rewrite Hf.
  unfold sample_batch, default_batch_size.
  change (Z.to_nat 1) with 1%nat. cbn [sample_batch_loop].
  rewrite Hx. cbn [app append_trials]. rewrite Hsub. cbn [bind].
  unfold pool_map.
  destruct hp as [|h hp]; reflexivity.
Qed.

(** X13. Once devices are in play, whether the parallel executor's
    loop returns depends on the slot queue alone: for a strategy with a
    sample left whose substitution succeeds, the loop never returns,
    whatever the fuel, exactly when the queue holds no slot (the first
    [queue.get()] waits for ever); with at least one slot it returns
    as soon as the fuel exceeds the number of samples left. *)
Theorem parallel_loop_blocks_iff_no_slot (fuel : nat) (md md' : value)
    (gpus : option gpus_arg) (limit : option Q)
    (queue : list gpu_id_meta) (hp : list hyperopt_dict)
    (s s1 : strategy optimizer) (x : params)
    (acc : list (TrialResult training_stats)) (trace : list event) :
  finished s = false ->
  sample suggest s = (s1, Ok x) ->
  Substitution.substitute_parameters md x = Ok md' ->
  (remaining s < fuel)%nat ->
  (parallel_loop suggest observe train_and_eval_on_split output_feature
     metric fuel md gpus limit (Some queue) hp s acc trace = None
   <-> queue = [])
  /\ (queue = [] ->
      forall more : nat,
        parallel_loop suggest observe train_and_eval_on_split
          output_feature metric more md gpus limit (Some queue) hp s acc
          trace = None).
Proof.
  intros Hf Hx Hsub Hlt. split; [split|].
  - intros Hnone. destruct queue as [|slot rest]; [reflexivity|].
    exfalso.
    apply (@parallel_loop_gpu_returns fuel md gpus limit (slot :: rest)
             hp s acc trace); [discriminate | exact Hlt | exact Hnone].
  - intros ->. exact (@parallel_loop_blocks fuel md md' gpus limit hp s
                        s1 x acc trace Hf Hx Hsub).
  - intros -> more.
    exact (@parallel_loop_blocks more md md' gpus limit hp s s1 x acc
             trace Hf Hx Hsub).
Qed.

End Loops.

End ExecutorMore.
Module GpuSetupMore.

Import Config Strategy Executor.
Open Scope Q_scope.

Lemma const_meta_loop (m : gpu_meta) (gpu_ids : list string) :
  forall acc, exists metas,
    gpu_ids_meta_loop (fun _ => Ok m) gpu_ids acc = Ok metas.
Proof.
  induction gpu_ids as [|gpu_id rest IH]; intros acc.
  - exists acc. reflexivity.
  - cbn [gpu_ids_meta_loop bind]. apply IH.
Qed.

(** The queue loop when every listed device has the same entry with one
    process. *)
Lemma fill_queue_single (metas : Dict.dict gpu_meta) (limit : option Q)
    (gpu_ids : list string) :
  (forall gpu_id, In gpu_id gpu_ids ->
     Dict.get gpu_id metas = Some (mkMeta limit 1)) ->
  forall queue,
    fill_queue metas gpu_ids queue limit
    = Ok (queue ++ map (fun gpu_id => mkSlot gpu_id limit) gpu_ids, limit).
Proof.
  induction gpu_ids as [|gpu_id rest IH]; intros Hall queue.
  - cbn [fill_queue map]. rewrite app_nil_r. reflexivity.
  - cbn [fill_queue]. unfold Dict.lookup.
    rewrite (Hall gpu_id (or_introl eq_refl)). cbn [bind].
    cbn [meta_gpu_memory_limit meta_process_per_gpu].
    change (Z.to_nat 1) with 1%nat. cbn [repeat].
    rewrite IH by (intros k Hk; apply Hall; right; exact Hk).
    cbn [map]. rewrite <- app_assoc. reflexivity.
Qed.

(** The device list that [execute] works with when [gpus] is given. *)
Lemma setup_with_gpus (num_workers : Z) (epsilon : Q)
    (available_gpus : list string) (check_output : result string)
    (gpus : gpus_arg) (limit : option Q) :
  setup_gpus_and_queue num_workers epsilon available_gpus check_output
    (Some gpus) limit
  = (let g := PyStr.strip (match gpus with
                           | GpusInt n => str_of_int n
                           | GpusStr s => s
                           end) in
     let gpu_ids := PyStr.split_on "," g in
     available_gpu_memory_list <-
       snd (GpuMemory.get_available_gpu_memory check_output) ;;
     gpu_ids_meta <- build_gpu_ids_meta num_workers epsilon limit
                       available_gpu_memory_list gpu_ids ;;
     ql <- fill_queue gpu_ids_meta gpu_ids [] limit ;;
     Ok (mkSetup (Some g) (Some (fst ql)) (snd ql))).
Proof. destruct gpus; reflexivity. Qed.

(** X14. With at least as many listed devices as workers, the device
    setup of the parallel executor succeeds as soon as the memory query
    does, and the queue holds exactly one slot per listed device, in the
    order of the list, each with the caller's memory limit. The list is
    [gpus] stripped and split at commas, an integer being read as its
    decimal text, so as one device id; the ids are neither parsed nor
    compared with the devices that the query reported, and an id listed
    twice gets two slots. *)
Theorem dedicated_devices_queue (num_workers : Z) (epsilon : Q)
    (available_gpus : list string) (check_output : result string)
    (gpus : gpus_arg) (limit : option Q) (memory_list : list Z) :
  let g := PyStr.strip (match gpus with
                        | GpusInt n => str_of_int n
                        | GpusStr s => s
                        end) in
  let gpu_ids := PyStr.split_on "," g in
  snd (GpuMemory.get_available_gpu_memory check_output) = Ok memory_list ->
  (num_workers <= Z.of_nat (List.length gpu_ids))%Z ->
  setup_gpus_and_queue num_workers epsilon available_gpus check_output
    (Some gpus) limit
  = Ok (mkSetup (Some g)
          (Some (map (fun gpu_id => mkSlot gpu_id limit) gpu_ids))
          limit).
Proof.
  intros g gpu_ids Hmem Hle. rewrite setup_with_gpus.
  cbv zeta. fold g. fold gpu_ids. rewrite Hmem. cbn [bind].
  unfold build_gpu_ids_meta.
  destruct (Z.ltb_spec (Z.of_nat (List.length gpu_ids)) num_workers);
    [lia|].
  destruct (const_meta_loop (mkMeta limit 1) gpu_ids []) as [metas Hm].
  rewrite Hm. cbn [bind].
  destruct (MemoryFacts.gpu_ids_meta_loop_spec _ _ _ Hm) as [Hspec _].
  rewrite (@fill_queue_single metas limit gpu_ids).
  - reflexivity.
  - intros k Hk. destruct (Hspec k Hk) as [m [Hm1 Hm2]].
    inversion Hm1; subst m. exact Hm2.
Qed.


(** What the shared-device loop stores for a listed device. *)
Lemma shared_meta_entry (num_workers : Z) (epsilon : Q)
    (limit : option Q) (memory_list : list Z) (gpu_ids : list string)
    (metas : Dict.dict gpu_meta) :
  (Z.of_nat (List.length gpu_ids) < num_workers)%Z ->
  build_gpu_ids_meta num_workers epsilon limit memory_list gpu_ids
  = Ok metas ->
  forall gpu_id, In gpu_id gpu_ids ->
    exists idx available,
      PyStr.py_int gpu_id = Ok idx
      /\ PyList.index memory_list idx = Ok available
      /\ let l := new_gpu_memory_limit
                    (fraction (Z.of_nat (List.length gpu_ids)) num_workers
                       epsilon)
                    num_workers limit available in
         ~ l == 0
         /\ Dict.get gpu_id metas
            = Some (mkMeta (Some l)
                      (Qtrunc (inject_Z available / l))).
Proof.
  intros Hlt Hbuild gpu_id Hin. unfold build_gpu_ids_meta in Hbuild.
  destruct (Z.ltb_spec (Z.of_nat (List.length gpu_ids)) num_workers);
    [|lia].
  destruct (MemoryFacts.gpu_ids_meta_loop_spec _ _ _ Hbuild) as [Hspec _].
  destruct (Hspec gpu_id Hin) as [m [Hm Hget]].
  unfold shared_gpu_meta in Hm.
  destruct (PyStr.py_int gpu_id) as [idx|] eqn:Eidx; [|discriminate].
  cbn [bind] in Hm.
  destruct (PyList.index memory_list idx) as [available|] eqn:Eav;
    [|discriminate].
  cbn [bind] in Hm.
  exists idx, available. split; [reflexivity|]. split; [exact Eav|].
  cbv zeta.
  set (l := new_gpu_memory_limit _ num_workers limit available) in *.
  destruct (Qeq_dec l 0) as [Hz|Hnz].
  - rewrite (MemoryFacts.process_per_gpu_zero available Hz) in Hm.
    discriminate.
  - rewrite (MemoryFacts.process_per_gpu_ok available Hnz) in Hm.
    cbn [bind] in Hm. inversion Hm; subst m. split; assumption.
Qed.


(** ** The memory that the queue hands out *)

Abbreviation slots_for metas :=
  (fun gpu_id : string =>
     match Dict.get gpu_id metas with
     | Some m => repeat (mkSlot gpu_id (meta_gpu_memory_limit m))
                   (Z.to_nat (meta_process_per_gpu m))
     | None => []
     end).








Lemma Qtrunc_nonpos (q : Q) : q <= 0 -> (Qtrunc q <= 0)%Z.
Proof.
  intros H. unfold Qtrunc. destruct (Qnum q <? 0)%Z.
  - change 0%Z with (Qceiling 0). apply Qceiling_resp_le. exact H.
  - change 0%Z with (Qfloor 0). apply Qfloor_resp_le. exact H.
Qed.

(** The queue loop adds nothing for devices without a process. *)
Lemma fill_queue_no_process (metas : Dict.dict gpu_meta)
    (gpu_ids : list string) :
  (forall gpu_id, In gpu_id gpu_ids ->
     exists m, Dict.get gpu_id metas = Some m
               /\ (meta_process_per_gpu m <= 0)%Z) ->
  forall queue limit ql,
    fill_queue metas gpu_ids queue limit = Ok ql -> fst ql = queue.
Proof.
  induction gpu_ids as [|gpu_id rest IH]; intros Hall queue limit ql H.
  - cbn [fill_queue] in H. inversion H. reflexivity.
  - cbn [fill_queue] in H. unfold Dict.lookup in H.
    destruct (Hall gpu_id (or_introl eq_refl)) as [m [Hm Hp]].
    rewrite Hm in H. cbn [bind] in H.
    replace (Z.to_nat (meta_process_per_gpu m)) with 0%nat in H by lia.
    cbn [repeat] in H. rewrite app_nil_r in H.
    apply (IH ltac:(intros k Hk; apply Hall; right; exact Hk) _ _ _ H).
Qed.

(** Devices with less free memory than the reserve of 100 per worker get
    a negative limit and no process. *)
Lemma starved_device_no_process (num_gpus num_workers : Z) (epsilon : Q)
    (available : Z) :
  (1 <= num_gpus < num_workers)%Z -> 0 <= epsilon ->
  (0 <= available < 100 * num_workers)%Z ->
  let l := new_gpu_memory_limit (fraction num_gpus num_workers epsilon)
             num_workers None available in
  l < 0 /\ (Qtrunc (inject_Z available / l) <= 0)%Z.
Proof.
  intros Hgw He [Ha0 Ha]. cbv zeta.
  pose proof (MemoryFacts.fraction_below_one Hgw He) as Hf.
  unfold new_gpu_memory_limit, TF_REQUIRED_MEMORY_PER_WORKER.
  set (f := fraction num_gpus num_workers epsilon) in *.
  assert (Ha' : 0 <= inject_Z available).
  { change 0 with (inject_Z 0). rewrite <- Zle_Qle. exact Ha0. }
  assert (Hb : inject_Z available < 100 * inject_Z num_workers).
  { change 100 with (inject_Z 100). rewrite <- inject_Z_mult.
    rewrite <- Zlt_Qlt. exact Ha. }
  assert (H1 : f * inject_Z available <= 1 * inject_Z available).
  { apply Qmult_le_compat_r; [lra | exact Ha']. }
  assert (Hl : f * inject_Z available - 100 * inject_Z num_workers < 0)
    by lra.
  split; [exact Hl|].
  apply Qtrunc_nonpos.
  set (l := f * inject_Z available - 100 * inject_Z num_workers) in *.
  assert (Hq : inject_Z available / l == - (inject_Z available / (- l))).
  { field. lra. }
  rewrite Hq.
  assert (0 <= inject_Z available / - l).
  { apply Qle_shift_div_l; lra. }
  lra.
Qed.

Section Starved.
Variable optimizer : Type.
Variable suggest : optimizer -> params * optimizer.
Variable observe : optimizer -> params -> Q -> optimizer.
Variable training_stats : Type.
Variable train_and_eval_on_split :
  value -> option gpus_arg -> option Q ->
  result (training_stats * eval_stats).
Variable output_feature : string.
Variable metric : string.

(** X17. Devices that are short of memory make the parallel executor
    wait for ever instead of failing. When fewer devices than workers
    are listed, no memory limit is given and every device reports less
    free memory than 100 per worker, then, if the device setup
    succeeds at all, the queue it builds holds no slot, and for a
    strategy with a sample left whose substitution succeeds
    [execute] never returns, whatever the fuel. *)
Theorem starved_devices_block (num_workers : Z) (epsilon : Q)
    (available_gpus : list string) (check_output : result string)
    (g : string) (memory_list : list Z) (md md' : value)
    (s s1 : strategy optimizer) (x : params) (setup : gpu_setup) :
  snd (GpuMemory.get_available_gpu_memory check_output)
  = Ok memory_list ->
  Forall (fun a => (0 <= a < 100 * num_workers)%Z) memory_list ->
  (Z.of_nat (List.length (PyStr.split_on "," (PyStr.strip g)))
   < num_workers)%Z ->
  0 <= epsilon ->
  finished s = false ->
  sample suggest s = (s1, Ok x) ->
  Substitution.substitute_parameters md x = Ok md' ->
  setup_gpus_and_queue num_workers epsilon available_gpus check_output
    (Some (GpusStr g)) None = Ok setup ->
  setup_queue setup = Some []
  /\ forall fuel : nat,
       parallel_execute suggest observe train_and_eval_on_split
         output_feature metric fuel num_workers epsilon available_gpus
         check_output md (Some (GpusStr g)) None s
       = None.
Proof.
  intros Hmem Hall Hlt He Hf Hx Hsub Hsetup.
  assert (Hq : setup_queue setup = Some []).
  { rewrite setup_with_gpus in Hsetup. cbv zeta in Hsetup.
    rewrite Hmem in Hsetup. cbn [bind] in Hsetup.
    set (gpu_ids := PyStr.split_on "," (PyStr.strip g)) in *.
    destruct (build_gpu_ids_meta num_workers epsilon None memory_list
                gpu_ids) as [metas|] eqn:Eb; [|discriminate].
    cbn [bind] in Hsetup.
    destruct (fill_queue metas gpu_ids [] None) as [ql|] eqn:Eq;
      [|discriminate].
    cbn [bind] in Hsetup. inversion Hsetup; subst setup.
    cbn [setup_queue]. f_equal.
    apply (@fill_queue_no_process metas gpu_ids) with (limit := None);
      [|exact Eq].
    intros k Hk.
    destruct (shared_meta_entry _ _ _ _ Hlt Eb k Hk)
      as [idx [available [_ [Hav [_ Hget]]]]].
    eexists. split; [exact Hget|]. cbn [meta_process_per_gpu].
    apply starved_device_no_process.
    - destruct gpu_ids; [contradiction|]. cbn [List.length] in *. lia.
    - exact He.
    - rewrite Forall_forall in Hall. apply Hall.
      eapply MemoryFacts.index_in. exact Hav. }
  split; [exact Hq|].
  intros fuel. unfold parallel_execute. rewrite Hsetup, Hq.
  exact (@ExecutorMore.parallel_loop_blocks _ suggest observe _
           train_and_eval_on_split output_feature metric fuel md md'
           _ _ [] s s1 x [] [] Hf Hx Hsub).
Qed.
End Starved.

End GpuSetupMore.
Module PyStrMore.

Import Notions.
Open Scope string_scope.

Lemma split_on_no_sep (c : ascii) (t : string) :
  count_char c t = 0%nat -> PyStr.split_on c t = [t].
Proof.
  induction t as [|x t IH]; [reflexivity|].
  cbn [count_char PyStr.split_on].
  destruct (Ascii.eqb x c); [discriminate|].
  intros H. rewrite (IH H). reflexivity.
Qed.

Lemma split_on_line (c : ascii) (l rest : string) :
  count_char c l = 0%nat ->
  PyStr.split_on c (l ++ String c rest) = l :: PyStr.split_on c rest.
Proof.
  induction l as [|x l IH].
  - intros _. cbn [append PyStr.split_on]. rewrite Ascii.eqb_refl.
    reflexivity.
  - cbn [count_char append PyStr.split_on].
    destruct (Ascii.eqb x c); [discriminate|].
    intros H. rewrite (IH H). reflexivity.
Qed.

Lemma split_on_nonempty (c : ascii) (s : string) :
  PyStr.split_on c s <> [].
Proof.
  destruct s as [|x s]; cbn [PyStr.split_on]; [discriminate|].
  destruct (Ascii.eqb x c); [discriminate|].
  destruct (PyStr.split_on c s); discriminate.
Qed.

(** A dotted name of two parts. *)
Lemma split_on_two (c : ascii) (a b : string) :
  count_char c a = 0%nat -> count_char c b = 0%nat ->
  PyStr.split_on c (a ++ String c b) = [a; b].
Proof.
  intros Ha Hb.
  rewrite (@split_on_line _ _ _ Ha), (@split_on_no_sep _ _ Hb).
  reflexivity.
Qed.

End PyStrMore.

Module GpuMemoryMore.

Import GpuMemory Notions.
Open Scope string_scope.



End GpuMemoryMore.
Module SubstitutionMore.

Import Config Substitution Notions.
Open Scope string_scope.

(** ** The nested form of a parameter mapping *)

Lemma insert_path_more (x y : string) (r : list string) (v : value)
    (d : Dict.dict value) :
  insert_path (x :: y :: r) v d
  = match match Dict.get x d with Some z => z | None => VDict [] end with
    | VDict dd =>
        d' <- insert_path (y :: r) v dd ;;
        Ok (Dict.set x (VDict d') d)
    | _ => match r with
           | [] => Raise TypeError
           | _ :: _ => Raise AttributeError
           end
    end.
Proof. reflexivity. Qed.

Lemma lookup_path_more (x y : string) (r : list string)
    (d : Dict.dict value) :
  lookup_path (x :: y :: r) d
  = match Dict.get x d with
    | Some (VDict d') => lookup_path (y :: r) d'
    | _ => None
    end.
Proof. reflexivity. Qed.

Lemma lookup_path_empty (names : list string) : lookup_path names [] = None.
Proof. destruct names as [|x [|y r]]; reflexivity. Qed.

Lemma lookup_path_head (y : string) (b : list string)
    (d d' : Dict.dict value) :
  Dict.get y d' = Dict.get y d ->
  lookup_path (y :: b) d' = lookup_path (y :: b) d.
Proof.
  intros H. destruct b as [|y2 b2].
  - exact H.
  - rewrite !lookup_path_more, H. reflexivity.
Qed.

Lemma is_ok_bind {A B} (c : result A) (f : A -> B) :
  is_ok (x <- c ;; Ok (f x)) = is_ok c.
Proof. destruct c; reflexivity. Qed.

Lemma insert_path_ok_head (y : string) (b : list string) (w : value)
    (d d' : Dict.dict value) :
  Dict.get y d' = Dict.get y d ->
  is_ok (insert_path (y :: b) w d') = is_ok (insert_path (y :: b) w d).
Proof.
  intros H. destruct b as [|y2 b2]; [reflexivity|].
  rewrite !insert_path_more, H.
  destruct (match Dict.get y d with Some z => z | None => VDict [] end);
    try reflexivity.
  rewrite !is_ok_bind. reflexivity.
Qed.

(** The walk changes the entry of its first name only. *)
Lemma insert_path_top (x : string) (a : list string) (v : value)
    (d d' : Dict.dict value) :
  insert_path (x :: a) v d = Ok d' -> exists z, d' = Dict.set x z d.
Proof.
  destruct a as [|y r].
  - intros H. inversion H. exists v. reflexivity.
  - rewrite insert_path_more.
    destruct (match Dict.get x d with Some z => z | None => VDict [] end)
      as [| | | | | |dd]; try (destruct r; discriminate).
    destruct (insert_path (y :: r) v dd) as [d1|]; [|discriminate].
    cbn [bind]. intros H. inversion H. eexists. reflexivity.
Qed.

(** What was inserted is found at its path. *)
Lemma insert_path_lookup (names : list string) :
  forall (v : value) (d d' : Dict.dict value),
    names <> [] -> insert_path names v d = Ok d' ->
    lookup_path names d' = Some v.
Proof.
  induction names as [|x names IH]; intros v d d' Hne H; [congruence|].
  destruct names as [|y r].
  - cbn [insert_path] in H. inversion H. cbn [lookup_path].
    apply DictFacts.get_set_same.
  - rewrite insert_path_more in H.
    destruct (match Dict.get x d with Some z => z | None => VDict [] end)
      as [| | | | | |dd]; try (destruct r; discriminate).
    destruct (insert_path (y :: r) v dd) as [d1|] eqn:E1; [|discriminate].
    cbn [bind] in H. inversion H; subst d'.
    rewrite lookup_path_more, DictFacts.get_set_same.
    apply (IH v dd d1); [discriminate | exact E1].
Qed.

Lemma diverge_sym (a : list string) :
  forall b, diverge a b = diverge b a.
Proof.
  induction a as [|x a IH]; intros [|y b]; try reflexivity.
  cbn [diverge]. rewrite (String.eqb_sym y x), IH. reflexivity.
Qed.

(** An insertion leaves alone what is stored at a path that parts ways
    with its own. *)
Lemma insert_path_frame (a : list string) :
  forall (b : list string) (v : value) (d d' : Dict.dict value),
    diverge a b = true -> insert_path a v d = Ok d' ->
    lookup_path b d' = lookup_path b d.
Proof.
  induction a as [|x a IH]; intros b v d d' Hd H; [discriminate Hd|].
  destruct b as [|y b]; [discriminate Hd|].
  cbn [diverge] in Hd. destruct (String.eqb x y) eqn:Exy.
  - apply String.eqb_eq in Exy. subst y.
    destruct a as [|x2 a2]; [discriminate Hd|].
    destruct b as [|y2 b2]; [discriminate Hd|].
    rewrite insert_path_more in H. rewrite !lookup_path_more.
    destruct (Dict.get x d) as [z|] eqn:Eg.
    + destruct z as [| | | | | |dd]; try (destruct a2; discriminate).
      destruct (insert_path (x2 :: a2) v dd) as [d1|] eqn:E1;
        [|discriminate].
      cbn [bind] in H. inversion H; subst d'.
      rewrite DictFacts.get_set_same.
      exact (IH _ _ _ _ Hd E1).
    + destruct (insert_path (x2 :: a2) v []) as [d1|] eqn:E1;
        [|discriminate].
      cbn [bind] in H. inversion H; subst d'.
      rewrite DictFacts.get_set_same.
      rewrite (IH _ _ _ _ Hd E1). apply lookup_path_empty.
  - destruct (insert_path_top _ _ _ _ H) as [z ->].
    apply lookup_path_head. apply DictFacts.get_set_other.
    intros ->. rewrite String.eqb_refl in Exy. discriminate.
Qed.

(** ... and a walk along such a path still succeeds afterwards. *)
Lemma insert_path_frame_ok (a : list string) :
  forall (b : list string) (v w : value) (d d' : Dict.dict value),
    diverge a b = true -> insert_path a v d = Ok d' ->
    is_ok (insert_path b w d) = true ->
    is_ok (insert_path b w d') = true.
Proof.
  induction a as [|x a IH]; intros b v w d d' Hd H Hok; [discriminate Hd|].
  destruct b as [|y b]; [discriminate Hd|].
  cbn [diverge] in Hd. destruct (String.eqb x y) eqn:Exy.
  - apply String.eqb_eq in Exy. subst y.
    destruct a as [|x2 a2]; [discriminate Hd|].
    destruct b as [|y2 b2]; [discriminate Hd|].
    rewrite insert_path_more in H, Hok. rewrite insert_path_more.
    destruct (match Dict.get x d with Some z => z | None => VDict [] end)
      as [| | | | | |dd]; try (destruct a2; discriminate).
    destruct (insert_path (x2 :: a2) v dd) as [d1|] eqn:E1;
      [|discriminate].
    cbn [bind] in H. inversion H; subst d'.
    rewrite DictFacts.get_set_same. rewrite is_ok_bind in *.
    exact (IH _ _ _ _ _ Hd E1 Hok).
  - destruct (insert_path_top _ _ _ _ H) as [z ->].
    rewrite (@insert_path_ok_head y b w d (Dict.set x z d)); [exact Hok|].
    apply DictFacts.get_set_other.
    intros ->. rewrite String.eqb_refl in Exy. discriminate.
Qed.

Lemma insert_path_empty_ok (names : list string) :
  forall w, is_ok (insert_path names w []) = true.
Proof.
  induction names as [|x names IH]; intros w; [reflexivity|].
  destruct names as [|y r]; [reflexivity|].
  rewrite insert_path_more. cbn [Dict.get]. rewrite is_ok_bind.
  apply IH.
Qed.

Lemma parameters_loop_round_trip (items : list (string * value)) :
  forall d : Dict.dict value,
    ForallOrdPairs (fun a b => diverge a b = true) (map name_path items) ->
    (forall kv, In kv items ->
       forall w, is_ok (insert_path (name_path kv) w d) = true) ->
    exists pd,
      get_parameters_dict_loop items d = Ok pd
      /\ (forall kv, In kv items ->
            lookup_path (name_path kv) pd = Some (snd kv))
      /\ (forall b, (forall kv, In kv items ->
                       diverge (name_path kv) b = true) ->
                    lookup_path b pd = lookup_path b d).
Proof.
  induction items as [|[n v] rest IH]; intros d Hfop Hok.
  - exists d. split; [reflexivity|]. split; [intros ? [] | reflexivity].
  - cbn [map] in Hfop. inversion Hfop as [|? ? Hhd Htl]; subst.
    rewrite Forall_forall in Hhd.
    pose proof (Hok (n, v) (or_introl eq_refl) v) as H1.
    unfold name_path in H1. cbn [fst] in H1.
    cbn [get_parameters_dict_loop].
    destruct (insert_path (PyStr.split_on "." n) v d) as [d1|] eqn:E1;
      [|discriminate H1].
    cbn [bind].
    destruct (IH d1 Htl) as [pd [Hrun [Hget Hframe]]].
    { intros kv Hkv w.
      apply (@insert_path_frame_ok (PyStr.split_on "." n) (name_path kv)
               v w d d1).
      - apply Hhd. apply in_map. exact Hkv.
      - exact E1.
      - apply Hok. right. exact Hkv. }
    exists pd. split; [exact Hrun|]. split.
    + intros kv [<-|Hkv]; [|apply Hget; exact Hkv].
      cbn [snd]. rewrite Hframe.
      * apply (@insert_path_lookup _ v d d1);
          [apply PyStrMore.split_on_nonempty | exact E1].
      * intros kv' Hkv'. rewrite diverge_sym.
        apply Hhd. apply in_map. exact Hkv'.
    + intros b Hb.
      rewrite Hframe by (intros kv Hkv; apply Hb; right; exact Hkv).
      apply (@insert_path_frame (PyStr.split_on "." n) b v d d1);
        [|exact E1].
      apply (Hb (n, v)). left. reflexivity.
Qed.

(** X19. The nested dict built from a parameter mapping gives every value
    back at the path of its dotted name, provided that no name is
    another name or another name followed by further components (two
    names always part ways at some component). Then the construction
    cannot fail either. It does fail when a name extends a name whose
    value is not a dict. *)
Theorem parameters_dict_round_trip (parameters : params) :
  ForallOrdPairs (fun a b => diverge a b = true)
    (map name_path parameters) ->
  (exists parameters_dict,
      get_parameters_dict parameters = Ok parameters_dict
      /\ forall name v,
           In (name, v) parameters ->
           lookup_path (PyStr.split_on "." name) parameters_dict
           = Some v)
  /\ forall (a b : string) (v w : value),
       count_char "." a = 0%nat -> count_char "." b = 0%nat ->
       (forall sub, v <> VDict sub) ->
       get_parameters_dict [(a, v); (a ++ String "." b, w)]
       = Raise TypeError.
Proof.
  intros Hfop. split.
  - destruct (@parameters_loop_round_trip parameters [] Hfop)
      as [pd [Hrun [Hget _]]].
    { intros kv _ w. apply insert_path_empty_ok. }
    exists pd. split; [exact Hrun|].
    intros name v Hin. exact (Hget (name, v) Hin).
  - intros a b v w Ha Hb Hv.
    unfold get_parameters_dict. cbn [get_parameters_dict_loop].
    rewrite (@PyStrMore.split_on_no_sep _ _ Ha),
      (@PyStrMore.split_on_two _ _ _ Ha Hb).
    cbn [insert_path bind Dict.set Dict.get]. rewrite String.eqb_refl.
    destruct v; try reflexivity. destruct (Hv d eq_refl).
Qed.

(** ** Substitution into a model definition *)

Lemma mem_keys {V} (k : string) (d : Dict.dict V) :
  Dict.get k d <> None <-> In k (Dict.keys d).
Proof.
  pose proof (@DictFacts.get_none_iff V k d) as H.
  destruct (Dict.get k d) eqn:E; split.
  - intros _. destruct (in_dec string_dec k (Dict.keys d)) as [Hin|Hn];
      [exact Hin|].
    apply H in Hn. discriminate.
  - discriminate.
  - congruence.
  - intros Hin Heq. apply (proj1 H eq_refl). exact Hin.
Qed.

(** Each of the five steps reads one section and writes it back. *)
Lemma set_feature_list_shape (pd : Dict.dict value) (section : string)
    (md md1 : value) :
  set_feature_list pd section md = Ok md1 ->
  exists d v v', md = VDict d /\ Dict.get section d = Some v
                 /\ md1 = VDict (Dict.set section v' d).
Proof.
  unfold set_feature_list, get_item, Dict.lookup.
  destruct md as [| | | | | |d]; try discriminate.
  destruct (Dict.get section d) as [v|] eqn:E; [|discriminate].
  cbn [bind]. destruct (set_features pd v) as [v'|]; [|discriminate].
  cbn [bind set_item]. intros H. inversion H.
  exists d, v, v'. repeat split. exact E.
Qed.

Lemma set_section_shape (pd : Dict.dict value) (section : string)
    (md md1 : value) :
  set_section pd section md = Ok md1 ->
  exists d v v', md = VDict d /\ Dict.get section d = Some v
                 /\ md1 = VDict (Dict.set section v' d).
Proof.
  unfold set_section, get_item, Dict.lookup.
  destruct md as [| | | | | |d]; try discriminate.
  destruct (Dict.get section d) as [v|] eqn:E; [|discriminate].
  cbn [bind].
  destruct (set_values v (VStr section) pd) as [v'|]; [|discriminate].
  cbn [bind set_item]. intros H. inversion H.
  exists d, v, v'. repeat split. exact E.
Qed.

(** One step keeps the keys and the other entries, and needs its
    section. *)
Lemma step_shape (section : string) (d : Dict.dict value) (v v' : value) :
  Dict.get section d = Some v ->
  Dict.keys (Dict.set section v' d) = Dict.keys d
  /\ In section (Dict.keys d)
  /\ forall k, k <> section ->
       Dict.get k (Dict.set section v' d) = Dict.get k d.
Proof.
  intros H. split; [|split].
  - exact (@SubstitutionFacts.keys_set_present _ section v' v d H).
  - apply mem_keys. rewrite H. discriminate.
  - intros k Hk. apply DictFacts.get_set_other. exact Hk.
Qed.

(** X20. Substitution only succeeds on a model definition that is a dict
    with all five sections [input_features], [output_features],
    [combiner], [training] and [preprocessing], whatever the parameters
    are, also when there are none; and it then returns a dict with the
    same top-level keys in the same order, in which every entry other
    than those five is as before. *)
Theorem substitute_parameters_shape (md md' : value)
    (parameters : params) :
  substitute_parameters md parameters = Ok md' ->
  exists d d',
    md = VDict d /\ md' = VDict d'
    /\ Dict.keys d' = Dict.keys d
    /\ Forall (fun section => In section (Dict.keys d))
         ("input_features" :: "output_features" :: named_sections)
    /\ forall k,
         ~ In k ("input_features" :: "output_features" :: named_sections)
         -> Dict.get k d' = Dict.get k d.
Proof.
  unfold substitute_parameters.
  destruct (get_parameters_dict parameters) as [pd|]; [|discriminate].
  cbn [bind].
  destruct (set_feature_list pd "input_features" md) as [md1|] eqn:E1;
    [|discriminate].
  cbn [bind].
  destruct (set_feature_list pd "output_features" md1) as [md2|] eqn:E2;
    [|discriminate].
  cbn [bind].
  destruct (set_section pd "combiner" md2) as [md3|] eqn:E3;
    [|discriminate].
  cbn [bind].
  destruct (set_section pd "training" md3) as [md4|] eqn:E4;
    [|discriminate].
  cbn [bind]. intros E5.
  destruct (set_feature_list_shape _ _ _ E1) as [d [v1 [w1 [-> [G1 ->]]]]].
  destruct (set_feature_list_shape _ _ _ E2) as [d1 [v2 [w2 [Hd1 [G2 ->]]]]].
  destruct (set_section_shape _ _ _ E3) as [d2 [v3 [w3 [Hd2 [G3 ->]]]]].
  destruct (set_section_shape _ _ _ E4) as [d3 [v4 [w4 [Hd3 [G4 ->]]]]].
  destruct (set_section_shape _ _ _ E5) as [d4 [v5 [w5 [Hd4 [G5 ->]]]]].
  inversion Hd1; subst d1. inversion Hd2; subst d2.
  inversion Hd3; subst d3. inversion Hd4; subst d4.
  destruct (@step_shape _ _ _ w1 G1) as [K1 [I1 F1]].
  destruct (@step_shape _ _ _ w2 G2) as [K2 [I2 F2]].
  destruct (@step_shape _ _ _ w3 G3) as [K3 [I3 F3]].
  destruct (@step_shape _ _ _ w4 G4) as [K4 [I4 F4]].
  destruct (@step_shape _ _ _ w5 G5) as [K5 [I5 F5]].
  eexists d, _. split; [reflexivity|]. split; [reflexivity|].
  split; [congruence|]. split.
  - unfold named_sections. repeat constructor; congruence.
  - intros k Hk. unfold named_sections in Hk. cbn [In] in Hk.
    rewrite F5, F4, F3, F2, F1; [reflexivity| | | | |];
      intros ->; apply Hk; auto 10.
Qed.

(** The nested dict has entries for the heads of the names only. *)
Lemma parameters_loop_heads (items : list (string * value)) :
  forall d pd : Dict.dict value,
    get_parameters_dict_loop items d = Ok pd ->
    forall k, ~ In k (heads items) -> Dict.get k pd = Dict.get k d.
Proof.
  induction items as [|[n v] rest IH]; intros d pd H k Hk.
  - inversion H. reflexivity.
  - cbn [get_parameters_dict_loop] in H.
    destruct (insert_path (PyStr.split_on "." n) v d) as [d1|] eqn:E1;
      [|discriminate].
    cbn [bind] in H.
    unfold heads in Hk. cbn [map] in Hk. unfold name_path at 1 in Hk.
    cbn [fst] in Hk.
    rewrite (@IH _ _ H k) by (intros Hin; apply Hk; right; exact Hin).
    destruct (PyStr.split_on "." n) as [|x a] eqn:Es.
    + destruct (@PyStrMore.split_on_nonempty _ _ Es).
    + destruct (@insert_path_top _ _ _ _ _ E1) as [z ->].
      apply DictFacts.get_set_other. intros ->. apply Hk. left.
      reflexivity.
Qed.

Section Outside.
Variable names : list string.
Variable pd : Dict.dict value.
Hypothesis pd_names : forall n, ~ In n names -> Dict.get n pd = None.

(** A feature that the parameters do not address is not touched. *)
Lemma set_feature_values_outside (f : value) :
  feature_outside names f -> set_feature_values pd f = Ok f.
Proof.
  intros [d [n [-> [Hname Hn]]]].
  unfold set_feature_values, get_item, Dict.lookup. rewrite Hname.
  cbn [bind]. unfold set_values. rewrite (pd_names n Hn). reflexivity.
Qed.

Lemma set_feature_list_outside (section : string)
    (md : Dict.dict value) :
  features_outside names md section ->
  set_feature_list pd section (VDict md) = Ok (VDict md).
Proof.
  intros [fs [Hget HF]]. unfold set_feature_list, get_item, Dict.lookup.
  rewrite Hget. cbn [bind]. unfold set_features.
  assert (E : mapM (set_feature_values pd) fs = Ok fs).
  { clear Hget. induction HF as [|f fs Hf HF IH]; [reflexivity|].
    cbn [mapM]. rewrite (@set_feature_values_outside f Hf). cbn [bind].
    rewrite IH. reflexivity. }
  rewrite E. cbn [bind set_item].
  rewrite (@DictFacts.set_same _ _ _ _ Hget). reflexivity.
Qed.

(** So is a section that they do not address. *)
Lemma set_section_outside (section : string) (md : Dict.dict value) :
  Dict.get section md <> None -> ~ In section names ->
  set_section pd section (VDict md) = Ok (VDict md).
Proof.
  intros Hget Hn. unfold set_section, get_item, Dict.lookup.
  destruct (Dict.get section md) as [v|] eqn:E; [|congruence].
  cbn [bind]. unfold set_values. rewrite (pd_names section Hn).
  cbn [bind set_item].
  rewrite (@DictFacts.set_same _ _ _ _ E). reflexivity.
Qed.
End Outside.

(** X21. Parameters that address nothing are ignored without a word. If
    the first component of no parameter name is [combiner], [training],
    [preprocessing] or the name of an input or output feature, then
    substitution returns the model definition unchanged, whatever the
    parameters say (a misspelt section name, for example); the empty
    mapping is a case of this. The definition must still have all five
    sections, and the mapping must still have a nested form. *)
Theorem substitute_unaddressed (md : Dict.dict value)
    (parameters : params) (parameters_dict : Dict.dict value) :
  get_parameters_dict parameters = Ok parameters_dict ->
  features_outside (heads parameters) md "input_features" ->
  features_outside (heads parameters) md "output_features" ->
  Forall (fun section => Dict.get section md <> None
                         /\ ~ In section (heads parameters))
    named_sections ->
  substitute_parameters (VDict md) parameters = Ok (VDict md).
Proof.
  intros Hpd Hin Hout Hsec. unfold substitute_parameters.
  rewrite Hpd. cbn [bind].
  assert (Hnames : forall n, ~ In n (heads parameters) ->
                             Dict.get n parameters_dict = None).
  { intros n Hn.
    exact (@parameters_loop_heads _ _ _ Hpd n Hn). }
  unfold named_sections in Hsec.
  inversion Hsec as [|? ? [Hc Hc'] Hsec1]; subst.
  inversion Hsec1 as [|? ? [Ht Ht'] Hsec2]; subst.
  inversion Hsec2 as [|? ? [Hp Hp'] _]; subst.
  rewrite (@set_feature_list_outside _ _ Hnames _ _ Hin). cbn [bind].
  rewrite (@set_feature_list_outside _ _ Hnames _ _ Hout). cbn [bind].
  rewrite (@set_section_outside _ _ Hnames _ _ Hc Hc'). cbn [bind].
  rewrite (@set_section_outside _ _ Hnames _ _ Ht Ht'). cbn [bind].
  exact (@set_section_outside _ _ Hnames _ _ Hp Hp').
Qed.

Section OneEntry.
Variables section key : string.
Variable v : value.
Hypothesis v_plain : forall sub, v <> VDict sub.

(** The nested form of the one parameter [section.key]. *)
Abbreviation one_entry := [(section, VDict [(key, v)])].

Lemma one_entry_names :
  forall n, ~ In n [section] -> Dict.get n one_entry = None.
Proof.
  intros n Hn. cbn [Dict.get].
  destruct (String.eqb n section) eqn:E; [|reflexivity].
  apply String.eqb_eq in E. destruct Hn. left. congruence.
Qed.

Lemma set_section_other_entry (other : string) (md : Dict.dict value) :
  Dict.get other md <> None -> other <> section ->
  set_section one_entry other (VDict md) = Ok (VDict md).
Proof.
  intros Hget Hne.
  apply (@set_section_outside [section] one_entry one_entry_names);
    [exact Hget|].
  intros [H|[]]. congruence.
Qed.

Lemma set_section_entry (md inner : Dict.dict value) :
  Dict.get section md = Some (VDict inner) ->
  set_section one_entry section (VDict md)
  = Ok (VDict (Dict.set section (VDict (Dict.set key v inner)) md)).
Proof.
  intros Hget. unfold set_section, get_item, Dict.lookup.
  rewrite Hget. cbn [bind]. unfold set_values. cbn [Dict.get].
  rewrite String.eqb_refl. cbn [set_values_loop].
  destruct v; try reflexivity. destruct (v_plain eq_refl).
Qed.
End OneEntry.

(** X22. A single parameter [section.key] with a value that is not a
    dict, for [section] one of [combiner], [training] and
    [preprocessing], sets exactly the entry [key] of that section (adding
    it when the section has no such entry) and leaves everything else in
    the model definition as it is, provided that the definition has its
    five sections, that the section is a dict, and that no feature is
    named like the section. *)
Theorem substitute_section_entry (section key : string) (v : value)
    (md inner : Dict.dict value) :
  In section named_sections ->
  count_char "." key = 0%nat ->
  (forall sub, v <> VDict sub) ->
  features_outside [section] md "input_features" ->
  features_outside [section] md "output_features" ->
  Forall (fun s => Dict.get s md <> None) named_sections ->
  Dict.get section md = Some (VDict inner) ->
  substitute_parameters (VDict md) [(section ++ String "." key, v)]
  = Ok (VDict (Dict.set section (VDict (Dict.set key v inner)) md)).
Proof.
  intros Hsec Hkey Hv Hin Hout Hall Hget.
  assert (Hdot : count_char "." section = 0%nat).
  { unfold named_sections in Hsec.
    destruct Hsec as [<-|[<-|[<-|[]]]]; reflexivity. }
  unfold substitute_parameters, get_parameters_dict.
  cbn [get_parameters_dict_loop].
  rewrite (@PyStrMore.split_on_two _ _ _ Hdot Hkey).
  cbn [insert_path Dict.get bind Dict.set].
  rewrite (@set_feature_list_outside [section] _
             (@one_entry_names section key v) _ _ Hin).
  cbn [bind].
  rewrite (@set_feature_list_outside [section] _
             (@one_entry_names section key v) _ _ Hout).
  cbn [bind].
  unfold named_sections in Hall, Hsec.
  inversion Hall as [|? ? Hc Hall1]; subst.
  inversion Hall1 as [|? ? Ht Hall2]; subst.
  inversion Hall2 as [|? ? Hp _]; subst.
  destruct Hsec as [<-|[<-|[<-|[]]]].
  - rewrite (@set_section_entry _ key v Hv md inner Hget). cbn [bind].
    rewrite (@set_section_other_entry "combiner" key v "training");
      [|rewrite DictFacts.get_set_other by discriminate; exact Ht
       |discriminate].
    cbn [bind].
    apply (@set_section_other_entry "combiner" key v "preprocessing");
      [rewrite DictFacts.get_set_other by discriminate; exact Hp
      |discriminate].
  - rewrite (@set_section_other_entry "training" key v "combiner");
      [|exact Hc | discriminate].
    cbn [bind].
    rewrite (@set_section_entry _ key v Hv md inner Hget). cbn [bind].
    apply (@set_section_other_entry "training" key v "preprocessing");
      [rewrite DictFacts.get_set_other by discriminate; exact Hp
      |discriminate].
  - rewrite (@set_section_other_entry "preprocessing" key v "combiner");
      [|exact Hc | discriminate].
    cbn [bind].
    rewrite (@set_section_other_entry "preprocessing" key v "training");
      [|exact Ht | discriminate].
    cbn [bind].
    exact (@set_section_entry _ key v Hv md inner Hget).
Qed.

(** The inner loop of [set_values] for a dict value: a merge, one level
    deep, into the dict that the entry already holds. *)
Lemma merge_sub_spec (key : string) (sub : list (string * value)) :
  forall inner old : Dict.dict value,
    Dict.get key inner = Some (VDict old) ->
    merge_sub (VDict inner) key sub
    = Ok (VDict (Dict.set key (VDict (assign_all sub old)) inner)).
Proof.
  induction sub as [|[sk sv] rest IH]; intros inner old Hget.
  - cbn [merge_sub assign_all fold_left].
    rewrite (@DictFacts.set_same _ _ _ _ Hget). reflexivity.
  - cbn [merge_sub get_item]. unfold Dict.lookup. rewrite Hget.
    cbn [bind set_item].
    rewrite (IH _ (Dict.set sk sv old) (DictFacts.get_set_same _ _ _)).
    rewrite DictFacts.set_set. reflexivity.
Qed.

Lemma merge_sub_missing (key sk : string) (sv : value)
    (rest : list (string * value)) (inner : Dict.dict value) :
  merge_sub (VDict inner) key ((sk, sv) :: rest)
  = match Dict.get key inner with
    | None => Raise KeyError
    | Some (VDict old) =>
        Ok (VDict (Dict.set key
                     (VDict (assign_all ((sk, sv) :: rest) old)) inner))
    | Some _ => Raise TypeError
    end.
Proof.
  destruct (Dict.get key inner) as [x|] eqn:Hget.
  - destruct x; try (cbn [merge_sub get_item]; unfold Dict.lookup;
                     rewrite Hget; reflexivity).
    exact (merge_sub_spec key _ _ Hget).
  - cbn [merge_sub get_item]. unfold Dict.lookup. rewrite Hget.
    reflexivity.
Qed.

(** X23. A parameter [section.key] whose value is a non-empty dict is
    not stored as the new value of the entry: its items are merged, one
    level deep, into the dict that the entry already holds, so entries
    of the old dict that the new one does not mention stay. If the
    section has no entry [key] the call fails with [KeyError], and if
    the entry is not a dict with [TypeError]. The conditions on the
    model definition are those for a plain value. *)
Theorem substitute_section_dict_entry (section key : string)
    (sk : string) (sv : value) (rest : list (string * value))
    (md inner : Dict.dict value) :
  In section named_sections ->
  count_char "." key = 0%nat ->
  features_outside [section] md "input_features" ->
  features_outside [section] md "output_features" ->
  Forall (fun s => Dict.get s md <> None) named_sections ->
  Dict.get section md = Some (VDict inner) ->
  substitute_parameters (VDict md)
    [(section ++ String "." key, VDict ((sk, sv) :: rest))]
  = match Dict.get key inner with
    | None => Raise KeyError
    | Some (VDict old) =>
        Ok (VDict (Dict.set section
                     (VDict (Dict.set key
                               (VDict (assign_all ((sk, sv) :: rest)
                                         old))
                               inner))
                     md))
    | Some _ => Raise TypeError
    end.
Proof.
  intros Hsec Hkey Hin Hout Hall Hget.
  set (v := VDict ((sk, sv) :: rest)).
  assert (Hdot : count_char "." section = 0%nat).
  { unfold named_sections in Hsec.
    destruct Hsec as [<-|[<-|[<-|[]]]]; reflexivity. }
  assert (Hhit : set_section [(section, VDict [(key, v)])] section
                   (VDict md)
                 = (inner' <- merge_sub (VDict inner) key
                                ((sk, sv) :: rest) ;;
                    Ok (VDict (Dict.set section inner' md)))).
  { unfold set_section, get_item, Dict.lookup. rewrite Hget.
    cbn [bind]. unfold set_values. cbn [Dict.get].
    rewrite String.eqb_refl. unfold v. cbn [set_values_loop].
    destruct (merge_sub (VDict inner) key ((sk, sv) :: rest));
      reflexivity. }
  unfold substitute_parameters, get_parameters_dict.
  cbn [get_parameters_dict_loop].
  rewrite (@PyStrMore.split_on_two _ _ _ Hdot Hkey).
  cbn [insert_path Dict.get bind Dict.set].
  rewrite (@set_feature_list_outside [section] _
             (@one_entry_names section key v) _ _ Hin).
  cbn [bind].
  rewrite (@set_feature_list_outside [section] _
             (@one_entry_names section key v) _ _ Hout).
  cbn [bind].
  unfold named_sections in Hall, Hsec.
  inversion Hall as [|? ? Hc Hall1]; subst.
  inversion Hall1 as [|? ? Ht Hall2]; subst.
  inversion Hall2 as [|? ? Hp _]; subst.
  rewrite merge_sub_missing in Hhit.
  destruct Hsec as [<-|[<-|[<-|[]]]].
  - rewrite Hhit.
    destruct (Dict.get key inner) as [[| | | | | |old]|]; try reflexivity.
    cbn [bind].
    rewrite (@set_section_other_entry "combiner" key v "training");
      [|rewrite DictFacts.get_set_other by discriminate; exact Ht
       |discriminate].
    cbn [bind].
    apply (@set_section_other_entry "combiner" key v "preprocessing");
      [rewrite DictFacts.get_set_other by discriminate; exact Hp
      |discriminate].
  - rewrite (@set_section_other_entry "training" key v "combiner");
      [|exact Hc | discriminate].
    cbn [bind]. rewrite Hhit.
    destruct (Dict.get key inner) as [[| | | | | |old]|]; try reflexivity.
    cbn [bind].
    apply (@set_section_other_entry "training" key v "preprocessing");
      [rewrite DictFacts.get_set_other by discriminate; exact Hp
      |discriminate].
  - rewrite (@set_section_other_entry "preprocessing" key v "combiner");
      [|exact Hc | discriminate].
    cbn [bind].
    rewrite (@set_section_other_entry "preprocessing" key v "training");
      [|exact Ht | discriminate].
    cbn [bind]. rewrite Hhit.
    destruct (Dict.get key inner) as [[| | | | | |old]|]; reflexivity.
Qed.

Section OneFeatureEntry.
Variables name key : string.
Variable v : value.
Hypothesis v_plain : forall sub, v <> VDict sub.

Lemma set_feature_values_entry (f : value) :
  named_feature f ->
  set_feature_values [(name, VDict [(key, v)])] f
  = Ok (set_in_feature name key v f).
Proof.
  intros [d [n [-> Hname]]].
  unfold set_feature_values, get_item, Dict.lookup. rewrite Hname.
  cbn [bind]. unfold set_values, set_in_feature. rewrite Hname.
  cbn [Dict.get]. destruct (String.eqb n name); [|reflexivity].
  cbn [set_values_loop].
  destruct v; try reflexivity. destruct (v_plain eq_refl).
Qed.

Lemma set_feature_list_entry (section : string) (md : Dict.dict value)
    (fs : list value) :
  Dict.get section md = Some (VList fs) ->
  Forall named_feature fs ->
  set_feature_list [(name, VDict [(key, v)])] section (VDict md)
  = Ok (VDict (Dict.set section
                 (VList (map (set_in_feature name key v) fs)) md)).
Proof.
  intros Hget HF. unfold set_feature_list, get_item, Dict.lookup.
  rewrite Hget. cbn [bind]. unfold set_features.
  assert (E : mapM (set_feature_values [(name, VDict [(key, v)])]) fs
              = Ok (map (set_in_feature name key v) fs)).
  { clear Hget. induction HF as [|f fs Hf HF IH]; [reflexivity|].
    cbn [mapM map]. rewrite (@set_feature_values_entry f Hf).
    cbn [bind]. rewrite IH. reflexivity. }
  rewrite E. reflexivity.
Qed.
End OneFeatureEntry.

(** X24. A single parameter [name.key] with a value that is not a dict,
    where [name] is not one of [combiner], [training] and
    [preprocessing], sets the entry [key] in every input feature and
    every output feature that is called [name], adding it where it is
    missing, and changes nothing else: features with another name, the
    order of the features and the rest of the model definition are as
    before. When no feature has that name nothing changes at all. *)
Theorem substitute_feature_entry (name key : string) (v : value)
    (md : Dict.dict value) (inputs outputs : list value) :
  ~ In name named_sections ->
  count_char "." name = 0%nat ->
  count_char "." key = 0%nat ->
  (forall sub, v <> VDict sub) ->
  Dict.get "input_features" md = Some (VList inputs) ->
  Forall named_feature inputs ->
  Dict.get "output_features" md = Some (VList outputs) ->
  Forall named_feature outputs ->
  Forall (fun s => Dict.get s md <> None) named_sections ->
  substitute_parameters (VDict md) [(name ++ String "." key, v)]
  = Ok (VDict (Dict.set "output_features"
                 (VList (map (set_in_feature name key v) outputs))
                 (Dict.set "input_features"
                    (VList (map (set_in_feature name key v) inputs))
                    md))).
Proof.
  intros Hname Hdot Hkey Hv Hin HFin Hout HFout Hall.
  unfold substitute_parameters, get_parameters_dict.
  cbn [get_parameters_dict_loop].
  rewrite (@PyStrMore.split_on_two _ _ _ Hdot Hkey).
  cbn [insert_path Dict.get bind Dict.set].
  rewrite (@set_feature_list_entry name key v Hv "input_features" md
             inputs Hin HFin).
  cbn [bind].
  rewrite (@set_feature_list_entry name key v Hv "output_features" _
             outputs);
    [|rewrite DictFacts.get_set_other by discriminate; exact Hout
     |exact HFout].
  cbn [bind].
  unfold named_sections in Hall, Hname.
  inversion Hall as [|? ? Hc Hall1]; subst.
  inversion Hall1 as [|? ? Ht Hall2]; subst.
  inversion Hall2 as [|? ? Hp _]; subst.
  assert (Hpresent : forall s md',
             s <> "input_features" -> s <> "output_features" ->
             Dict.get s md <> None ->
             Dict.get s (Dict.set "output_features" md'
                           (Dict.set "input_features"
                              (VList (map (set_in_feature name key v)
                                        inputs)) md)) <> None).
  { intros s md' H1 H2 H3.
    rewrite !DictFacts.get_set_other by assumption. exact H3. }
  rewrite (@set_section_other_entry name key v "combiner");
    [|apply Hpresent; [discriminate | discriminate | exact Hc]
     |intros H; apply Hname; left; exact H].
  cbn [bind].
  rewrite (@set_section_other_entry name key v "training");
    [|apply Hpresent; [discriminate | discriminate | exact Ht]
     |intros H; apply Hname; right; left; exact H].
  cbn [bind].
  apply (@set_section_other_entry name key v "preprocessing");
    [apply Hpresent; [discriminate | discriminate | exact Hp]
    |intros H; apply Hname; right; right; left; exact H].
Qed.

End SubstitutionMore.
Module JoinSpaceFacts.

Import Config Substitution Notions.
Open Scope string_scope.

Section Constants.
Variables TYPE CATEGORY INT REAL SPACE : string.

Abbreviation prepare :=
  (prepare_param_values TYPE CATEGORY INT REAL SPACE).
Abbreviation is_prepared := (prepared TYPE CATEGORY INT REAL SPACE).

(** The loop body fails on anything but a dict with a type. *)
Lemma prepare_inv (pv pv' : value) :
  prepare pv = Ok pv' ->
  exists d t, pv = VDict d /\ Dict.get TYPE d = Some t.
Proof.
  unfold prepare_param_values, get_item, Dict.lookup.
  destruct pv as [| | | | | |d]; try discriminate.
  destruct (Dict.get TYPE d) as [t|] eqn:E; [|discriminate].
  intros _. exists d, t. split; [reflexivity | exact E].
Qed.

(** The second statement of the loop body, on a dict with a type. *)
Lemma prepare_space (d1 : Dict.dict value) (t1 : value) :
  Dict.get TYPE d1 = Some t1 ->
  exists d',
    (t1' <- get_item (VDict d1) TYPE ;;
     if equals_str t1' INT || equals_str t1' REAL then
       match VDict d1 with
       | VDict d =>
           if Dict.mem SPACE d then Ok (VDict d1)
           else set_item (VDict d1) SPACE (VStr "linear")
       | _ => Raise TypeError
       end
     else Ok (VDict d1))
    = Ok (VDict d')
    /\ Dict.get TYPE d' = Some t1
    /\ (equals_str t1 INT || equals_str t1 REAL = true
        -> Dict.mem SPACE d' = true)
    /\ forall k x, Dict.get k d1 = Some x -> Dict.get k d' = Some x.
Proof.
  intros Ht. unfold get_item, Dict.lookup. rewrite Ht. cbn [bind].
  destruct (equals_str t1 INT || equals_str t1 REAL) eqn:En.
  - destruct (Dict.mem SPACE d1) eqn:Em.
    + exists d1. repeat split; auto.
    + exists (Dict.set SPACE (VStr "linear") d1).
      assert (Hne : forall k x, Dict.get k d1 = Some x -> k <> SPACE).
      { intros k x Hk ->. unfold Dict.mem in Em. rewrite Hk in Em.
        discriminate. }
      split; [reflexivity|]. split; [|split].
      * rewrite DictFacts.get_set_other; [exact Ht|].
        exact (Hne _ _ Ht).
      * intros _. unfold Dict.mem. rewrite DictFacts.get_set_same.
        reflexivity.
      * intros k x Hk. rewrite DictFacts.get_set_other; [exact Hk|].
        exact (Hne _ _ Hk).
  - exists d1. repeat split; auto. discriminate.
Qed.

Lemma equals_str_eq (v : value) (s : string) :
  equals_str v s = true -> v = VStr s.
Proof.
  destruct v; try discriminate. cbn [equals_str].
  intros H. apply String.eqb_eq in H. congruence.
Qed.

(** The loop body on a dict with a type. *)
Lemma prepare_spec (d : Dict.dict value) (t : value) :
  Dict.get TYPE d = Some t ->
  exists d',
    prepare (VDict d) = Ok (VDict d')
    /\ is_prepared (VDict d')
    /\ forall k x, k <> TYPE -> Dict.get k d = Some x ->
                   Dict.get k d' = Some x.
Proof.
  intros Ht. unfold prepare_param_values.
  unfold get_item at 1, Dict.lookup. rewrite Ht. cbn [bind].
  destruct (equals_str t CATEGORY) eqn:Ec.
  - cbn [set_item bind].
    destruct (@prepare_space (Dict.set TYPE (VStr "cat") d)
                (VStr "cat") (DictFacts.get_set_same _ _ _))
      as [d' [Hrun [Ht' [Hsp Hfr]]]].
    exists d'. split; [exact Hrun|]. split.
    + exists d', (VStr "cat"). split; [reflexivity|].
      split; [exact Ht'|]. split; [|exact Hsp].
      cbn [equals_str]. intros H. apply String.eqb_eq in H.
      symmetry. exact H.
    + intros k x Hk Hget. apply Hfr.
      rewrite DictFacts.get_set_other; [exact Hget | exact Hk].
  - cbn [bind].
    destruct (@prepare_space d t Ht) as [d' [Hrun [Ht' [Hsp Hfr]]]].
    exists d'. split; [exact Hrun|]. split.
    + exists d', t. split; [reflexivity|]. split; [exact Ht'|].
      split; [|exact Hsp]. rewrite Ec. discriminate.
    + intros k x _ Hget. apply Hfr. exact Hget.
Qed.

(** What the loop body leaves behind is left alone by it. *)
Lemma prepared_fixed (pv : value) :
  is_prepared pv -> prepare pv = Ok pv.
Proof.
  intros [d [t [-> [Ht [Hc Hs]]]]]. unfold prepare_param_values.
  unfold get_item at 1, Dict.lookup. rewrite Ht. cbn [bind].
  assert (E : (if equals_str t CATEGORY
               then set_item (VDict d) TYPE (VStr "cat")
               else Ok (VDict d)) = Ok (VDict d)).
  { destruct (equals_str t CATEGORY) eqn:Ec; [|reflexivity].
    cbn [set_item]. pose proof (equals_str_eq _ _ Ec) as Et.
    rewrite (Hc eq_refl) in Et. subst t.
    rewrite (@DictFacts.set_same _ _ _ _ Ht). reflexivity. }
  rewrite E. cbn [bind].
  unfold get_item, Dict.lookup. rewrite Ht. cbn [bind].
  destruct (equals_str t INT || equals_str t REAL) eqn:En;
    [|reflexivity].
  rewrite (Hs eq_refl). reflexivity.
Qed.

(** X25. The preparation of the parameters for the joint space, in the
    constructors of the random and the surrogate strategy. It succeeds
    exactly when every parameter is a dict with a type entry. It then
    keeps the parameter names and their order, and in each parameter
    every entry other than the type, so a space that the user gave is
    kept; afterwards every parameter has a type, which is [CATEGORY]
    only if that constant is the text cat, and every parameter of type
    [INT] or [REAL] has a space. Preparing the outcome again changes
    nothing. This holds whatever the five constants are. *)
Theorem join_space_preparation (parameters : Dict.dict value) :
  (Forall (fun kv => exists d t, snd kv = VDict d
                                 /\ Dict.get TYPE d = Some t)
     parameters
   <-> exists prepared_parameters,
         prepare_params TYPE CATEGORY INT REAL SPACE parameters
         = Ok prepared_parameters)
  /\ forall prepared_parameters,
       prepare_params TYPE CATEGORY INT REAL SPACE parameters
       = Ok prepared_parameters ->
       Forall2 (fun kv kv' =>
                  fst kv' = fst kv
                  /\ is_prepared (snd kv')
                  /\ exists d d',
                       snd kv = VDict d /\ snd kv' = VDict d'
                       /\ forall k x, k <> TYPE ->
                            Dict.get k d = Some x ->
                            Dict.get k d' = Some x)
         parameters prepared_parameters
       /\ prepare_params TYPE CATEGORY INT REAL SPACE
            prepared_parameters
          = Ok prepared_parameters.
Proof.
  induction parameters as [|[name pv] rest [IH1 IH2]].
  - split.
    + split; [intros _; exists []; reflexivity | constructor].
    + intros pp H. inversion H. split; [constructor | reflexivity].
  - split.
    + split.
      * intros HF. inversion HF as [|? ? [d [t [Hpv Ht]]] HF']; subst.
        cbn [snd] in Hpv. subst pv.
        destruct (prepare_spec d Ht) as [d' [Hrun _]].
        destruct (proj1 IH1 HF') as [rest' Hrest].
        exists ((name, VDict d') :: rest').
        cbn [prepare_params]. rewrite Hrun. cbn [bind].
        rewrite Hrest. reflexivity.
      * intros [pp H]. cbn [prepare_params] in H.
        destruct (prepare pv) as [pv'|] eqn:E; [|discriminate].
        cbn [bind] in H.
        destruct (prepare_params _ _ _ _ _ rest) as [rest'|] eqn:Er;
          [|discriminate].
        constructor.
        -- exact (prepare_inv _ E).
        -- apply IH1. exists rest'. reflexivity.
    + intros pp H. cbn [prepare_params] in H.
      destruct (prepare pv) as [pv'|] eqn:E; [|discriminate].
      cbn [bind] in H.
      destruct (prepare_params _ _ _ _ _ rest) as [rest'|] eqn:Er;
        [|discriminate].
      cbn [bind] in H. inversion H; subst pp. clear H.
      destruct (IH2 rest' eq_refl) as [HF2 Hfix].
      destruct (prepare_inv _ E) as [d [t [-> Ht]]].
      destruct (prepare_spec d Ht) as [d' [Hrun [Hprep Hfr]]].
      rewrite Hrun in E. inversion E; subst pv'.
      split.
      * constructor; [|exact HF2]. cbn [fst snd].
        split; [reflexivity|]. split; [exact Hprep|].
        exists d, d'. repeat split. exact Hfr.
      * cbn [prepare_params]. rewrite (prepared_fixed Hprep).
        cbn [bind]. rewrite Hfix. reflexivity.
Qed.
End Constants.

End JoinSpaceFacts.
Module MoreWitnesses.

Import Config Strategy Executor Scenario Notions Examples.
Open Scope string_scope.





(** A batch of two from a strategy with two samples left. *)
Lemma sample_batch_full_witness :
  (Z.to_nat 2 <= remaining (Random unit random_two))%nat
  /\ exists xs s',
       sample_batch suggest 2 (Random unit random_two) = (s', Ok xs)
       /\ List.length xs = Z.to_nat 2.
Proof.
  assert (H : (Z.to_nat 2 <= remaining (Random unit random_two))%nat)
    by exact (le_n 2).
  split; [exact H|].
  destruct (@StrategyMore.sample_batch_full unit suggest
              (Random unit random_two) 2%Z H)
    as [xs [s' [H1 [_ [H3 _]]]]].
  exists xs, s'. split; [exact H1 | exact H3].
Defined.


(** The serial executor on the grid of two batch sizes. *)
Lemma serial_execute_stateless_witness :
  stateless (Grid unit grid) = true
  /\ (remaining (Grid unit grid) < 3)%nat
  /\ exists r,
       serial_execute suggest observe train "combined" "loss" 3
         model_definition None None (Grid unit grid) = Some r.
Proof.
  assert (Hlt : (remaining (Grid unit grid) < 3)%nat) by exact (le_n 3).
  split; [reflexivity|]. split; [exact Hlt|].
  destruct (@ExecutorMore.serial_execute_stateless unit suggest observe
              unit train "combined" "loss" 3 model_definition None None
              (Grid unit grid) eq_refl Hlt) as [r [H _]].
  exists r. exact H.
Defined.

(** The fiber executor on the same search. *)
Lemma fiber_execute_as_serial_witness :
  (remaining (Grid unit grid) < 3)%nat
  /\ exists r,
       fiber_execute suggest observe train "combined" "loss" 3
         model_definition None None (Grid unit grid) = Some r.
Proof.
  assert (Hlt : (remaining (Grid unit grid) < 3)%nat) by exact (le_n 3).
  split; [exact Hlt|].
  exact (proj2 (@ExecutorMore.fiber_execute_as_serial unit suggest observe
                  unit train "combined" "loss" 3 model_definition None
                  None (Grid unit grid)) Hlt).
Defined.

(** The serial run trains what it sampled. *)
Lemma serial_and_fiber_run_samples_once_witness :
  exists r last,
    serial_run = Some r
    /\ List.concat (sampled_batches (run_trace r))
       = (trained_trials (run_trace r) ++ last)%list.
Proof.
  destruct serial_run as [r|] eqn:E; [|vm_compute in E; discriminate E].
  destruct (proj1 (@ExecutorMore.serial_and_fiber_run_samples_once unit
                     suggest observe unit train "combined" "loss" 3
                     model_definition None None (Grid unit grid)) r E)
    as [last [H _]].
  exists r, last. split; [reflexivity | exact H].
Defined.

(** The parallel executor without devices on the same search. *)
Lemma parallel_execute_accumulates_witness :
  stateless (Grid unit grid) = true
  /\ (remaining (Grid unit grid) < 3)%nat
  /\ exists r,
       parallel_execute suggest observe train "combined" "loss" 3
         default_num_workers default_epsilon []
         (Raise FileNotFoundError) model_definition None None
         (Grid unit grid) = Some r.
Proof.
  assert (Hlt : (remaining (Grid unit grid) < 3)%nat) by exact (le_n 3).
  split; [reflexivity|]. split; [exact Hlt|].
  destruct (@ExecutorMore.parallel_execute_accumulates unit suggest
              observe unit train "combined" "loss" 3 default_num_workers
              default_epsilon (Raise FileNotFoundError) model_definition
              None (Grid unit grid) eq_refl Hlt) as [r [H _]].
  exists r. exact H.
Defined.

(** The parallel loop with devices declared and an empty queue. *)
Lemma parallel_loop_blocks_iff_no_slot_witness :
  exists md',
    Substitution.substitute_parameters model_definition p64 = Ok md'
    /\ parallel_loop suggest observe train "combined" "loss" 3
         model_definition (Some (GpusStr "0")) None (Some []) []
         (Grid unit grid) [] [] = None.
Proof.
  destruct (Substitution.substitute_parameters model_definition p64)
    as [md'|] eqn:E; [|vm_compute in E; discriminate E].
  exists md'. split; [reflexivity|].
  assert (Hlt : (remaining (Grid unit grid) < 3)%nat) by exact (le_n 3).
  exact (proj2 (proj1
           (@ExecutorMore.parallel_loop_blocks_iff_no_slot unit suggest
              observe unit train "combined" "loss" 3 model_definition md'
              (Some (GpusStr "0")) None [] [] (Grid unit grid)
              (Grid unit (mkGrid MINIMIZE
                            [("training.batch_size",
                              [VInt 64; VInt 128])] [p64; p128] 1))
              p64 [] [] eq_refl eq_refl E Hlt)) eq_refl).
Defined.

Lemma tool_output_values :
  snd (GpuMemory.get_available_gpu_memory (Ok tool_output))
  = Ok [11178; 8000]%Z.
Proof. vm_compute. reflexivity. Defined.

(** Two devices for two workers. *)
Lemma dedicated_devices_queue_witness :
  setup_gpus_and_queue 2 default_epsilon [] (Ok tool_output)
    (Some (GpusStr "0,1")) None
  = Ok (mkSetup (Some "0,1") (Some [mkSlot "0" None; mkSlot "1" None])
          None).
Proof.
  assert (Hle : (2 <= Z.of_nat (List.length
                                  (PyStr.split_on "," (PyStr.strip "0,1"))))%Z)
    by (intro H; discriminate H).
  exact (@GpuSetupMore.dedicated_devices_queue 2 default_epsilon []
           (Ok tool_output) (GpusStr "0,1") None [11178; 8000]%Z
           tool_output_values Hle).
Defined.



(** One device with 150 free for two workers. *)
Lemma starved_devices_block_witness :
  exists setup,
    setup_gpus_and_queue 2 default_epsilon [] (Ok starved_output)
      (Some (GpusStr "0")) None = Ok setup
    /\ setup_queue setup = Some []
    /\ parallel_execute suggest observe train "combined" "loss" 3 2
         default_epsilon [] (Ok starved_output) model_definition
         (Some (GpusStr "0")) None (Grid unit grid) = None.
Proof.
  destruct (setup_gpus_and_queue 2 default_epsilon [] (Ok starved_output)
              (Some (GpusStr "0")) None) as [setup|] eqn:E;
    [|vm_compute in E; discriminate E].
  destruct (Substitution.substitute_parameters model_definition p64)
    as [md'|] eqn:Es; [|vm_compute in Es; discriminate Es].
  assert (Hmem : snd (GpuMemory.get_available_gpu_memory
                        (Ok starved_output)) = Ok [150]%Z)
    by (vm_compute; reflexivity).
  assert (Hall : Forall (fun a => (0 <= a < 100 * 2)%Z) [150]%Z).
  { repeat constructor. intro H; discriminate H. }
  assert (Hlt : (Z.of_nat (List.length
                             (PyStr.split_on "," (PyStr.strip "0")))
                 < 2)%Z) by reflexivity.
  assert (He : (0 <= default_epsilon)%Q) by (intro H; discriminate H).
  destruct (@GpuSetupMore.starved_devices_block unit suggest observe unit
              train "combined" "loss" 2 default_epsilon []
              (Ok starved_output) "0" [150]%Z model_definition md'
              (Grid unit grid)
              (Grid unit (mkGrid MINIMIZE
                            [("training.batch_size",
                              [VInt 64; VInt 128])] [p64; p128] 1))
              p64 setup Hmem Hall Hlt He eq_refl eq_refl Es E)
    as [Hq Hblock].
  exists setup. split; [reflexivity|]. split; [exact Hq|].
  exact (Hblock 3%nat).
Defined.


(** Two parameters of different sections. *)
Lemma parameters_dict_round_trip_witness :
  exists parameters_dict,
    Substitution.get_parameters_dict two_names = Ok parameters_dict
    /\ lookup_path ["training"; "batch_size"] parameters_dict
       = Some (VInt 64).
Proof.
  assert (H : ForallOrdPairs (fun a b => diverge a b = true)
                (map name_path two_names))
    by (repeat constructor).
  destruct (proj1 (@SubstitutionMore.parameters_dict_round_trip two_names
                     H)) as [pd [Hpd Hget]].
  exists pd. split; [exact Hpd|].
  exact (Hget "training.batch_size" (VInt 64) (or_introl eq_refl)).
Defined.

(** The shape of the definition after a substitution. *)
Lemma substitute_parameters_shape_witness :
  exists d',
    Substitution.substitute_parameters model_definition p64
    = Ok (VDict d')
    /\ Dict.keys d' = Dict.keys definition_entries.
Proof.
  destruct (Substitution.substitute_parameters model_definition p64)
    as [md'|] eqn:E; [|vm_compute in E; discriminate E].
  destruct (@SubstitutionMore.substitute_parameters_shape
              model_definition md' p64 E)
    as [d [d' [Hd [Hd' [Hk _]]]]].
  exists d'. split; [rewrite Hd'; reflexivity|].
  injection Hd as Hd0. rewrite Hd0. exact Hk.
Defined.

Lemma review_outside (names : list string) :
  ~ In "review" names -> ~ In "label" names ->
  features_outside names definition_entries "input_features"
  /\ features_outside names definition_entries "output_features".
Proof.
  intros H1 H2. split.
  - eexists. split; [reflexivity|]. constructor; [|constructor].
    eexists _, _. split; [reflexivity|]. split; [reflexivity | exact H1].
  - eexists. split; [reflexivity|]. constructor; [|constructor].
    eexists _, _. split; [reflexivity|]. split; [reflexivity | exact H2].
Defined.

(** A misspelt section name. *)
Lemma substitute_unaddressed_witness :
  Substitution.substitute_parameters model_definition misspelt
  = Ok model_definition.
Proof.
  assert (Hn : forall n, n <> "trainning" -> ~ In n (heads misspelt)).
  { intros n Hne [H|[]]. apply Hne. symmetry. exact H. }
  destruct (@review_outside (heads misspelt)
              (Hn "review" ltac:(intro H; discriminate H))
              (Hn "label" ltac:(intro H; discriminate H)))
    as [Hin Hout].
  apply (@SubstitutionMore.substitute_unaddressed definition_entries
           misspelt [("trainning", VDict [("batch_size", VInt 64)])]
           eq_refl Hin Hout).
  repeat constructor; try (intro H; discriminate H);
    apply Hn; intro H; discriminate H.
Defined.

Lemma sections_present :
  Forall (fun s => Dict.get s definition_entries <> None) named_sections.
Proof. repeat constructor; intro H; discriminate H. Defined.

(** Batch size 64 for the training section. *)
Lemma substitute_section_entry_witness :
  Substitution.substitute_parameters model_definition
    [("training.batch_size", VInt 64)]
  = Ok (VDict (Dict.set "training"
                 (VDict (Dict.set "batch_size" (VInt 64)
                           training_section))
                 definition_entries)).
Proof.
  assert (Hn : forall n, n <> "training" -> ~ In n ["training"]).
  { intros n Hne [H|[]]. apply Hne. symmetry. exact H. }
  destruct (@review_outside ["training"]
              (Hn "review" ltac:(intro H; discriminate H))
              (Hn "label" ltac:(intro H; discriminate H)))
    as [Hin Hout].
  exact (@SubstitutionMore.substitute_section_entry "training"
           "batch_size" (VInt 64) definition_entries training_section
           (or_intror (or_introl eq_refl)) eq_refl
           (fun sub (H : VInt 64 = VDict sub) =>
              eq_ind (VInt 64)
                (fun v => match v with VInt _ => True | _ => False end)
                I (VDict sub) H)
           Hin Hout sections_present eq_refl).
Defined.

(** A new optimizer type is merged into the old optimizer entry. *)
Lemma substitute_section_dict_entry_witness :
  Substitution.substitute_parameters (VDict optimizer_entries)
    [("training.optimizer", VDict [("type", VStr "sgd")])]
  = Ok (VDict (Dict.set "training"
                 (VDict (Dict.set "optimizer"
                           (VDict [("type", VStr "sgd");
                                   ("beta1", VFloat (9 # 10))])
                           optimizer_section))
                 optimizer_entries)).
Proof.
  assert (Hn : forall n, n <> "training" -> ~ In n ["training"]).
  { intros n Hne [H|[]]. apply Hne. symmetry. exact H. }
  assert (Hin : features_outside ["training"] optimizer_entries
                  "input_features").
  { eexists. split; [reflexivity|]. constructor; [|constructor].
    eexists _, _. split; [reflexivity|]. split; [reflexivity|].
    apply Hn. intro H; discriminate H. }
  assert (Hout : features_outside ["training"] optimizer_entries
                   "output_features").
  { eexists. split; [reflexivity|]. constructor; [|constructor].
    eexists _, _. split; [reflexivity|]. split; [reflexivity|].
    apply Hn. intro H; discriminate H. }
  assert (Hall : Forall (fun s => Dict.get s optimizer_entries <> None)
                   named_sections)
    by (repeat constructor; intro H; discriminate H).
  exact (@SubstitutionMore.substitute_section_dict_entry "training"
           "optimizer" "type" (VStr "sgd") [] optimizer_entries
           optimizer_section (or_intror (or_introl eq_refl)) eq_refl
           Hin Hout Hall eq_refl).
Defined.

(** An encoder for the input feature called review. *)
Lemma substitute_feature_entry_witness :
  Substitution.substitute_parameters model_definition
    [("review.encoder", VStr "rnn")]
  = Ok (VDict
          (Dict.set "input_features"
             (VList [VDict [("name", VStr "review"); ("type", VStr "text");
                            ("encoder", VStr "rnn")]])
             definition_entries)).
Proof.
  assert (Hname : ~ In "review" named_sections).
  { intros [H|[H|[H|[]]]]; discriminate H. }
  assert (Hin : Forall named_feature
                  [VDict [("name", VStr "review"); ("type", VStr "text")]]).
  { constructor; [|constructor]. eexists _, _. split; reflexivity. }
  assert (Hout : Forall named_feature
                   [VDict [("name", VStr "label");
                           ("type", VStr "category")]]).
  { constructor; [|constructor]. eexists _, _. split; reflexivity. }
  exact (@SubstitutionMore.substitute_feature_entry "review" "encoder"
           (VStr "rnn") definition_entries _ _ Hname eq_refl eq_refl
           (fun sub (H : VStr "rnn" = VDict sub) =>
              eq_ind (VStr "rnn")
                (fun v => match v with VStr _ => True | _ => False end)
                I (VDict sub) H)
           eq_refl Hin eq_refl Hout sections_present).
Defined.

(** A real and a categorical parameter. *)
Lemma join_space_preparation_witness :
  exists prepared_parameters,
    prepare_params "type" "category" "int" "real" "space" declared
    = Ok prepared_parameters.
Proof.
  apply (proj1 (proj1 (@JoinSpaceFacts.join_space_preparation "type"
                         "category" "int" "real" "space" declared))).
  repeat constructor; eexists _, _; split; reflexivity.
Defined.

End MoreWitnesses.
